(** * Guild log analyzer: the parsing, classification and filtering core

    A shallow embedding of [guild_log_analyzer.py] and the properties of
    its line parser ([parse_log]), its enrichment pass ([clean_data]) and
    its filter engine ([GuildLogAnalyzerApp.apply_filters]).

    Conventions of the embedding.
    - A Python [str] is a [text], a list of characters.  A character is a
      code point below 256 (Rocq's [ascii], read as Latin-1); the
      character classes of [re] and of [str.strip]/[str.splitlines] are
      the Unicode ones restricted to that range.
    - A compiled regular expression is a [regex] syntax tree and [re]'s
      backtracking matcher is the function [rx], written in
      continuation-passing style so that the alternatives are tried in
      the order [re] tries them.
    - The widget state of the application is an explicit record that the
      operations transform. *)

From Stdlib Require Import Ascii String List ZArith Lia Bool Arith.
From Stdlib Require Import Permutation Sorted DecimalString.
Import ListNotations.

Set Implicit Arguments.

(** ** Text *)

Definition text := list ascii.

(** [T "abc"] is the text of a string literal. *)
Definition T (s : string) : text := list_ascii_of_string s.

Definition code (c : ascii) : nat := nat_of_ascii c.

Definition in_range (lo hi : nat) (c : ascii) : bool :=
  (lo <=? code c) && (code c <=? hi).

(** [str.isspace] on one character, which is also [\s] of [re]:
    TAB..CR, FS..US, space, NEL and the no-break space. *)
Definition isspace (c : ascii) : bool :=
  in_range 9 13 c || in_range 28 32 c || (code c =? 133) || (code c =? 160).

(** [\d] of [re] on a [str] pattern: the decimal digits. *)
Definition isdigit (c : ascii) : bool := in_range 48 57 c.

(** [\w] of [re] on a [str] pattern: the alphanumerics and the underscore. *)
Definition isword (c : ascii) : bool :=
  isdigit c || in_range 65 90 c || in_range 97 122 c || (code c =? 95)
  || (code c =? 170) || (code c =? 178) || (code c =? 179) || (code c =? 181)
  || (code c =? 185) || (code c =? 186) || in_range 188 190 c
  || in_range 192 214 c || in_range 216 246 c || in_range 248 255 c.

Definition newline : ascii := ascii_of_nat 10.

(** [.] of [re] without DOTALL: anything but a line feed. *)
Definition isany (c : ascii) : bool := negb (code c =? 10).

(** The line boundaries of [str.splitlines]. *)
Definition islinebreak (c : ascii) : bool :=
  in_range 10 13 c || in_range 28 30 c || (code c =? 133).

(** The simple lower-casing [re.IGNORECASE] compares with. *)
Definition lower (c : ascii) : ascii :=
  if in_range 65 90 c
     || ((in_range 192 222 c) && negb (code c =? 215))
  then ascii_of_nat (code c + 32) else c.

Definition lower_text (s : text) : text := map lower s.

Fixpoint lstrip (s : text) : text :=
  match s with
  | c :: s' => if isspace c then lstrip s' else s
  | [] => []
  end.

Definition rstrip (s : text) : text := rev (lstrip (rev s)).

(** [str.strip()] *)
Definition strip (s : text) : text := rstrip (lstrip s).

(** [str.splitlines()]: [cur] holds the current line, reversed. *)
Fixpoint splitlines_from (cur : text) (s : text) : list text :=
  match s with
  | [] => match cur with [] => [] | _ => [rev cur] end
  | c :: s' =>
      if islinebreak c then
        rev cur ::
          (if code c =? 13 then
             match s' with
             | d :: s'' => if code d =? 10 then splitlines_from [] s''
                           else splitlines_from [] s'
             | [] => splitlines_from [] s'
             end
           else splitlines_from [] s')
      else splitlines_from (c :: cur) s'
  end.

Definition splitlines (s : text) : list text := splitlines_from [] s.

Definition text_eqb (a b : text) : bool :=
  if list_eq_dec ascii_dec a b then true else false.

Fixpoint starts_with (p s : text) : bool :=
  match p, s with
  | [], _ => true
  | c :: p', d :: s' => Ascii.eqb c d && starts_with p' s'
  | _ :: _, [] => false
  end.

(** [p in s] on strings. *)
Fixpoint contains (p s : text) : bool :=
  starts_with p s ||
  match s with
  | [] => false
  | _ :: s' => contains p s'
  end.

(** [s.split(sep, 1)] for a one-character separator that occurs in [s]:
    the text before the first [sep] and the text after it. *)
Fixpoint split_once (sep : ascii) (s : text) : text * text :=
  match s with
  | [] => ([], [])
  | c :: s' =>
      if Ascii.eqb c sep then ([], s')
      else let (a, b) := split_once sep s' in (c :: a, b)
  end.

Definition has_char (c : ascii) (s : text) : bool := existsb (Ascii.eqb c) s.

(** [int(s)] on a run of decimal digits. *)
Definition digit_value (c : ascii) : Z := Z.of_nat (code c) - 48.

Definition int_of_digits (s : text) : Z :=
  fold_left (fun acc c => 10 * acc + digit_value c)%Z s 0%Z.

(** ** Regular expressions *)

(** The syntax trees [re.compile] builds, for the constructs this program
    uses.  [Rep r lo hi greedy] is [r{lo,hi}] ([hi = None]: unbounded),
    lazy when [greedy] is false; [Grp name r] is a capturing group (an
    unnamed group is labelled by its number). *)
Inductive regex : Type :=
| Eps : regex
| Cls : (ascii -> bool) -> regex
| Seq : regex -> regex -> regex
| Alt : regex -> regex -> regex
| Rep : regex -> nat -> option nat -> bool -> regex
| Grp : string -> regex -> regex
| Bol : regex
| Eol : regex.

Definition captures := list (string * text).

Fixpoint group (name : string) (caps : captures) : option text :=
  match caps with
  | [] => None
  | (n, v) :: caps' => if String.eqb n name then Some v else group name caps'
  end.

Definition set_group (name : string) (v : text) (caps : captures) : captures :=
  (name, v) :: caps.

(** What remains to be matched: the position reached, the text left and
    the groups captured so far. *)
Definition cont (A : Type) := nat -> text -> captures -> option A.

Definition more_allowed (hi : option nat) : bool :=
  match hi with Some 0 => false | _ => true end.

Definition pred_bound (hi : option nat) : option nat :=
  match hi with Some n => Some (pred n) | None => None end.

(** The repetition loop of the matcher.  [lo] and [hi] count the
    iterations still required and still allowed.  An iteration beyond the
    required ones has to consume something, as in [re]. *)
Fixpoint rep_loop {A} (body : nat -> text -> captures -> cont A -> option A)
    (greedy : bool) (k : cont A) (fuel lo : nat) (hi : option nat)
    (pos : nat) (s : text) (caps : captures) : option A :=
  let again (_ : unit) :=
    match fuel with
    | 0 => None
    | S fuel' =>
        if more_allowed hi then
          body pos s caps (fun pos' s' caps' =>
            if (0 <? lo) || (length s' <? length s)
            then rep_loop body greedy k fuel' (pred lo) (pred_bound hi) pos' s' caps'
            else None)
        else None
    end in
  if greedy then
    match again tt with
    | Some x => Some x
    | None => if lo =? 0 then k pos s caps else None
    end
  else
    match (if lo =? 0 then k pos s caps else None) with
    | Some x => Some x
    | None => again tt
    end.

(** The backtracking matcher: [rx r pos s caps k] matches [r] at the
    front of [s], which starts at offset [pos] of the subject, then hands
    over to [k]; [None] is failure, upon which the caller tries its next
    alternative. *)
Fixpoint rx {A} (r : regex) (pos : nat) (s : text) (caps : captures)
    (k : cont A) {struct r} : option A :=
  match r with
  | Eps => k pos s caps
  | Cls p =>
      match s with
      | c :: s' => if p c then k (S pos) s' caps else None
      | [] => None
      end
  | Seq r1 r2 => rx r1 pos s caps (fun pos' s' caps' => rx r2 pos' s' caps' k)
  | Alt r1 r2 =>
      match rx r1 pos s caps k with
      | Some x => Some x
      | None => rx r2 pos s caps k
      end
  | Rep r1 lo hi greedy =>
      rep_loop (rx r1) greedy k (lo + length s) lo hi pos s caps
  | Grp name r1 =>
      rx r1 pos s caps (fun pos' s' caps' =>
        k pos' s' (set_group name (firstn (pos' - pos) s) caps'))
  | Bol => if pos =? 0 then k pos s caps else None
  | Eol =>
      match s with
      | [] => k pos s caps
      | [c] => if code c =? 10 then k pos s caps else None
      | _ => None
      end
  end.

(** [pattern.match(s)]: a match at the start of [s]. *)
Definition re_match (r : regex) (s : text) : option captures :=
  rx r 0 s [] (fun _ _ caps => Some caps).

(** [pattern.search(s)]: the first offset with a match. *)
Fixpoint search_from (r : regex) (pos : nat) (s : text) : option captures :=
  match rx r pos s [] (fun _ _ caps => Some caps) with
  | Some caps => Some caps
  | None =>
      match s with
      | [] => None
      | _ :: s' => search_from r (S pos) s'
      end
  end.

Definition re_search (r : regex) (s : text) : option captures :=
  search_from r 0 s.

(** Pattern building blocks. *)
Definition chr (c : ascii) : regex := Cls (Ascii.eqb c).

Fixpoint lit (s : text) : regex :=
  match s with
  | [] => Eps
  | c :: s' => Seq (chr c) (lit s')
  end.

Definition plus (r : regex) : regex := Rep r 1 None true.
Definition plus_lazy (r : regex) : regex := Rep r 1 None false.
Definition times (n : nat) (r : regex) : regex := Rep r n (Some n) true.
Definition between (lo hi : nat) (r : regex) : regex := Rep r lo (Some hi) true.

Fixpoint seqs (rs : list regex) : regex :=
  match rs with
  | [] => Eps
  | [r] => r
  | r :: rs' => Seq r (seqs rs')
  end.

Fixpoint alts (rs : list regex) : regex :=
  match rs with
  | [] => Cls (fun _ => false)
  | [r] => r
  | r :: rs' => Alt r (alts rs')
  end.

(** What a regular expression denotes: [matches r pos s1 s2] when [r]
    matches [s1] at offset [pos] with [s2] following. *)
Inductive rep_matches (M : nat -> text -> text -> Prop) :
    nat -> option nat -> nat -> text -> text -> Prop :=
| rep_done : forall hi pos s2, rep_matches M 0 hi pos [] s2
| rep_more : forall lo hi pos a b s2,
    more_allowed hi = true ->
    0 < lo \/ a <> [] ->
    M pos a (b ++ s2) ->
    rep_matches M (pred lo) (pred_bound hi) (pos + length a) b s2 ->
    rep_matches M lo hi pos (a ++ b) s2.

Fixpoint matches (r : regex) (pos : nat) (s1 s2 : text) : Prop :=
  match r with
  | Eps => s1 = []
  | Cls p => exists c, s1 = [c] /\ p c = true
  | Seq r1 r2 =>
      exists a b, s1 = a ++ b /\ matches r1 pos a (b ++ s2)
                  /\ matches r2 (pos + length a) b s2
  | Alt r1 r2 => matches r1 pos s1 s2 \/ matches r2 pos s1 s2
  | Rep r1 lo hi _ => rep_matches (matches r1) lo hi pos s1 s2
  | Grp _ r1 => matches r1 pos s1 s2
  | Bol => s1 = [] /\ pos = 0
  | Eol => s1 = [] /\ (s2 = [] \/ s2 = [newline])
  end.

(** ** Dates and times *)

(** A naive [datetime]: the calendar fields. *)
Record datetime : Type := mk_datetime {
  year : Z; month : Z; day : Z; hour : Z; minute : Z; second : Z }.

Local Open Scope Z_scope.

Definition is_leap (y : Z) : bool :=
  (y mod 4 =? 0) && (negb (y mod 100 =? 0) || (y mod 400 =? 0)).

Definition days_in_month (y m : Z) : Z :=
  if m =? 2 then (if is_leap y then 29 else 28)
  else if (m =? 4) || (m =? 6) || (m =? 9) || (m =? 11) then 30 else 31.

(** Days since 1970-01-01 of a civil date, and back. *)
Definition days_from_civil (y m d : Z) : Z :=
  let y' := if m <=? 2 then y - 1 else y in
  let era := y' / 400 in
  let yoe := y' - era * 400 in
  let doy := (153 * (m + (if 2 <? m then -3 else 9)) + 2) / 5 + d - 1 in
  let doe := yoe * 365 + yoe / 4 - yoe / 100 + doy in
  era * 146097 + doe - 719468.

Definition civil_from_days (z0 : Z) : Z * Z * Z :=
  let z := z0 + 719468 in
  let era := z / 146097 in
  let doe := z - era * 146097 in
  let yoe := (doe - doe / 1460 + doe / 36524 - doe / 146096) / 365 in
  let doy := doe - (365 * yoe + yoe / 4 - yoe / 100) in
  let mp := (5 * doy + 2) / 153 in
  let d := doy - (153 * mp + 2) / 5 + 1 in
  let m := if mp <? 10 then mp + 3 else mp - 9 in
  (if m <=? 2 then yoe + era * 400 + 1 else yoe + era * 400, m, d).

Definition to_seconds (t : datetime) : Z :=
  ((days_from_civil (year t) (month t) (day t) * 24 + hour t) * 60 + minute t) * 60
  + second t.

Definition of_seconds (n : Z) : datetime :=
  let days := n / 86400 in
  let r := n mod 86400 in
  let '(y, m, d) := civil_from_days days in
  mk_datetime y m d (r / 3600) ((r mod 3600) / 60) (r mod 60).

Definition datetime_leb (a b : datetime) : bool := to_seconds a <=? to_seconds b.

Definition digit_char (n : Z) : ascii := ascii_of_nat (48 + Z.to_nat (n mod 10)).

Definition pad2 (n : Z) : text := [digit_char (n / 10); digit_char n].

Definition pad4 (n : Z) : text :=
  [digit_char (n / 1000); digit_char (n / 100); digit_char (n / 10); digit_char n].

(** [t.strftime('%Y-%m-%d %I:%M:%S %p')], the stored display form. *)
Definition strftime_display (t : datetime) : text :=
  let h12 := if hour t mod 12 =? 0 then 12 else hour t mod 12 in
  pad4 (year t) ++ T "-" ++ pad2 (month t) ++ T "-" ++ pad2 (day t) ++ T " "
  ++ pad2 h12 ++ T ":" ++ pad2 (minute t) ++ T ":" ++ pad2 (second t) ++ T " "
  ++ (if hour t <? 12 then T "AM" else T "PM").

(** [str(t)] of a naive pandas Timestamp with whole seconds, which is also
    how [to_csv] writes it. *)
Definition isoformat_space (t : datetime) : text :=
  pad4 (year t) ++ T "-" ++ pad2 (month t) ++ T "-" ++ pad2 (day t) ++ T " "
  ++ pad2 (hour t) ++ T ":" ++ pad2 (minute t) ++ T ":" ++ pad2 (second t).

(** *** [datetime.strptime(s, "%d %b '%y %I:%M%p")]

    [_strptime] turns the format into a regular expression, compiled
    with IGNORECASE, matches it at the start of the data and raises
    ValueError when it fails or leaves data unconverted.  The month and
    am/pm names are those of the C locale. *)
Definition ci (s : text) : regex :=
  seqs (map (fun c => Cls (fun d => Ascii.eqb (lower d) (lower c))) s).

Definition month_names : list text :=
  map T ["jan"; "feb"; "mar"; "apr"; "may"; "jun";
         "jul"; "aug"; "sep"; "oct"; "nov"; "dec"]%string.

Definition STRPTIME_FORMAT : regex :=
  seqs [
    Grp "d" (alts [
      Seq (chr "3") (Cls (in_range 48 49));
      Seq (Cls (in_range 49 50)) (Cls isdigit);
      Seq (chr "0") (Cls (in_range 49 57));
      Cls (in_range 49 57);
      Seq (chr " ") (Cls (in_range 49 57))]);
    plus (Cls isspace);
    Grp "b" (alts (map ci month_names));
    plus (Cls isspace);
    chr "'";
    Grp "y" (Seq (Cls isdigit) (Cls isdigit));
    plus (Cls isspace);
    Grp "I" (alts [
      Seq (chr "1") (Cls (in_range 48 50));
      Seq (chr "0") (Cls (in_range 49 57));
      Cls (in_range 49 57)]);
    chr ":";
    Grp "M" (Seq (Cls (in_range 48 53)) (Cls isdigit));
    Grp "p" (Alt (ci (T "am")) (ci (T "pm")))
  ].

(** A match at the start together with the offset where it ends. *)
Definition re_match_end (r : regex) (s : text) : option (nat * captures) :=
  rx r 0 s [] (fun pos _ caps => Some (pos, caps)).

Definition grp (name : string) (m : captures) : text :=
  match group name m with Some v => v | None => [] end.

Fixpoint index_of (x : text) (l : list text) (i : Z) : option Z :=
  match l with
  | [] => None
  | y :: l' => if text_eqb x y then Some i else index_of x l' (i + 1)
  end.

(** [None] stands for the ValueError. *)
Definition strptime (s : text) : option datetime :=
  match re_match_end STRPTIME_FORMAT s with
  | None => None
  | Some (upto, found) =>
      if negb (Nat.eqb upto (List.length s)) then None
      else
        let y := int_of_digits (grp "y" found) in
        let year := if y <=? 68 then y + 2000 else y + 1900 in
        match index_of (lower_text (grp "b" found)) month_names 1 with
        | None => None
        | Some month =>
            let day := int_of_digits (lstrip (grp "d" found)) in
            let h := int_of_digits (grp "I" found) in
            let ampm := lower_text (grp "p" found) in
            let hour :=
              if text_eqb ampm (T "am") then (if h =? 12 then 0 else h)
              else (if h =? 12 then h else h + 12) in
            let minute := int_of_digits (grp "M" found) in
            if day <=? days_in_month year month
            then Some (mk_datetime year month day hour minute 0)
            else None
        end
  end.

Local Close Scope Z_scope.

(** ** The line parser *)

(** [LOG_PATTERN]:
<<
  ^\d+\)\s+
  (?P<timestamp>\d{1,2} \w{3} '\d{2} \d{2}:\d{2}[ap]m)\s+:\s+
  (?P<player>.+?)\s+
  (?P<action>(has|is|matches|PROMOTED|DEMOTED|JOINED|Left|Come|died)\s.+)$
>> *)
Definition lead_words : list text :=
  map T ["has"; "is"; "matches"; "PROMOTED"; "DEMOTED"; "JOINED";
         "Left"; "Come"; "died"]%string.

Definition is_a_or_p (c : ascii) : bool := Ascii.eqb c "a" || Ascii.eqb c "p".

Definition TIMESTAMP_TOKEN : regex :=
  seqs [ between 1 2 (Cls isdigit); chr " "; times 3 (Cls isword); chr " ";
         chr "'"; times 2 (Cls isdigit); chr " ";
         times 2 (Cls isdigit); chr ":"; times 2 (Cls isdigit);
         Cls is_a_or_p; chr "m" ].

Definition ACTION : regex :=
  seqs [ Grp "4" (alts (map lit lead_words)); Cls isspace; plus (Cls isany) ].

Definition LOG_PATTERN : regex :=
  seqs [ Bol; plus (Cls isdigit); chr ")"; plus (Cls isspace);
         Grp "timestamp" TIMESTAMP_TOKEN;
         plus (Cls isspace); chr ":"; plus (Cls isspace);
         Grp "player" (plus_lazy (Cls isany));
         plus (Cls isspace);
         Grp "action" ACTION;
         Eol ].

(** One dictionary appended to [data]. *)
Record entry : Type := mk_entry {
  Timestamp : text; Player : text; Event : text; Details : text }.

(** What [logging.warning] receives. *)
Inductive log_message : Type :=
| timestamp_parsing_failed (line : text)
| line_skipped (line : text).

Section Parser.

(** The offset from UTC, in seconds, that the zone [US/Eastern] of [pytz]
    has at a UTC instant.  The zone table is not part of the program. *)
Variable utcoffset : datetime -> Z.

(** [pytz.utc.localize(t).astimezone(local_tz)] *)
Definition astimezone (t : datetime) : datetime :=
  of_seconds (to_seconds t + utcoffset t).

(** The body of the loop of [parse_log] on one line of the input, from
    [line.strip()] on; [data] and the log grow at the end. *)
Definition parse_line (acc : list entry * list log_message) (line0 : text)
  : list entry * list log_message :=
  let (data, log) := acc in
  let line := strip line0 in
  match re_match LOG_PATTERN line with
  | Some m =>
      let timestamp_str := grp "timestamp" m in
      let timestamp :=
        match strptime timestamp_str with
        | Some t => Some (astimezone t)
        | None => None
        end in
      let log' :=
        match timestamp with
        | Some _ => log
        | None => log ++ [timestamp_parsing_failed line]
        end in
      let player := grp "player" m in
      let action := grp "action" m in
      let (event_type, details) :=
        if has_char ";" action then split_once ";" action else (action, []) in
      (data ++ [ {| Timestamp := match timestamp with
                                 | Some t => strftime_display t
                                 | None => []
                                 end;
                    Player := strip player;
                    Event := strip event_type;
                    Details := strip details |} ],
       log')
  | None => (data, log ++ [line_skipped line])
  end.

(** [parse_log(file_content)]: the rows of the returned frame and what was
    logged.  No step of the loop raises anything but the ValueError of
    [strptime], which the loop handles, so the outer [except] is never
    entered. *)
Definition parse_log (file_content : text) : list entry * list log_message :=
  fold_left parse_line (splitlines (strip file_content)) ([], []).

End Parser.

(** A zone with one fixed offset, to run the parser on examples: Eastern
    Standard Time is five hours behind UTC. *)
Definition est_offset : datetime -> Z := fun _ => (-18000)%Z.


(** ** Enrichment: [clean_data] *)

(** The pattern of [str.extract(r'LVL: (\d+)')]. *)
Definition LEVEL_PATTERN : regex :=
  Seq (lit (T "LVL: ")) (Grp "1" (plus (Cls isdigit))).

(** One cell of [df['Event'].str.extract(...)]: the digits captured by the
    first match, [None] (NaN) without one. *)
Definition extract_level (event_str : text) : option text :=
  match re_search LEVEL_PATTERN event_str with
  | Some m => Some (grp "1" m)
  | None => None
  end.

(** A cell of the [Level] column after [pd.to_numeric(..., errors='coerce')].
    With runs of up to 15 digits the column is int64 when every row has a
    level and float64, with NaN for the missing ones, otherwise, and
    either type holds the number exactly.  A longer run is outside the
    model: pandas makes of it an int64, a uint64, a float64 that is
    rounded, or NaN when it cannot read it, and that choice decides the
    type of the whole column.  The cells of such a column keep their
    digits as [level_outside]. *)
Inductive level_cell : Type :=
| level_int (n : Z)
| level_float (n : Z)
| level_nan
| level_outside (digits : text).

(** The number of a cell; for a cell outside the model, the number its
    digits write, which is the number the column holds when the digits
    are 15 at most. *)
Definition level_value (l : level_cell) : option Z :=
  match l with
  | level_int n | level_float n => Some n
  | level_nan => None
  | level_outside digits => Some (int_of_digits digits)
  end.

(** The cell holds what the model says it holds: no number, or a number
    that an int64 and a float64 hold exactly and that is written without
    an exponent. *)
Definition level_known (l : level_cell) : bool :=
  match l with
  | level_int n | level_float n => ((0 <=? n) && (n <? 10 ^ 15))%Z
  | level_nan => true
  | level_outside _ => false
  end.

Definition is_some {A} (x : option A) : bool :=
  match x with Some _ => true | None => false end.

(** The run of digits, if any, has 15 digits at most. *)
Definition short_run (x : option text) : bool :=
  match x with
  | Some digits => List.length digits <=? 15
  | None => true
  end.

Definition to_numeric (col : list (option text)) : list level_cell :=
  let no_nan := forallb is_some col in
  let exact := forallb short_run col in
  map (fun x => match x with
                | Some digits =>
                    if exact then
                      if no_nan then level_int (int_of_digits digits)
                      else level_float (int_of_digits digits)
                    else level_outside digits
                | None => level_nan
                end) col.

(** The labels of [categorize_event]. *)
Definition Death := T "Death".
Definition Level_Up := T "Level Up".
Definition Join := T "Join".
Definition Leave := T "Leave".
Definition Promotion := T "Promotion".
Definition Demotion := T "Demotion".
Definition Online := T "Online".
Definition Other := T "Other".

Definition categories : list text :=
  [Death; Level_Up; Join; Leave; Promotion; Demotion; Online; Other].

Definition categorize_event (event_str : text) : text :=
  if contains (T "has died at level") event_str
     || contains (T "has died") event_str
     || (contains (T "has Left the guild") event_str
         && contains (T "[D]") event_str)
  then Death
  else if contains (T "Leveled to") event_str then Level_Up
  else if contains (T "JOINED the guild") event_str
          || contains (T "has JOINED the guild") event_str then Join
  else if contains (T "Left the guild") event_str
          || contains (T "is no longer in the Guild") event_str then Leave
  else if contains (T "PROMOTED") event_str then Promotion
  else if contains (T "DEMOTED") event_str then Demotion
  else if contains (T "Come ONLINE after being INACTIVE") event_str then Online
  else Other.

(** A cell of the [Timestamp] column: the display string [parse_log]
    wrote, or, once [apply_filters] has converted the column with
    [pd.to_datetime], a naive datetime or NaT. *)
Inductive ts_cell : Type :=
| ts_str (s : text)
| ts_time (t : datetime)
| ts_NaT.

(** A row of the enriched frame, by column. *)
Record row : Type := mk_row {
  col_Timestamp : ts_cell;
  col_Player : text;
  col_Event : text;
  col_Details : text;
  col_Level : level_cell;
  col_Event_Type : text }.

(** [clean_data(df)] on the rows [parse_log] returned. *)
Definition clean_data (df : list entry) : list row :=
  let levels := to_numeric (map (fun e => extract_level (Event e)) df) in
  map (fun el : entry * level_cell =>
         let (e, l) := el in
         {| col_Timestamp := ts_str (Timestamp e);
            col_Player := Player e;
            col_Event := Event e;
            col_Details := Details e;
            col_Level := l;
            col_Event_Type := categorize_event (Event e) |})
      (combine df levels).

(** ** [re.compile(pat, re.IGNORECASE)] for the patterns typed into the
    filter boxes

    [Series.str.contains] treats its argument as a regular expression.
    The parser below covers literals, [.], [^], [$], the escapes of
    punctuation and [\d \w \s] with their complements, groups, [|] and
    the quantifiers [* + ?] with their lazy forms, and reports the
    errors [re] raises on these.  Character sets, counted repetition,
    [(?...)] groups, possessive quantifiers and the escapes of letters
    and digits other than the six above are outside the model. *)
Inductive compiled : Type :=
| re_ok (r : regex)
| re_error
| re_unmodelled.

Inductive item_kind : Type := plain_item | repeated_item | anchor_item.

Definition item := (regex * item_kind)%type.

Definition seq_of (cur : list item) : regex := seqs (rev (map fst cur)).

Definition finish (alts_rev : list regex) (cur : list item) : regex :=
  alts (rev (seq_of cur :: alts_rev)).

Definition literal_ignorecase (c : ascii) : regex :=
  Cls (fun d => Ascii.eqb (lower d) (lower c)).

Definition is_alnum_ascii (c : ascii) : bool :=
  in_range 48 57 c || in_range 65 90 c || in_range 97 122 c.

(** [\e] for one escaped character. *)
Definition escape (e : ascii) : option regex :=
  if Ascii.eqb e "d" then Some (Cls isdigit)
  else if Ascii.eqb e "w" then Some (Cls isword)
  else if Ascii.eqb e "s" then Some (Cls isspace)
  else if Ascii.eqb e "D" then Some (Cls (fun c => negb (isdigit c)))
  else if Ascii.eqb e "W" then Some (Cls (fun c => negb (isword c)))
  else if Ascii.eqb e "S" then Some (Cls (fun c => negb (isspace c)))
  else if is_alnum_ascii e then None
  else Some (literal_ignorecase e).

Definition quantified (q : ascii) (greedy : bool) (r : regex) : regex :=
  if Ascii.eqb q "*" then Rep r 0 None greedy
  else if Ascii.eqb q "+" then Rep r 1 None greedy
  else Rep r 0 (Some 1) greedy.

Definition group_label (n : nat) : string :=
  NilEmpty.string_of_uint (Nat.to_uint n).

(** A group still open: its number and what precedes it outside. *)
Definition frame := (nat * list regex * list item)%type.

(** One pass over the pattern.  [cur] is the sequence being read,
    reversed; [alts_rev] the alternatives of the group being read that
    are complete; [stack] the enclosing groups; [n] the groups opened. *)
Fixpoint re_parse (s : text) (cur : list item) (alts_rev : list regex)
    (stack : list frame) (n : nat) : compiled :=
  match s with
  | [] =>
      match stack with
      | [] => re_ok (finish alts_rev cur)
      | _ :: _ => re_error
      end
  | c :: s' =>
      if Ascii.eqb c "\" then
        match s' with
        | [] => re_error
        | e :: s'' =>
            match escape e with
            | Some r => re_parse s'' ((r, plain_item) :: cur) alts_rev stack n
            | None => re_unmodelled
            end
        end
      else if Ascii.eqb c "." then
        re_parse s' ((Cls isany, plain_item) :: cur) alts_rev stack n
      else if Ascii.eqb c "^" then
        re_parse s' ((Bol, anchor_item) :: cur) alts_rev stack n
      else if Ascii.eqb c "$" then
        re_parse s' ((Eol, anchor_item) :: cur) alts_rev stack n
      else if Ascii.eqb c "*" || Ascii.eqb c "+" || Ascii.eqb c "?" then
        match cur with
        | [] => re_error
        | (_, anchor_item) :: _ => re_error
        | (_, repeated_item) :: _ => re_error
        | (r, plain_item) :: cur' =>
            match s' with
            | d :: s'' =>
                if Ascii.eqb d "?" then
                  re_parse s'' ((quantified c false r, repeated_item) :: cur')
                           alts_rev stack n
                else if Ascii.eqb d "+" then re_unmodelled
                else re_parse s' ((quantified c true r, repeated_item) :: cur')
                              alts_rev stack n
            | [] => re_parse s' ((quantified c true r, repeated_item) :: cur')
                             alts_rev stack n
            end
        end
      else if Ascii.eqb c "(" then
        match s' with
        | d :: _ =>
            if Ascii.eqb d "?" then re_unmodelled
            else re_parse s' [] [] ((S n, alts_rev, cur) :: stack) (S n)
        | [] => re_error
        end
      else if Ascii.eqb c ")" then
        match stack with
        | [] => re_error
        | (g, outer_alts, outer_cur) :: stack' =>
            re_parse s' ((Grp (group_label g) (finish alts_rev cur), plain_item)
                         :: outer_cur) outer_alts stack' n
        end
      else if Ascii.eqb c "|" then
        re_parse s' [] (seq_of cur :: alts_rev) stack n
      else if Ascii.eqb c "[" || Ascii.eqb c "{" then re_unmodelled
      else re_parse s' ((literal_ignorecase c, plain_item) :: cur) alts_rev stack n
  end.

Definition re_compile_ignorecase (pat : text) : compiled :=
  re_parse pat [] [] [] 0.

(** What evaluating an expression of the program comes to. *)
Inductive attempt (A : Type) : Type :=
| returned (a : A)
| raises_re_error
| outside_model.
Arguments returned {A} a.
Arguments raises_re_error {A}.
Arguments outside_model {A}.

(** [col.str.contains(pat, case=False, na=False)]: the mask, one boolean
    per cell, when the pattern compiles. *)
Definition str_contains (pat : text) (col : list text) : attempt (list bool) :=
  match re_compile_ignorecase pat with
  | re_ok r => returned (map (fun x => is_some (re_search r x)) col)
  | re_error => raises_re_error
  | re_unmodelled => outside_model
  end.

(** ** The filter engine: [GuildLogAnalyzerApp.apply_filters] *)

(** The columns of the enriched frame, which [sort_by] is looked up in. *)
Inductive column : Type :=
| Timestamp_col | Player_col | Event_col | Details_col | Level_col | Event_Type_col.

Definition column_of_name (name : text) : option column :=
  if text_eqb name (T "Timestamp") then Some Timestamp_col
  else if text_eqb name (T "Player") then Some Player_col
  else if text_eqb name (T "Event") then Some Event_col
  else if text_eqb name (T "Details") then Some Details_col
  else if text_eqb name (T "Level") then Some Level_col
  else if text_eqb name (T "Event Type") then Some Event_Type_col
  else None.

Definition decimal (n : Z) : text :=
  T (NilEmpty.string_of_uint (N.to_uint (Z.to_N n))).

(** [str(x)] of a cell, as [row.astype(str)] writes it for the search.
    What becomes of a missing value (NaN, NaT) depends on the release of
    pandas: the text [nan] or [NaT] before pandas 3, a missing value of
    the string type since, for which [str.contains(..., na=False)]
    answers no.  [str_missing] holds the text of the earlier releases.
    A level outside the model has no text in the model. *)
Inductive cell_str : Type :=
| str_of (s : text)
| str_missing (s : text)
| str_outside.

Definition ts_text (c : ts_cell) : cell_str :=
  match c with
  | ts_str s => str_of s
  | ts_time t => str_of (isoformat_space t)
  | ts_NaT => str_missing (T "NaT")
  end.

(** An int is written in decimal, a float that is a whole number below
    [1e16] in decimal with [.0] after it. *)
Definition level_text (l : level_cell) : cell_str :=
  match l with
  | level_int n => if level_known l then str_of (decimal n) else str_outside
  | level_float n =>
      if level_known l then str_of (decimal n ++ T ".0") else str_outside
  | level_nan => str_missing (T "nan")
  | level_outside _ => str_outside
  end.

Definition row_strings (r : row) : list cell_str :=
  [ ts_text (col_Timestamp r); str_of (col_Player r); str_of (col_Event r);
    str_of (col_Details r); level_text (col_Level r);
    str_of (col_Event_Type r) ].

(** The answer of the search in one cell, when it is the same under
    every release: a missing value that the pattern does not match as a
    text is not matched; one that it matches is matched or not. *)
Definition cell_matches (r : regex) (c : cell_str) : option bool :=
  match c with
  | str_of s => Some (is_some (re_search r s))
  | str_missing s => if is_some (re_search r s) then None else Some false
  | str_outside => None
  end.

Definition is_found (x : option bool) : bool :=
  match x with Some true => true | _ => false end.

(** [row.astype(str).str.contains(...).any()]: the pattern is found in
    some cell, or it is found in none. *)
Definition row_matches (r : regex) (row : row) : option bool :=
  let found := map (cell_matches r) (row_strings row) in
  if existsb is_found found then Some true
  else if forallb is_some found then Some false
  else None.

(** The mask of the search, when the model has an answer for every
    row. *)
Fixpoint search_mask (r : regex) (rows : list row) : option (list bool) :=
  match rows with
  | [] => Some []
  | row :: rows' =>
      match row_matches r row, search_mask r rows' with
      | Some b, Some mask => Some (b :: mask)
      | _, _ => None
      end
  end.

(** The display string back to a datetime: what [pd.to_datetime] makes of
    a cell that [parse_log] wrote.  [None] stands for the ValueError,
    which the model raises on any other non-empty text. *)
Definition DISPLAY_FORMAT : regex :=
  seqs [ Grp "Y" (times 4 (Cls isdigit)); chr "-";
         Grp "m" (times 2 (Cls isdigit)); chr "-";
         Grp "d" (times 2 (Cls isdigit)); chr " ";
         Grp "I" (times 2 (Cls isdigit)); chr ":";
         Grp "M" (times 2 (Cls isdigit)); chr ":";
         Grp "S" (times 2 (Cls isdigit)); chr " ";
         Grp "p" (Alt (lit (T "AM")) (lit (T "PM"))) ].

Local Open Scope Z_scope.

Definition parse_display (s : text) : option datetime :=
  match re_match_end DISPLAY_FORMAT s with
  | None => None
  | Some (upto, found) =>
      let y := int_of_digits (grp "Y" found) in
      let m := int_of_digits (grp "m" found) in
      let d := int_of_digits (grp "d" found) in
      let h := int_of_digits (grp "I" found) in
      let mi := int_of_digits (grp "M" found) in
      let sec := int_of_digits (grp "S" found) in
      let pm := text_eqb (grp "p" found) (T "PM") in
      if Nat.eqb upto (List.length s)
         && (1 <=? m) && (m <=? 12) && (1 <=? d) && (d <=? days_in_month y m)
         && (1 <=? h) && (h <=? 12) && (mi <=? 59) && (sec <=? 59)
      then Some (mk_datetime y m d ((h mod 12) + (if pm then 12 else 0)) mi sec)
      else None
  end.

Local Close Scope Z_scope.

Definition to_datetime_cell (c : ts_cell) : option ts_cell :=
  match c with
  | ts_str [] => Some ts_NaT
  | ts_str s =>
      match parse_display s with
      | Some t => Some (ts_time t)
      | None => None
      end
  | _ => Some c
  end.

(** [pd.to_datetime(column)]: every cell or the ValueError. *)
Fixpoint to_datetime_column (col : list ts_cell) : option (list ts_cell) :=
  match col with
  | [] => Some []
  | c :: col' =>
      match to_datetime_cell c, to_datetime_column col' with
      | Some c', Some rest => Some (c' :: rest)
      | _, _ => None
      end
  end.

Definition set_Timestamp (r : row) (c : ts_cell) : row :=
  {| col_Timestamp := c; col_Player := col_Player r; col_Event := col_Event r;
     col_Details := col_Details r; col_Level := col_Level r;
     col_Event_Type := col_Event_Type r |}.

(** What [pd.to_datetime] makes of the text of a date bound: a time
    without a zone, a time with a zone when the text names one, or NaT. *)
Inductive bound : Type :=
| naive (t : datetime)
| aware
| bound_NaT.

Definition is_aware (b : bound) : bool :=
  match b with aware => true | _ => false end.

(** [(ts >= start) & (ts <= end)] on one cell; NaT compares false. *)
Definition in_date_range (start_date end_date : datetime) (c : ts_cell) : bool :=
  match c with
  | ts_time t => datetime_leb start_date t && datetime_leb t end_date
  | _ => false
  end.

(** The same with the bounds as parsed; a bound that is NaT compares
    false with every cell.  A bound with a zone does not compare. *)
Definition in_bounds (start_date end_date : bound) (c : ts_cell) : bool :=
  match start_date, end_date with
  | naive s, naive e => in_date_range s e c
  | _, _ => false
  end.

(** [frame[mask]] *)
Fixpoint select (rows : list row) (mask : list bool) : list row :=
  match rows, mask with
  | r :: rows', b :: mask' => if b then r :: select rows' mask' else select rows' mask'
  | _, _ => []
  end.

(** Code-point order on strings. *)
Fixpoint text_leb (a b : text) : bool :=
  match a, b with
  | [], _ => true
  | _ :: _, [] => false
  | c :: a', d :: b' =>
      if code c <? code d then true
      else if code d <? code c then false
      else text_leb a' b'
  end.

Definition ts_leb (a b : ts_cell) : bool :=
  match a, b with
  | ts_str x, ts_str y => text_leb x y
  | ts_time x, ts_time y => datetime_leb x y
  | ts_NaT, ts_NaT => true
  | ts_str _, _ => true
  | ts_time _, ts_NaT => true
  | _, _ => false
  end.

Definition level_leb (a b : level_cell) : bool :=
  match level_value a, level_value b with
  | Some x, Some y => (x <=? y)%Z
  | Some _, None => true
  | None, Some _ => false
  | None, None => true
  end.

(** The order of the values of a column. *)
Definition key_leb (c : column) (a b : row) : bool :=
  match c with
  | Timestamp_col => ts_leb (col_Timestamp a) (col_Timestamp b)
  | Player_col => text_leb (col_Player a) (col_Player b)
  | Event_col => text_leb (col_Event a) (col_Event b)
  | Details_col => text_leb (col_Details a) (col_Details b)
  | Level_col => level_leb (col_Level a) (col_Level b)
  | Event_Type_col => text_leb (col_Event_Type a) (col_Event_Type b)
  end.

(** [isna] of the key of a row. *)
Definition key_isna (c : column) (r : row) : bool :=
  match c with
  | Timestamp_col => match col_Timestamp r with ts_NaT => true | _ => false end
  | Level_col => match col_Level r with level_nan => true | _ => false end
  | _ => false
  end.

Definition total_on (le : row -> row -> bool) : Prop :=
  forall a b, le a b = true \/ le b a = true.

Definition transitive_on (le : row -> row -> bool) : Prop :=
  forall a b c, le a b = true -> le b c = true -> le a c = true.

(** The sort that [sort_values] runs with its default [kind='quicksort']:
    numpy's, which orders the rows by their keys and promises nothing
    about rows with equal keys.  Its algorithm is not part of the
    program; what the program relies on is that it sorts. *)
Record sorter : Type := mk_sorter {
  sort_rows : (row -> row -> bool) -> list row -> list row;
  sort_rows_perm : forall le rows, Permutation rows (sort_rows le rows);
  sort_rows_sorted : forall le rows,
      total_on le -> transitive_on le ->
      StronglySorted (fun a b => le a b = true) (sort_rows le rows) }.

(** What the user typed or chose in the filter widgets. *)
Record criteria : Type := mk_criteria {
  player_entry : text;
  event_type_combo : text;
  start_date_entry : text;
  end_date_entry : text;
  sort_by_combo : text;
  find_entry : text }.

(** The text area: untouched since start-up, the "no records" notice, or
    the table of the rows last displayed. *)
Inductive display : Type :=
| nothing_displayed
| no_records_found
| table (rows : list row).

(** The state of the application that the operations read and write.
    [df] and [filtered_df] hold the rows of the two frames.  A frame
    with rows has the six columns of [clean_data]; the view can be left
    without rows, and [filtered_df_columns] tells whether it then still
    has its columns.  The [pd.DataFrame()] of [__init__] has none. *)
Record GuildLogAnalyzerApp : Type := mk_app {
  df : list row;
  filtered_df : list row;
  filtered_df_columns : bool;
  text_area : display }.

(** [self.filtered_df = ...], a frame of the six columns with these
    rows. *)
Definition set_filtered_df (st : GuildLogAnalyzerApp) (rows : list row) : GuildLogAnalyzerApp :=
  {| df := df st; filtered_df := rows; filtered_df_columns := true;
     text_area := text_area st |}.

(** [self.filtered_df = ...], a frame without columns nor rows. *)
Definition without_columns (st : GuildLogAnalyzerApp) : GuildLogAnalyzerApp :=
  {| df := df st; filtered_df := []; filtered_df_columns := false;
     text_area := text_area st |}.

(** How a call ends: normally, with a message box, or with an exception
    that leaves the method. *)
Inductive outcome : Type :=
| done
| showwarning (message : text)
| showerror (message : text)
| re_error_raised
| type_error_raised
| not_modelled.

(** A step of a method: go on in a new state, or stop there. *)
Inductive step : Type :=
| continue (st : GuildLogAnalyzerApp)
| stop (st : GuildLogAnalyzerApp) (o : outcome).

Definition and_then (s : step) (f : GuildLogAnalyzerApp -> step) : step :=
  match s with
  | continue st => f st
  | stop st o => stop st o
  end.

Notation "s >>= f" := (and_then s f) (at level 50, left associativity).

(** [frame = frame[frame[col].str.contains(pat, case=False, na=False)]];
    the frame is left as it was when the call raises.  The blocks that
    filter a column run on the copy of the loaded frame and on what the
    blocks before them have made of it, which has its columns. *)
Definition filter_by_contains (pat : text) (col : row -> text) (st : GuildLogAnalyzerApp) : step :=
  match str_contains pat (map col (filtered_df st)) with
  | returned mask => continue (set_filtered_df st (select (filtered_df st) mask))
  | raises_re_error => stop st re_error_raised
  | outside_model => stop st not_modelled
  end.

(** [display_data(df)] *)
Definition display_data (rows : list row) (st : GuildLogAnalyzerApp) : GuildLogAnalyzerApp :=
  {| df := df st; filtered_df := filtered_df st;
     filtered_df_columns := filtered_df_columns st;
     text_area := match rows with [] => no_records_found | _ => table rows end |}.

Section Filters.

(** [pd.to_datetime] on what the user typed as a date bound; [None]
    stands for the ValueError it raises.  The formats pandas accepts are
    not part of the program. *)
Variable to_datetime : text -> option bound.

Variable srt : sorter.

(** [frame.sort_values(by=c)]: the rows with a key sorted, then those
    without, in their order. *)
Definition sort_values (c : column) (rows : list row) : list row :=
  sort_rows srt (key_leb c) (filter (fun r => negb (key_isna c r)) rows)
  ++ filter (key_isna c) rows.

(** The block [# Filter by player name]. *)
Definition by_player (crit : criteria) (st : GuildLogAnalyzerApp) : step :=
  let player_name := strip (player_entry crit) in
  match player_name with
  | [] => continue st
  | _ => filter_by_contains player_name col_Player st
  end.

(** The block [# Filter by event type]. *)
Definition by_event_type (crit : criteria) (st : GuildLogAnalyzerApp) : step :=
  let event_type := strip (event_type_combo crit) in
  match event_type with
  | [] => continue st
  | _ => filter_by_contains event_type col_Event_Type st
  end.

Definition incorrect_date_format : text :=
  T "Incorrect date format. Please use YYYY-MM-DD.".

(** The block [# Filter by date range].  A ValueError of one of the
    three conversions leaves the view as it was.  Once they are through
    the converted column is assigned; the comparison with a bound that
    has a zone then raises a TypeError, which the [try] does not catch
    and which leaves the view converted and not filtered. *)
Definition by_date_range (crit : criteria) (st : GuildLogAnalyzerApp) : step :=
  let start_date_str := strip (start_date_entry crit) in
  let end_date_str := strip (end_date_entry crit) in
  match start_date_str, end_date_str with
  | _ :: _, _ :: _ =>
      match to_datetime start_date_str with
      | None => stop st (showerror incorrect_date_format)
      | Some start_date =>
          match to_datetime end_date_str with
          | None => stop st (showerror incorrect_date_format)
          | Some end_date =>
              match to_datetime_column (map col_Timestamp (filtered_df st)) with
              | None => stop st (showerror incorrect_date_format)
              | Some cells =>
                  let converted := map (fun rc : row * ts_cell =>
                                          set_Timestamp (fst rc) (snd rc))
                                       (combine (filtered_df st) cells) in
                  if is_aware start_date || is_aware end_date
                  then stop (set_filtered_df st converted) type_error_raised
                  else continue (set_filtered_df st
                         (filter (fun r => in_bounds start_date end_date
                                                     (col_Timestamp r))
                                 converted))
              end
          end
      end
  | _, _ => continue st
  end.

(** The block [# Filter by find string]: the mask of the free-text
    search selects the rows.  On a view without rows [DataFrame.apply]
    runs the search on no row but once on a probe of its own.  When
    that call raises, the exception is swallowed and the view is kept.
    When it returns, [apply] hands over an empty Series of floats, with
    which [filtered_df[mask]] selects columns, none of them: the view is
    left without columns. *)
Definition by_find_string (crit : criteria) (st : GuildLogAnalyzerApp) : step :=
  let find_string := strip (find_entry crit) in
  match find_string with
  | [] => continue st
  | _ :: _ =>
      match re_compile_ignorecase find_string, filtered_df st with
      | re_ok _, [] => continue (without_columns st)
      | re_ok r, rows =>
          match search_mask r rows with
          | Some mask => continue (set_filtered_df st (select rows mask))
          | None => stop st not_modelled
          end
      | re_error, [] => continue st
      | re_error, _ :: _ => stop st re_error_raised
      | re_unmodelled, _ => stop st not_modelled
      end
  end.

Definition cannot_sort_by (sort_by : text) : text :=
  T "Cannot sort by " ++ sort_by ++ T ". Column does not exist.".

(** [sort_by in self.filtered_df.columns] *)
Definition column_of_view (st : GuildLogAnalyzerApp) (sort_by : text) : option column :=
  if filtered_df_columns st then column_of_name sort_by else None.

(** The keys of the column are in the model: for [Level], every cell of
    the view is. *)
Definition sortable (c : column) (rows : list row) : bool :=
  match c with
  | Level_col => forallb (fun r => level_known (col_Level r)) rows
  | _ => true
  end.

(** The block [# Apply sorting]. *)
Definition by_sorting (crit : criteria) (st : GuildLogAnalyzerApp) : step :=
  let sort_by := strip (sort_by_combo crit) in
  match sort_by with
  | [] => continue st
  | _ :: _ =>
      match column_of_view st sort_by with
      | Some c =>
          if sortable c (filtered_df st)
          then continue (set_filtered_df st (sort_values c (filtered_df st)))
          else stop st not_modelled
      | None => stop st (showerror (cannot_sort_by sort_by))
      end
  end.

Definition no_data_to_filter : text :=
  T "No data to filter. Please load a log file first.".

(** [apply_filters(self)], reading the widgets as [crit]. *)
Definition apply_filters (crit : criteria) (st : GuildLogAnalyzerApp) : GuildLogAnalyzerApp * outcome :=
  match df st with
  | [] => (st, showwarning no_data_to_filter)
  | _ :: _ =>
      match continue (set_filtered_df st (df st))
            >>= by_player crit
            >>= by_event_type crit
            >>= by_date_range crit
            >>= by_find_string crit
            >>= by_sorting crit with
      | continue st' => (display_data (filtered_df st') st', done)
      | stop st' o => (st', o)
      end
  end.

End Filters.

(** [load_file(self)] once a file is chosen and read: the frame is
    replaced by what [parse_log] returns and, unless that is empty,
    enriched and filtered.  The method catches whatever the filtering
    raises. *)
Definition failed_to_parse : text := T "Failed to parse the log file.".

Definition failed_to_load : text := T "Failed to load the file".

(** [self.df = ...] *)
Definition set_df (st : GuildLogAnalyzerApp) (rows : list row) : GuildLogAnalyzerApp :=
  {| df := rows; filtered_df := filtered_df st;
     filtered_df_columns := filtered_df_columns st;
     text_area := text_area st |}.

Definition load_file (utcoffset : datetime -> Z)
    (to_datetime : text -> option bound) (srt : sorter)
    (crit : criteria) (file_content : text) (st : GuildLogAnalyzerApp)
  : GuildLogAnalyzerApp * outcome :=
  match fst (parse_log utcoffset file_content) with
  | [] => (set_df st [], showerror failed_to_parse)
  | parsed =>
      match apply_filters to_datetime srt crit (set_df st (clean_data parsed)) with
      | (st', re_error_raised) => (st', showerror failed_to_load)
      | (st', type_error_raised) => (st', showerror failed_to_load)
      | result => result
      end
  end.

(** The application as [__init__] leaves it. *)
Definition started : GuildLogAnalyzerApp :=
  {| df := []; filtered_df := []; filtered_df_columns := false;
     text_area := nothing_displayed |}.

Definition no_criteria : criteria :=
  {| player_entry := []; event_type_combo := []; start_date_entry := [];
     end_date_entry := []; sort_by_combo := []; find_entry := [] |}.

(** [to_csv] on the filtered view: the cells handed to the csv writer,
    row by row.  A datetime column is written without the time of day
    when every value is at midnight; a missing value is written empty.
    The cell of a level outside the model is [None]. *)
Definition at_midnight (c : ts_cell) : bool :=
  match c with
  | ts_time t => ((hour t =? 0) && (minute t =? 0) && (second t =? 0))%Z
  | _ => true
  end.

Definition csv_timestamp (dates_only : bool) (c : ts_cell) : text :=
  match c with
  | ts_str s => s
  | ts_time t => if dates_only then firstn 10 (isoformat_space t)
                 else isoformat_space t
  | ts_NaT => []
  end.

Definition csv_level (l : level_cell) : option text :=
  match level_text l with
  | str_of s => Some s
  | str_missing _ => Some []
  | str_outside => None
  end.

Definition csv_header : list text :=
  map T ["Timestamp"; "Player"; "Event"; "Details"; "Level"; "Event Type"]%string.

Definition to_csv (rows : list row) : list (list (option text)) :=
  let dates_only := forallb (fun r => at_midnight (col_Timestamp r)) rows in
  map Some csv_header ::
  map (fun r => [ Some (csv_timestamp dates_only (col_Timestamp r));
                  Some (col_Player r); Some (col_Event r); Some (col_Details r);
                  csv_level (col_Level r); Some (col_Event_Type r) ]) rows.

Definition no_data_to_export : text :=
  T "No data to export. Please load a log file and apply filters.".

(** [export_to_csv(self)] once a destination is chosen: what is written,
    or the warning. *)
Definition export_to_csv (st : GuildLogAnalyzerApp)
  : list (list (option text)) + outcome :=
  match filtered_df st with
  | [] => inr (showwarning no_data_to_export)
  | rows => inl (to_csv rows)
  end.

(** * Vocabulary of the statements *)

(** A line fits the grammar when [LOG_PATTERN] matches it once trimmed,
    which is how [parse_log] tests it. *)
Definition line_matches (line : text) : bool :=
  is_some (re_match LOG_PATTERN (strip line)).

Definition is_line_skipped (m : log_message) : bool :=
  match m with line_skipped _ => true | _ => false end.

(** The classifier as the specification words it: rules tried top-down,
    the first whose test holds gives the label. *)
Definition priority_rules : list ((text -> bool) * text) :=
  [ (fun e => contains (T "has died at level") e || contains (T "has died") e
              || (contains (T "has Left the guild") e && contains (T "[D]") e),
     Death);
    (fun e => contains (T "Leveled to") e, Level_Up);
    (fun e => contains (T "JOINED the guild") e
              || contains (T "has JOINED the guild") e, Join);
    (fun e => contains (T "Left the guild") e
              || contains (T "is no longer in the Guild") e, Leave);
    (fun e => contains (T "PROMOTED") e, Promotion);
    (fun e => contains (T "DEMOTED") e, Demotion);
    (fun e => contains (T "Come ONLINE after being INACTIVE") e, Online) ].

Fixpoint first_match (rules : list ((text -> bool) * text)) (e : text) : text :=
  match rules with
  | [] => Other
  | (test, label) :: rules' => if test e then label else first_match rules' e
  end.

(** The parts of a line in the documented input format
<<
  <N>) <D MMM 'YY h:mmAM/PM> : <player name> <lead-word ...event text>
>>
    with the white space between them. *)
Record line_parts : Type := mk_line_parts {
  ordinal : text;
  gap_after_ordinal : text;
  day_digits : text;
  month_abbr : text;
  year_digits : text;
  hour_digits : text;
  minute_digits : text;
  ampm_letter : ascii;
  gap_before_colon : text;
  gap_after_colon : text;
  player_name : text;
  gap_after_player : text;
  lead_word : text;
  lead_gap : ascii;
  event_text : text }.

Definition before_event (p : line_parts) : text :=
  ordinal p ++ T ")" ++ gap_after_ordinal p
  ++ day_digits p ++ T " " ++ month_abbr p ++ T " " ++ T "'" ++ year_digits p
  ++ T " " ++ hour_digits p ++ T ":" ++ minute_digits p
  ++ [ampm_letter p] ++ T "m"
  ++ gap_before_colon p ++ T ":" ++ gap_after_colon p
  ++ player_name p ++ gap_after_player p
  ++ lead_word p ++ [lead_gap p].

Definition assemble (p : line_parts) : text := before_event p ++ event_text p.

Definition nonempty (s : text) : bool :=
  match s with [] => false | _ :: _ => true end.

Definition all_of (p : ascii -> bool) (s : text) : bool := forallb p s.

Definition some_of (p : ascii -> bool) (s : text) : bool :=
  nonempty s && all_of p s.

Definition ends_unspaced (s : text) : bool :=
  match rev s with c :: _ => negb (isspace c) | [] => false end.

Definition has_unspaced (s : text) : bool :=
  existsb (fun c => negb (isspace c)) s.

(** What the parts have in common under either reading of the format:
    everything but the number of hour digits.  The event text is any
    text of the line that is not all white space. *)
Definition parts_in_format (p : line_parts) : bool :=
  some_of isdigit (ordinal p)
  && some_of isspace (gap_after_ordinal p)
  && some_of isdigit (day_digits p) && (List.length (day_digits p) <=? 2)
  && all_of isword (month_abbr p) && (List.length (month_abbr p) =? 3)
  && all_of isdigit (year_digits p) && (List.length (year_digits p) =? 2)
  && all_of isdigit (hour_digits p)
  && all_of isdigit (minute_digits p) && (List.length (minute_digits p) =? 2)
  && is_a_or_p (ampm_letter p)
  && some_of isspace (gap_before_colon p)
  && some_of isspace (gap_after_colon p)
  && some_of isany (player_name p)
  && some_of isspace (gap_after_player p)
  && existsb (text_eqb (lead_word p)) lead_words
  && isspace (lead_gap p)
  && has_unspaced (event_text p)
  && all_of (fun c => negb (islinebreak c)) (assemble p).

(** The same parts with the event text as [strip] leaves it. *)
Definition trim_event (p : line_parts) : line_parts :=
  {| ordinal := ordinal p;
     gap_after_ordinal := gap_after_ordinal p;
     day_digits := day_digits p;
     month_abbr := month_abbr p;
     year_digits := year_digits p;
     hour_digits := hour_digits p;
     minute_digits := minute_digits p;
     ampm_letter := ampm_letter p;
     gap_before_colon := gap_before_colon p;
     gap_after_colon := gap_after_colon p;
     player_name := player_name p;
     gap_after_player := gap_after_player p;
     lead_word := lead_word p;
     lead_gap := lead_gap p;
     event_text := rstrip (event_text p) |}.

(** The format as the claim reads it: one or two hour digits. *)
Definition claimed_format (p : line_parts) : bool :=
  parts_in_format p
  && (1 <=? List.length (hour_digits p)) && (List.length (hour_digits p) <=? 2).

(** The format the pattern accepts: two hour digits. *)
Definition accepted_format (p : line_parts) : bool :=
  parts_in_format p && (List.length (hour_digits p) =? 2).

(** The example line of the specification, by parts, and the same line
    with its hour written with one digit. *)
Definition example_parts : line_parts :=
  {| ordinal := T "12"; gap_after_ordinal := T " ";
     day_digits := T "3"; month_abbr := T "Jan"; year_digits := T "24";
     hour_digits := T "09"; minute_digits := T "15"; ampm_letter := "p";
     gap_before_colon := T " "; gap_after_colon := T " ";
     player_name := T "Aria Nightshade"; gap_after_player := T " ";
     lead_word := T "has"; lead_gap := " ";
     event_text := T "died at level 42; slain by Dragon" |}.

Definition example_parts_with_trailing_blanks : line_parts :=
  {| ordinal := T "12"; gap_after_ordinal := T " ";
     day_digits := T "3"; month_abbr := T "Jan"; year_digits := T "24";
     hour_digits := T "09"; minute_digits := T "15"; ampm_letter := "p";
     gap_before_colon := T " "; gap_after_colon := T " ";
     player_name := T "Aria Nightshade"; gap_after_player := T " ";
     lead_word := T "has"; lead_gap := " ";
     event_text := T "died at level 42; slain by Dragon  " |}.

Definition one_digit_hour_parts : line_parts :=
  {| ordinal := T "12"; gap_after_ordinal := T " ";
     day_digits := T "3"; month_abbr := T "Jan"; year_digits := T "24";
     hour_digits := T "9"; minute_digits := T "15"; ampm_letter := "p";
     gap_before_colon := T " "; gap_after_colon := T " ";
     player_name := T "Aria Nightshade"; gap_after_player := T " ";
     lead_word := T "has"; lead_gap := " ";
     event_text := T "died at level 42; slain by Dragon" |}.

(** The level marker, read without the matcher: the longest run of
    digits after the first ["LVL: "] that a digit follows. *)
Fixpoint span (p : ascii -> bool) (s : text) : text * text :=
  match s with
  | c :: s' => if p c then let (a, b) := span p s' in (c :: a, b) else ([], s)
  | [] => ([], [])
  end.

Definition marker_here (s : text) : option text :=
  if starts_with (T "LVL: ") s then
    match skipn 5 s with
    | c :: _ => if isdigit c then Some (fst (span isdigit (skipn 5 s))) else None
    | [] => None
    end
  else None.

Fixpoint first_marker (s : text) : option text :=
  match marker_here s with
  | Some digits => Some digits
  | None => match s with [] => None | _ :: s' => first_marker s' end
  end.

(** No ["LVL: <digit>"] anywhere in [s]. *)
Definition no_marker (s : text) : Prop :=
  forall pre d post, s = pre ++ T "LVL: " ++ d :: post -> isdigit d = false.

(** What the level of a row is to its event type: none without a marker,
    else the number written by the digits of the first marker. *)
Definition level_marker_spec (event_type : text) (level : option Z) : Prop :=
  match level with
  | None => no_marker event_type
  | Some n =>
      exists pre digits post,
        event_type = pre ++ T "LVL: " ++ digits ++ post
        /\ some_of isdigit digits = true
        /\ match post with c :: _ => isdigit c = false | [] => True end
        /\ no_marker (pre ++ T "LVL: ")
        /\ (List.length digits <= 15 -> n = int_of_digits digits)
  end.

(** ** Instances to run the filter engine on examples *)

(** A sort that meets [sorter]: insertion sort. *)
Fixpoint place (le : row -> row -> bool) (r : row) (sorted : list row) : list row :=
  match sorted with
  | [] => [r]
  | x :: rest => if le r x then r :: sorted else x :: place le r rest
  end.

Fixpoint insertion_sort (le : row -> row -> bool) (rows : list row) : list row :=
  match rows with
  | [] => []
  | r :: rest => place le r (insertion_sort le rest)
  end.

Definition insertion_sorter : sorter.
Proof.
  assert (Hplace : forall le r rows, Permutation (r :: rows) (place le r rows)).
  { intros le r rows. induction rows as [|x rest IH]; simpl; [reflexivity|].
    destruct (le r x); [reflexivity|].
    rewrite perm_swap. now apply perm_skip. }
  assert (Hperm : forall le rows, Permutation rows (insertion_sort le rows)).
  { intros le rows. induction rows as [|r rest IH]; simpl; [constructor|].
    rewrite <- Hplace. now apply perm_skip. }
  refine {| sort_rows := insertion_sort; sort_rows_perm := Hperm;
            sort_rows_sorted := _ |}.
  intros le rows Htot Htr. induction rows as [|r rest IH]; simpl; [constructor|].
  induction IH as [|x sorted Hs IH' Hx]; simpl.
  - repeat constructor.
  - destruct (le r x) eqn:E.
    + constructor; [constructor; assumption|].
      constructor; [exact E|].
      eapply Forall_impl; [|exact Hx]. intros b Hb. eapply Htr; eassumption.
    + constructor; [exact IH'|].
      eapply Permutation_Forall; [apply Hplace|].
      constructor; [|exact Hx].
      destruct (Htot r x) as [H|H]; [congruence | exact H].
Defined.

(** A date parser for the bounds that reads [YYYY-MM-DD], the form the
    window asks for, as pandas does: midnight of that day.  Anything else
    it rejects, "abc" for one, which pandas rejects too. *)
Definition ISO_DATE : regex :=
  seqs [ Grp "Y" (times 4 (Cls isdigit)); chr "-";
         Grp "m" (times 2 (Cls isdigit)); chr "-";
         Grp "d" (times 2 (Cls isdigit)) ].

Local Open Scope Z_scope.

Definition to_datetime_iso (s : text) : option bound :=
  match re_match_end ISO_DATE s with
  | None => None
  | Some (upto, found) =>
      let y := int_of_digits (grp "Y" found) in
      let m := int_of_digits (grp "m" found) in
      let d := int_of_digits (grp "d" found) in
      if Nat.eqb upto (List.length s)
         && (1 <=? m) && (m <=? 12) && (1 <=? d) && (d <=? days_in_month y m)
      then Some (naive (mk_datetime y m d 0 0 0))
      else None
  end.

Local Close Scope Z_scope.

(** ** Vocabulary of the statements on the filter engine *)

Definition blank (s : text) : bool :=
  match strip s with [] => true | _ :: _ => false end.

(** The characters [re] reads as themselves. *)
Definition plain_char (c : ascii) : bool :=
  negb (existsb (Ascii.eqb c) (T "\.^$*+?()|[{")).

(** The criterion occurs in the text, letter case apart. *)
Definition contains_ignoring_case (criterion s : text) : bool :=
  contains (lower_text criterion) (lower_text s).

(** The criteria with one widget changed. *)
Definition only_player (name : text) : criteria :=
  {| player_entry := name; event_type_combo := []; start_date_entry := [];
     end_date_entry := []; sort_by_combo := []; find_entry := [] |}.

Definition without_sorting (crit : criteria) : criteria :=
  {| player_entry := player_entry crit;
     event_type_combo := event_type_combo crit;
     start_date_entry := start_date_entry crit;
     end_date_entry := end_date_entry crit;
     sort_by_combo := [];
     find_entry := find_entry crit |}.

Definition date_filter_active (crit : criteria) : bool :=
  negb (blank (start_date_entry crit)) && negb (blank (end_date_entry crit)).


Definition has_timestamp (r : row) : bool :=
  match col_Timestamp r with
  | ts_str [] | ts_NaT => false
  | _ => true
  end.

(** Some record without a timestamp comes before one with a timestamp. *)
Fixpoint null_timestamp_before_value (rows : list row) : bool :=
  match rows with
  | [] => false
  | r :: rest =>
      (negb (has_timestamp r) && existsb has_timestamp rest)
      || null_timestamp_before_value rest
  end.

(** The application once a log of three lines is loaded and displayed
    unfiltered.  The second line names the 31st of February and so has no
    timestamp. *)
Definition three_lines : text :=
  T "1) 3 Jan '24 09:15pm : Alice has JOINED the guild LVL: 7" ++ [newline]
  ++ T "2) 31 Feb '24 10:00am : Bob has died at level 12" ++ [newline]
  ++ T "3) 5 Jan '24 11:30am : Bobby is no longer in the Guild".

Definition loaded_rows : list row :=
  clean_data (fst (parse_log est_offset three_lines)).

(** Its three rows. *)
Definition alice_row : row :=
  {| col_Timestamp := ts_str (T "2024-01-03 04:15:00 PM");
     col_Player := T "Alice";
     col_Event := T "has JOINED the guild LVL: 7";
     col_Details := [];
     col_Level := level_float 7;
     col_Event_Type := Join |}.

Definition bob_row : row :=
  {| col_Timestamp := ts_str [];
     col_Player := T "Bob";
     col_Event := T "has died at level 12";
     col_Details := [];
     col_Level := level_nan;
     col_Event_Type := Death |}.

Definition bobby_row : row :=
  {| col_Timestamp := ts_str (T "2024-01-05 06:30:00 AM");
     col_Player := T "Bobby";
     col_Event := T "is no longer in the Guild";
     col_Details := [];
     col_Level := level_nan;
     col_Event_Type := Leave |}.

Definition loaded : GuildLogAnalyzerApp :=
  {| df := loaded_rows; filtered_df := loaded_rows; filtered_df_columns := true;
     text_area := table loaded_rows |}.

(** The criteria of the examples. *)
Definition bob_with_bad_start_date : criteria :=
  {| player_entry := T "bob"; event_type_combo := [];
     start_date_entry := T "abc"; end_date_entry := T "2024-01-10";
     sort_by_combo := []; find_entry := [] |}.

Definition sorted_by_timestamp : criteria :=
  {| player_entry := []; event_type_combo := []; start_date_entry := [];
     end_date_entry := []; sort_by_combo := T "Timestamp"; find_entry := [] |}.

Definition first_ten_days_of_january : criteria :=
  {| player_entry := []; event_type_combo := [];
     start_date_entry := T "2024-01-01"; end_date_entry := T "2024-01-10";
     sort_by_combo := []; find_entry := [] |}.

(** The stages of [apply_filters] before the sort, in a row. *)
Definition filtering (to_datetime : text -> option bound) (crit : criteria)
    (st : GuildLogAnalyzerApp) : step :=
  continue st >>= by_player crit >>= by_event_type crit
  >>= by_date_range to_datetime crit >>= by_find_string crit.

Definition is_time (r : row) : Prop := exists t, col_Timestamp r = ts_time t.

Definition sorted_by_level : criteria :=
  {| player_entry := []; event_type_combo := []; start_date_entry := [];
     end_date_entry := []; sort_by_combo := T "Level"; find_entry := [] |}.

(** A log of three lines of which two have a level, and the
    application once it is loaded. *)
Definition three_levels : text :=
  T "1) 3 Jan '24 09:15pm : Alice has JOINED the guild LVL: 12" ++ [newline]
  ++ T "2) 4 Jan '24 10:00am : Bob has died at level 12" ++ [newline]
  ++ T "3) 5 Jan '24 11:30am : Carol has JOINED the guild LVL: 7".

Definition ranked_rows : list row :=
  clean_data (fst (parse_log est_offset three_levels)).

Definition ranked : GuildLogAnalyzerApp :=
  {| df := ranked_rows; filtered_df := ranked_rows; filtered_df_columns := true;
     text_area := table ranked_rows |}.

(** A step that did not stop with the normal outcome. *)
Definition not_done (s : step) : Prop :=
  match s with stop _ done => False | _ => True end.

(** The later state has the same frame and a filtered view drawn from
    the earlier one. *)
Definition narrows (before after : GuildLogAnalyzerApp) : Prop :=
  df after = df before /\ incl (filtered_df after) (filtered_df before).

(** Every time of the view is at midnight, in which case [to_csv]
    writes the dates alone. *)
Definition dates_only (view : list row) : bool :=
  forallb (fun r => at_midnight (col_Timestamp r)) view.



(** * The application as a whole: vocabulary *)

(** The state a step is in when it ends, whichever way it ends. *)
Definition step_state (s : step) : GuildLogAnalyzerApp :=
  match s with
  | continue st => st
  | stop st _ => st
  end.

(** The same filtered view under another frame and another text area. *)
Definition set_frame (st : GuildLogAnalyzerApp) (frame : list row) (area : display)
  : GuildLogAnalyzerApp :=
  {| df := frame; filtered_df := filtered_df st;
     filtered_df_columns := filtered_df_columns st; text_area := area |}.

Definition step_set_frame (s : step) (frame : list row) (area : display) : step :=
  match s with
  | continue st => continue (set_frame st frame area)
  | stop st o => stop (set_frame st frame area) o
  end.

(** The frame and the text area are those of the earlier state. *)
Definition same_frame (before after : GuildLogAnalyzerApp) : Prop :=
  df after = df before /\ text_area after = text_area before.

(** What [display_data] puts in the text area for a view. *)
Definition shown (rows : list row) : display :=
  match rows with
  | [] => no_records_found
  | _ :: _ => table rows
  end.

(** The criteria with the two date boxes emptied. *)
Definition without_dates (crit : criteria) : criteria :=
  {| player_entry := player_entry crit;
     event_type_combo := event_type_combo crit;
     start_date_entry := [];
     end_date_entry := [];
     sort_by_combo := sort_by_combo crit;
     find_entry := find_entry crit |}.

(** The criteria of the blocks that come before the search: the find
    box and the sort box emptied. *)
Definition before_search (crit : criteria) : criteria :=
  {| player_entry := player_entry crit;
     event_type_combo := event_type_combo crit;
     start_date_entry := start_date_entry crit;
     end_date_entry := end_date_entry crit;
     sort_by_combo := [];
     find_entry := [] |}.

(** The find box is filled with a pattern that [re] compiles. *)
Definition valid_find (crit : criteria) : bool :=
  match strip (find_entry crit) with
  | [] => false
  | find_string =>
      match re_compile_ignorecase find_string with
      | re_ok _ => true
      | _ => false
      end
  end.

(** The criteria as the stages read them: every box trimmed. *)
Definition trimmed (crit : criteria) : criteria :=
  {| player_entry := strip (player_entry crit);
     event_type_combo := strip (event_type_combo crit);
     start_date_entry := strip (start_date_entry crit);
     end_date_entry := strip (end_date_entry crit);
     sort_by_combo := strip (sort_by_combo crit);
     find_entry := strip (find_entry crit) |}.

(** The stages of [apply_filters] after the copy of the frame. *)
Definition stages (to_datetime : text -> option bound) (srt : sorter)
    (crit : criteria) (st : GuildLogAnalyzerApp) : step :=
  filtering to_datetime crit st >>= by_sorting srt crit.

(** Examples: a view that was never computed on the loaded frame, a sort
    key that is no column, and a start date without an end date. *)
Definition loaded_not_displayed : GuildLogAnalyzerApp :=
  {| df := loaded_rows; filtered_df := []; filtered_df_columns := false;
     text_area := nothing_displayed |}.

Definition bob_sorted_by_rank : criteria :=
  {| player_entry := T "bob"; event_type_combo := []; start_date_entry := [];
     end_date_entry := []; sort_by_combo := T "Rank"; find_entry := [] |}.

Definition bob_with_start_date_only : criteria :=
  {| player_entry := T "bob"; event_type_combo := [];
     start_date_entry := T "abc"; end_date_entry := T "  ";
     sort_by_combo := []; find_entry := [] |}.

(** A filter box holds of some cells when it is blank or its content,
    trimmed, occurs in one of them, letter case apart. *)
Definition criterion_holds (box : text) (cells : list text) : bool :=
  blank box || existsb (contains_ignoring_case (strip box)) cells.

(** The texts of the cells of a row that hold a value. *)
Definition written (c : cell_str) : list text :=
  match c with
  | str_of s => [s]
  | _ => []
  end.

Definition row_texts (r : row) : list text := flat_map written (row_strings r).

(** The three text boxes hold of a row: the player box of its player,
    the event type box of its event type, the find box of any cell that
    holds a value. *)
Definition text_criteria_hold (crit : criteria) (r : row) : bool :=
  criterion_holds (player_entry crit) [col_Player r]
  && criterion_holds (event_type_combo crit) [col_Event_Type r]
  && criterion_holds (find_entry crit) (row_texts r).

(** The search for the content of a box has the same answer in a cell
    under every release of pandas: the cell holds a value, or it holds
    none and the content does not occur in [nan] or [NaT] either. *)
Definition cell_settled (box : text) (c : cell_str) : bool :=
  match c with
  | str_of _ => true
  | str_missing s => negb (contains_ignoring_case (strip box) s)
  | str_outside => false
  end.

Definition search_settled (box : text) (rows : list row) : bool :=
  blank box
  || forallb (fun r => forallb (cell_settled box) (row_strings r)) rows.

Definition only_nan : criteria :=
  {| player_entry := []; event_type_combo := []; start_date_entry := [];
     end_date_entry := []; sort_by_combo := []; find_entry := T "nan" |}.

(** The content of a box has no character that [re] reads specially. *)
Definition plain (box : text) : bool := all_of plain_char (strip box).

(** The values the two read-only comboboxes of [create_widgets] offer;
    the first is the empty choice. *)
Definition event_type_values : list text :=
  [] :: map T ["Level Up"; "Join"; "Leave"; "Promotion"; "Demotion"; "Online";
               "Death"; "Other"]%string.

Definition sort_by_values : list text :=
  [] :: map T ["Timestamp"; "Player"; "Event Type"; "Level"]%string.

Definition only_event_type (label : text) : criteria :=
  {| player_entry := []; event_type_combo := label; start_date_entry := [];
     end_date_entry := []; sort_by_combo := []; find_entry := [] |}.

(** Nobody is called "zzz": the player box empties the view, in which
    the find box then searches, before the sort by a column. *)
Definition nobody_found_sorted_by_player : criteria :=
  {| player_entry := T "zzz"; event_type_combo := []; start_date_entry := [];
     end_date_entry := []; sort_by_combo := T "Player"; find_entry := T "a" |}.

(** A row of the view against the row of the frame it comes from: the
    row itself, or the row with its Timestamp cell as [pd.to_datetime]
    converts it. *)
Definition converted (original r : row) : Prop :=
  r = original
  \/ exists c, to_datetime_cell (col_Timestamp original) = Some c
               /\ r = set_Timestamp original c.

(** The later view is a selection of the rows of the earlier one, in
    their order, each as it was or converted. *)
Definition selected_from (before after : GuildLogAnalyzerApp) : Prop :=
  exists mask,
    Forall2 converted (select (filtered_df before) mask) (filtered_df after).

(** Examples of criteria. *)
Definition alice_joining : criteria :=
  {| player_entry := T "ali"; event_type_combo := T "Join"; start_date_entry := [];
     end_date_entry := []; sort_by_combo := []; find_entry := T "lvl: 7" |}.

Definition bob_sorted_by_event_type : criteria :=
  {| player_entry := T "bob"; event_type_combo := []; start_date_entry := [];
     end_date_entry := []; sort_by_combo := T "Event Type"; find_entry := [] |}.

(** A frame of two records, enriched but not yet filtered. *)
Definition two_entries : list entry :=
  [ {| Timestamp := T "2024-01-03 04:15:00 PM"; Player := T "Alice";
       Event := T "has JOINED the guild LVL: 7"; Details := [] |};
    {| Timestamp := []; Player := T "Bob";
       Event := T "has died at level 12"; Details := [] |} ].

Definition two_loaded : GuildLogAnalyzerApp :=
  {| df := clean_data two_entries; filtered_df := []; filtered_df_columns := false;
     text_area := nothing_displayed |}.

(** ** The date filter, row by row *)

(** The Timestamp cell of a row can be converted. *)
Definition readable (r : row) : bool := is_some (to_datetime_cell (col_Timestamp r)).

(** The row as the date filter leaves it: its Timestamp cell converted. *)
Definition convert_row (r : row) : row :=
  match to_datetime_cell (col_Timestamp r) with
  | Some c => set_Timestamp r c
  | None => r
  end.

(** The time a row holds lies between the bounds, the bounds included;
    a row that holds no time is not within any bounds. *)
Definition within (start_date end_date : datetime) (r : row) : bool :=
  in_date_range start_date end_date (col_Timestamp (convert_row r)).

Definition only_dates (start_date end_date : text) : criteria :=
  {| player_entry := []; event_type_combo := [];
     start_date_entry := start_date; end_date_entry := end_date;
     sort_by_combo := []; find_entry := [] |}.

Definition third_of_january : datetime := mk_datetime 2024 1 3 0 0 0.
Definition fourth_of_january : datetime := mk_datetime 2024 1 4 0 0 0.

(** ** Loading *)

(** A message of the program is one of those [apply_filters] can end
    with. *)
Definition ends_apply_filters (o : outcome) : Prop :=
  o = done \/ o = showwarning no_data_to_filter
  \/ o = showerror incorrect_date_format
  \/ (exists key, o = showerror (cannot_sort_by key))
  \/ o = re_error_raised \/ o = type_error_raised \/ o = not_modelled.

Definition stops_as_filter (s : step) : Prop :=
  match s with
  | continue _ => True
  | stop _ o => ends_apply_filters o
  end.

(** [load_from_url(self)].  [requests.get(url)] followed by
    [raise_for_status()] hands over the text of the response or raises a
    [RequestException]; the client is not part of the program.  The
    method catches that exception only, so that what the filtering
    raises leaves it. *)
Inductive response : Type :=
| response_text (file_content : text)
| request_exception (message : text).

Definition please_enter_a_url : text := T "Please enter a URL.".

Definition failed_to_parse_from_url : text :=
  T "Failed to parse the log file from URL.".

Definition failed_to_load_from_url (message : text) : text :=
  T "Failed to load from URL: " ++ message.

Definition load_from_url (utcoffset : datetime -> Z)
    (to_datetime : text -> option bound) (srt : sorter)
    (get : text -> response) (crit : criteria) (url_entry : text)
    (st : GuildLogAnalyzerApp) : GuildLogAnalyzerApp * outcome :=
  match strip url_entry with
  | [] => (st, showwarning please_enter_a_url)
  | url =>
      match get url with
      | request_exception message =>
          (st, showerror (failed_to_load_from_url message))
      | response_text file_content =>
          match fst (parse_log utcoffset file_content) with
          | [] => (set_df st [], showerror failed_to_parse_from_url)
          | parsed =>
              apply_filters to_datetime srt crit (set_df st (clean_data parsed))
          end
      end
  end.

(** A server that answers every request with the log of three lines. *)
Definition serves_three_lines : text -> response :=
  fun _ => response_text three_lines.

Definition star_player : criteria := only_player (T "*").

(** ** Enrichment *)

(** The four fields of a row that [parse_log] filled. *)
Definition entry_of_row (r : row) : option entry :=
  match col_Timestamp r with
  | ts_str s =>
      Some {| Timestamp := s; Player := col_Player r; Event := col_Event r;
              Details := col_Details r |}
  | _ => None
  end.

Definition is_level_int (l : level_cell) : bool :=
  match l with level_int _ => true | _ => false end.

(** How a level reads when written out with a fractional part. *)
Definition ends_with_point_zero (s : text) : bool :=
  match rev s with
  | zero :: point :: _ => Ascii.eqb zero "0" && Ascii.eqb point "."
  | _ => false
  end.

(** What [load_file] reports where [load_from_url] ends with [o]: its own
    message for a log without records, and a message for the exceptions
    that [load_from_url] lets through. *)
Definition as_load_file_reports (o : outcome) : outcome :=
  match o with
  | re_error_raised | type_error_raised => showerror failed_to_load
  | showerror message =>
      if text_eqb message failed_to_parse_from_url
      then showerror failed_to_parse else o
  | _ => o
  end.

(** What holds of every record that [parse_log] makes. *)
Definition trimmed_entry (e : entry) : Prop :=
  strip (Player e) = Player e
  /\ strip (Event e) = Event e
  /\ strip (Details e) = Details e
  /\ has_char ";" (Event e) = false
  /\ (Timestamp e = [] \/ List.length (Timestamp e) = 22).

(** ** Calendar *)

Local Open Scope Z_scope.

(** The fields name a day of the calendar and a time of that day. *)
Definition valid_date (y m d : Z) : bool :=
  (1 <=? m) && (m <=? 12) && (1 <=? d) && (d <=? days_in_month y m).

Definition valid_datetime (t : datetime) : bool :=
  valid_date (year t) (month t) (day t)
  && (0 <=? hour t) && (hour t <=? 23)
  && (0 <=? minute t) && (minute t <=? 59)
  && (0 <=? second t) && (second t <=? 59).

(** [civil_from_days] from the era and the day of the era on: eras are
    of 400 years, which have 146097 days. *)
Definition civil_in_era (era doe : Z) : Z * Z * Z :=
  let yoe := (doe - doe / 1460 + doe / 36524 - doe / 146096) / 365 in
  let doy := doe - (365 * yoe + yoe / 4 - yoe / 100) in
  let mp := (5 * doy + 2) / 153 in
  let d := doy - (153 * mp + 2) / 5 + 1 in
  let m := if mp <? 10 then mp + 3 else mp - 9 in
  (if m <=? 2 then yoe + era * 400 + 1 else yoe + era * 400, m, d).

Local Close Scope Z_scope.

(** The timestamp of a record can be converted by the date filter. *)
Definition readable_entry (e : entry) : bool :=
  is_some (to_datetime_cell (ts_str (Timestamp e))).

(** What holds of the timestamp of every record that [parse_log] makes:
    the date filter can convert it, and unless it is empty it is the
    display string of a time of the calendar, which is read back as that
    very time when its year has four digits. *)
Definition stored_time (e : entry) : Prop :=
  readable_entry e = true
  /\ (Timestamp e = []
      \/ exists t,
          valid_datetime t = true
          /\ Timestamp e = strftime_display t
          /\ ((0 <= year t < 10000)%Z ->
              to_datetime_cell (ts_str (Timestamp e)) = Some (ts_time t))).

(** A step that stops does so on the pattern typed in a box: [re] raised
    an error on it, or it is outside what is modelled of [re]. *)
Definition stops_on_pattern (s : step) : Prop :=
  match s with
  | continue _ => True
  | stop _ o => o = re_error_raised \/ o = not_modelled
  end.

(** ** What a match captures *)

(** The names of the groups of an expression. *)
Fixpoint group_names (r : regex) : list string :=
  match r with
  | Seq r1 r2 => group_names r1 ++ group_names r2
  | Alt r1 r2 => group_names r1 ++ group_names r2
  | Rep r1 _ _ _ => group_names r1
  | Grp name r1 => name :: group_names r1
  | _ => []
  end.

(** The captures after a match are those before it with captures of
    groups of the expression in front. *)
Definition extends (names : list string) (before after : captures) : Prop :=
  exists added,
    after = added ++ before /\ Forall (fun nv => In (fst nv) names) added.

(** What the matcher returns it owes to a match: a front part of the
    text that the expression denotes, and the rest handed over with the
    captures extended. *)
Definition sound_for (A : Type) (M : nat -> text -> text -> Prop)
    (names : list string)
    (run : nat -> text -> captures -> cont A -> option A) : Prop :=
  forall pos s caps (k : cont A) x,
    run pos s caps k = Some x ->
    exists s1 s2 caps',
      s = s1 ++ s2 /\ M pos s1 s2 /\ extends names caps caps'
      /\ k (pos + List.length s1) s2 caps' = Some x.

(** ** The line grammar, part by part *)

(** The timestamp token and the action of a line in parts. *)
Definition timestamp_of (p : line_parts) : text :=
  day_digits p ++ T " " ++ month_abbr p ++ T " " ++ T "'" ++ year_digits p
  ++ T " " ++ hour_digits p ++ T ":" ++ minute_digits p
  ++ [ampm_letter p] ++ T "m".

Definition action_of (p : line_parts) : text :=
  lead_word p ++ [lead_gap p] ++ event_text p.

(** The parts are such as [LOG_PATTERN] asks for: digits, a closing
    parenthesis and white space; one or two digits, three word
    characters, two digits, two digits, a colon, two digits and [am] or
    [pm], separated by single blanks; a colon between white space; a
    name of one character or more; white space; one of the lead words, a
    white space character and one character or more. *)
Definition matched_parts (p : line_parts) : bool :=
  some_of isdigit (ordinal p)
  && some_of isspace (gap_after_ordinal p)
  && some_of isdigit (day_digits p) && (List.length (day_digits p) <=? 2)
  && all_of isword (month_abbr p) && (List.length (month_abbr p) =? 3)
  && all_of isdigit (year_digits p) && (List.length (year_digits p) =? 2)
  && all_of isdigit (hour_digits p) && (List.length (hour_digits p) =? 2)
  && all_of isdigit (minute_digits p) && (List.length (minute_digits p) =? 2)
  && is_a_or_p (ampm_letter p)
  && some_of isspace (gap_before_colon p)
  && some_of isspace (gap_after_colon p)
  && some_of isany (player_name p)
  && some_of isspace (gap_after_player p)
  && existsb (text_eqb (lead_word p)) lead_words
  && isspace (lead_gap p)
  && some_of isany (event_text p).

(** The action cut at its first semicolon, as [parse_log] cuts it. *)
Definition cut_action (action : text) : text * text :=
  if has_char ";" action then split_once ";" action else (action, []).

(** The record that [parse_log] makes of a line in parts. *)
Definition record_of_parts (utcoffset : datetime -> Z) (p : line_parts) : entry :=
  {| Timestamp := match strptime (timestamp_of p) with
                  | Some t => strftime_display (astimezone utcoffset t)
                  | None => []
                  end;
     Player := strip (player_name p);
     Event := strip (fst (cut_action (action_of p)));
     Details := strip (snd (cut_action (action_of p))) |}.

(** ** The diagnostics of [parse_log] *)

Definition is_timestamp_failed (m : log_message) : bool :=
  match m with timestamp_parsing_failed _ => true | _ => false end.

Definition no_timestamp (e : entry) : bool :=
  match Timestamp e with [] => true | _ :: _ => false end.

(** What one line gives: a record with its timestamp and no message, a
    record without timestamp and the message that the timestamp failed,
    or no record and the message that the line was skipped. *)
Inductive line_result (line : text) : list entry * list log_message -> Prop :=
| line_kept : forall e,
    no_timestamp e = false -> line_result line ([e], [])
| line_kept_without_timestamp : forall e,
    no_timestamp e = true ->
    line_result line ([e], [timestamp_parsing_failed (strip line)])
| line_dropped :
    line_result line ([], [line_skipped (strip line)]).
(** * Properties *)

(** ** The matcher finds what the expression denotes *)

Lemma rep_loop_complete :
  forall A (body : nat -> text -> captures -> cont A -> option A)
         (M : nat -> text -> text -> Prop) greedy (k : cont A),
    (forall pos a rest caps (k' : cont A),
        M pos a rest ->
        (forall caps', k' (pos + List.length a) rest caps' <> None) ->
        body pos (a ++ rest) caps k' <> None) ->
    forall lo hi pos s1 s2,
      rep_matches M lo hi pos s1 s2 ->
      forall fuel caps,
        lo + List.length s1 <= fuel ->
        (forall caps', k (pos + List.length s1) s2 caps' <> None) ->
        rep_loop body greedy k fuel lo hi pos (s1 ++ s2) caps <> None.
Proof.
  intros A body M greedy k Hbody lo hi pos s1 s2 HM.
  induction HM as [hi pos s2 | lo hi pos a b s2 Hhi Hprog Ha Hrest IH];
    intros fuel caps Hfuel Hk.
  - simpl in Hk. rewrite Nat.add_0_r in Hk.
    destruct fuel; simpl; destruct greedy; simpl;
      repeat match goal with
             | |- context [match ?x with Some _ => _ | None => _ end] =>
                 let E := fresh in destruct x eqn:E
             end; try discriminate; try (now apply Hk); auto.
    all: try (exfalso; eapply Hk; eassumption).
  - assert (Hlen : 1 <= fuel).
    { rewrite length_app in Hfuel.
      destruct Hprog as [Hlo | Hne]; [lia|].
      destruct a; [congruence | simpl in Hfuel; lia]. }
    destruct fuel as [|fuel']; [lia|].
    assert (Hagain :
      body pos ((a ++ b) ++ s2) caps
        (fun pos' s' caps' =>
           if (0 <? lo) || (List.length s' <? List.length ((a ++ b) ++ s2))
           then rep_loop body greedy k fuel' (pred lo) (pred_bound hi) pos' s' caps'
           else None) <> None).
    { rewrite <- app_assoc. apply Hbody; [exact Ha|].
      intros caps'.
      assert (Hc : (0 <? lo) || (List.length (b ++ s2) <? List.length (a ++ b ++ s2)) = true).
      { destruct Hprog as [Hlo | Hne].
        - apply Nat.ltb_lt in Hlo. rewrite Hlo. reflexivity.
        - apply orb_true_iff. right. apply Nat.ltb_lt.
          rewrite !length_app. destruct a; [congruence | simpl; lia]. }
      rewrite Hc. apply IH.
      - rewrite length_app in Hfuel. destruct Hprog as [Hlo | Hne].
        + lia.
        + destruct a; [congruence | simpl in Hfuel; lia].
      - intros caps''. rewrite <- Nat.add_assoc, <- length_app. apply Hk. }
    simpl. rewrite Hhi.
    destruct greedy.
    + destruct (body pos ((a ++ b) ++ s2) caps _); [discriminate | congruence].
    + destruct (if lo =? 0 then k pos ((a ++ b) ++ s2) caps else None);
        [discriminate | exact Hagain].
Qed.

Theorem rx_complete :
  forall A (r : regex) pos s1 s2 caps (k : cont A),
    matches r pos s1 s2 ->
    (forall caps', k (pos + List.length s1) s2 caps' <> None) ->
    rx r pos (s1 ++ s2) caps k <> None.
Proof.
  intros A r. induction r as [| p | r1 IH1 r2 IH2 | r1 IH1 r2 IH2
                              | r1 IH1 lo hi g | name r1 IH1 | |];
    intros pos s1 s2 caps k HM Hk; simpl in HM.
  - subst. simpl in *. rewrite Nat.add_0_r in Hk. apply Hk.
  - destruct HM as (c & -> & Hp). simpl. rewrite Hp.
    replace (S pos) with (pos + 1) by lia. apply Hk.
  - destruct HM as (a & b & -> & Ha & Hb). simpl. rewrite <- app_assoc.
    apply IH1; [exact Ha|]. intros caps'. apply IH2; [exact Hb|].
    intros caps''. rewrite <- Nat.add_assoc, <- length_app. apply Hk.
  - simpl. destruct HM as [H1 | H2].
    + specialize (IH1 pos s1 s2 caps k H1 Hk).
      destruct (rx r1 pos (s1 ++ s2) caps k); [discriminate | congruence].
    + destruct (rx r1 pos (s1 ++ s2) caps k); [discriminate|].
      apply IH2; assumption.
  - simpl. eapply rep_loop_complete; eauto.
    rewrite length_app. lia.
  - simpl. apply IH1; [exact HM|]. intros caps'. apply Hk.
  - destruct HM as [-> ->]. simpl in *. apply Hk.
  - destruct HM as [-> Hs2]. simpl in *. rewrite Nat.add_0_r in Hk.
    destruct Hs2 as [-> | ->]; simpl; apply Hk.
Qed.

Corollary re_match_complete :
  forall r s1 s2, matches r 0 s1 s2 -> re_match r (s1 ++ s2) <> None.
Proof.
  intros r s1 s2 HM. unfold re_match. apply rx_complete; [exact HM|].
  intros; discriminate.
Qed.

(** ** The line parser *)

Lemma parse_line_acc :
  forall utcoffset data log line,
    parse_line utcoffset (data, log) line
    = (data ++ fst (parse_line utcoffset ([], []) line),
       log ++ snd (parse_line utcoffset ([], []) line)).
Proof.
  intros. unfold parse_line.
  destruct (re_match LOG_PATTERN (strip line)) as [m|];
    [|simpl; now rewrite app_nil_r].
  destruct (if has_char ";" (grp "action" m)
            then split_once ";" (grp "action" m)
            else (grp "action" m, [])) as [event_type details].
  destruct (strptime (grp "timestamp" m)); simpl; now rewrite ?app_nil_r.
Qed.

Lemma parse_log_fold :
  forall utcoffset lines data log,
    fold_left (parse_line utcoffset) lines (data, log)
    = (data ++ flat_map (fun l => fst (parse_line utcoffset ([], []) l)) lines,
       log ++ flat_map (fun l => snd (parse_line utcoffset ([], []) l)) lines).
Proof.
  intros utcoffset lines. induction lines as [|l lines IH]; intros data log;
    cbn [fold_left flat_map].
  - now rewrite !app_nil_r.
  - rewrite parse_line_acc, IH, <- !app_assoc. reflexivity.
Qed.

Lemma parse_line_matching :
  forall utcoffset l,
    line_matches l = true ->
    exists e, fst (parse_line utcoffset ([], []) l) = [e]
              /\ filter is_line_skipped (snd (parse_line utcoffset ([], []) l)) = [].
Proof.
  intros utcoffset l H. unfold line_matches in H. unfold parse_line.
  destruct (re_match LOG_PATTERN (strip l)) as [m|]; [|discriminate].
  destruct (if has_char ";" (grp "action" m)
            then split_once ";" (grp "action" m)
            else (grp "action" m, [])) as [event_type details].
  destruct (strptime (grp "timestamp" m)); simpl; eauto.
Qed.

Lemma parse_line_not_matching :
  forall utcoffset l,
    line_matches l = false ->
    parse_line utcoffset ([], []) l = ([], [line_skipped (strip l)]).
Proof.
  intros utcoffset l H. unfold line_matches in H. unfold parse_line.
  destruct (re_match LOG_PATTERN (strip l)); [discriminate | reflexivity].
Qed.

(** C1.  [parse_log] returns, in the order of the input lines, exactly
    one record for each line that fits the grammar and none for a line
    that does not; such a line is reported as skipped and the parse goes
    on with the next line. *)
Theorem parse_log_one_record_per_matching_line :
  forall utcoffset file_content,
    let lines := splitlines (strip file_content) in
    let per_line := fun l => parse_line utcoffset ([], []) l in
    fst (parse_log utcoffset file_content) = flat_map (fun l => fst (per_line l)) lines
    /\ (forall l, if line_matches l
                  then exists e, fst (per_line l) = [e]
                  else per_line l = ([], [line_skipped (strip l)]))
    /\ List.length (fst (parse_log utcoffset file_content))
       = List.length (filter line_matches lines)
    /\ filter is_line_skipped (snd (parse_log utcoffset file_content))
       = map (fun l => line_skipped (strip l))
             (filter (fun l => negb (line_matches l)) lines).
Proof.
  intros utcoffset file_content lines per_line. unfold parse_log.
  fold lines. rewrite parse_log_fold. cbn [fst snd List.app].
  assert (Hper : forall l, if line_matches l
                           then exists e, fst (per_line l) = [e]
                           else per_line l = ([], [line_skipped (strip l)])).
  { intros l. destruct (line_matches l) eqn:E.
    - destruct (parse_line_matching utcoffset l E) as (e & He & _). eauto.
    - now apply parse_line_not_matching. }
  repeat split.
  - exact Hper.
  - induction lines as [|l ls IH]; cbn [flat_map filter]; [reflexivity|].
    rewrite length_app, IH. specialize (Hper l).
    destruct (line_matches l).
    + destruct Hper as [e He]. unfold per_line in He. rewrite He. reflexivity.
    + unfold per_line in Hper. rewrite Hper. reflexivity.
  - induction lines as [|l ls IH]; cbn [flat_map filter map]; [reflexivity|].
    rewrite filter_app, IH. destruct (line_matches l) eqn:E; cbn [negb map].
    + destruct (parse_line_matching utcoffset l E) as (e & _ & Hs).
      rewrite Hs. reflexivity.
    + rewrite (parse_line_not_matching utcoffset l E). reflexivity.
Qed.

(** A line whose timestamp token has the shape the pattern asks for but
    names no real time is kept, with the empty timestamp. *)
Lemma parse_line_unparseable_timestamp :
  forall utcoffset line m,
    re_match LOG_PATTERN (strip line) = Some m ->
    strptime (grp "timestamp" m) = None ->
    exists e, parse_line utcoffset ([], []) line
              = ([e], [timestamp_parsing_failed (strip line)])
              /\ Timestamp e = [] /\ Player e = strip (grp "player" m).
Proof.
  intros utcoffset line m Hm Ht. unfold parse_line. rewrite Hm, Ht.
  destruct (if has_char ";" (grp "action" m)
            then split_once ";" (grp "action" m)
            else (grp "action" m, [])) as [event_type details].
  simpl. eauto.
Qed.

(** C2.  The line of the specification's example with the am/pm marker
    left out: the pattern does not match it, so it is skipped, where the
    claim has it kept with the empty timestamp. *)
Theorem missing_ampm_line_is_skipped :
  parse_log est_offset (T "5) 3 Jan '24 09:15 : Aria Nightshade has died at level 42")
  = ([], [line_skipped (T "5) 3 Jan '24 09:15 : Aria Nightshade has died at level 42")]).
Proof. vm_compute. reflexivity. Qed.

(** A timestamp the pattern accepts and [strptime] rejects, here the 31st
    of February, does give the record with the empty timestamp. *)
Example impossible_date_line_is_kept :
  parse_log est_offset (T "7) 31 Feb '24 12:15am : Bob is no longer in the Guild")
  = ([ {| Timestamp := []; Player := T "Bob";
          Event := T "is no longer in the Guild"; Details := [] |} ],
     [timestamp_parsing_failed
        (T "7) 31 Feb '24 12:15am : Bob is no longer in the Guild")]).
Proof. vm_compute. reflexivity. Qed.

(** ** The classifier *)

Lemma categories_distinct : NoDup categories.
Proof.
  unfold categories.
  repeat (constructor; [simpl; intros H; repeat (destruct H as [H|H]; [discriminate H|]); exact H|]).
  constructor.
Qed.

(** C3.  [categorize_event] gives every event text one label of the eight,
    the one of the first rule, in the fixed order, whose test holds; so a
    text with both "has died" and "Leveled to" is a Death. *)
Theorem categorize_event_total_with_priority :
  forall event_str,
    In (categorize_event event_str) categories
    /\ (forall c, categorize_event event_str = c <->
                  In c categories /\ first_match priority_rules event_str = c)
    /\ (contains (T "has died") event_str = true ->
        contains (T "Leveled to") event_str = true ->
        categorize_event event_str = Death
        /\ categorize_event event_str <> Level_Up).
Proof.
  intros e.
  assert (Hfm : categorize_event e = first_match priority_rules e).
  { unfold categorize_event, priority_rules, first_match.
    repeat match goal with
           | |- (if ?b then _ else _) = (if ?b then _ else _) =>
               destruct b; [reflexivity|]
           end. reflexivity. }
  assert (Hin : In (categorize_event e) categories).
  { unfold categorize_event, categories.
    repeat match goal with
           | |- In (if ?b then _ else _) _ => destruct b
           end; simpl; tauto. }
  split; [exact Hin|]. split.
  - intros c. split.
    + intros <-. split; [exact Hin | now rewrite Hfm].
    + intros [_ H]. now rewrite Hfm.
  - intros Hd Hl.
    assert (categorize_event e = Death).
    { unfold categorize_event. rewrite Hd, orb_true_r. reflexivity. }
    split; [assumption|]. rewrite H. discriminate.
Qed.

Lemma categorize_event_total_with_priority_witness :
  contains (T "has died") (T "has died at level 12 after having Leveled to 12") = true
  /\ contains (T "Leveled to") (T "has died at level 12 after having Leveled to 12") = true
  /\ categorize_event (T "has died at level 12 after having Leveled to 12") = Death
  /\ categorize_event (T "has died at level 12 after having Leveled to 12") <> Level_Up.
Proof.
  split; [reflexivity|]. split; [reflexivity|].
  apply (proj2 (proj2 (categorize_event_total_with_priority
                         (T "has died at level 12 after having Leveled to 12"))));
    reflexivity.
Defined.

(** ** Lines in the documented format *)

Lemma matches_cls_run :
  forall p s lo hi pos s2,
    all_of p s = true ->
    lo <= List.length s ->
    match hi with Some h => List.length s <= h | None => True end ->
    rep_matches (matches (Cls p)) lo hi pos s s2.
Proof.
  intros p s. induction s as [|c s IH]; intros lo hi pos s2 Hall Hlo Hhi.
  - simpl in Hlo. replace lo with 0 by lia. constructor.
  - simpl in Hall. apply andb_true_iff in Hall as [Hc Hall].
    change (c :: s) with ([c] ++ s). apply rep_more.
    + destruct hi as [[|h]|]; simpl in *; [lia | reflexivity | reflexivity].
    + right. discriminate.
    + simpl. eauto.
    + apply IH; [exact Hall | simpl in Hlo; lia |].
      destruct hi as [h|]; simpl in *; [lia | exact I].
Qed.

Lemma matches_plus :
  forall p s pos s2 g,
    some_of p s = true -> matches (Rep (Cls p) 1 None g) pos s s2.
Proof.
  intros p s pos s2 g H. apply andb_true_iff in H as [Hne Hall].
  simpl. apply matches_cls_run; [exact Hall | | exact I].
  destruct s; [discriminate | simpl; lia].
Qed.

Lemma matches_times :
  forall p n s pos s2,
    all_of p s = true -> (List.length s =? n) = true ->
    matches (times n (Cls p)) pos s s2.
Proof.
  intros p n s pos s2 Hall Hn. apply Nat.eqb_eq in Hn.
  simpl. apply matches_cls_run; [exact Hall | lia | lia].
Qed.

Lemma matches_chr :
  forall c pos s2, matches (chr c) pos [c] s2.
Proof.
  intros. simpl. exists c. split; [reflexivity | apply Ascii.eqb_refl].
Qed.

Lemma matches_lit :
  forall w pos s2, matches (lit w) pos w s2.
Proof.
  induction w as [|c w IH]; intros pos s2; simpl; [reflexivity|].
  exists [c], w. repeat split.
  - exists c. split; [reflexivity | apply Ascii.eqb_refl].
  - apply IH.
Qed.

Lemma matches_alts :
  forall rs r pos s1 s2,
    In r rs -> matches r pos s1 s2 -> matches (alts rs) pos s1 s2.
Proof.
  induction rs as [|r0 rs IH]; intros r pos s1 s2 Hin HM; [contradiction|].
  destruct rs as [|r1 rs].
  - destruct Hin as [->|[]]. exact HM.
  - change (alts (r0 :: r1 :: rs)) with (Alt r0 (alts (r1 :: rs))).
    destruct Hin as [->|Hin]; [left; exact HM | right; eapply IH; eauto].
Qed.

Lemma text_eqb_eq : forall a b, text_eqb a b = true -> a = b.
Proof.
  intros a b. unfold text_eqb. destruct (list_eq_dec ascii_dec a b); congruence.
Qed.

Lemma matches_seq :
  forall r1 r2 pos a b s2,
    matches r1 pos a (b ++ s2) ->
    matches r2 (pos + List.length a) b s2 ->
    matches (Seq r1 r2) pos (a ++ b) s2.
Proof. intros. simpl. eauto. Qed.

Lemma timestamp_token_in_language :
  forall dd mon yy hh mi ap pos s2,
    some_of isdigit dd = true -> (List.length dd <=? 2) = true ->
    all_of isword mon = true -> (List.length mon =? 3) = true ->
    all_of isdigit yy = true -> (List.length yy =? 2) = true ->
    all_of isdigit hh = true -> (List.length hh =? 2) = true ->
    all_of isdigit mi = true -> (List.length mi =? 2) = true ->
    is_a_or_p ap = true ->
    matches TIMESTAMP_TOKEN pos
      (dd ++ [" "%char] ++ mon ++ [" "%char] ++ ["'"%char] ++ yy ++ [" "%char]
       ++ hh ++ [":"%char] ++ mi ++ [ap] ++ ["m"%char]) s2.
Proof.
  intros dd mon yy hh mi ap pos s2 Hdd Hdl Hmon Hml Hyy Hyl Hhh Hhl Hmi Hmil Hap.
  unfold TIMESTAMP_TOKEN. cbn [seqs].
  repeat apply matches_seq.
  - apply andb_true_iff in Hdd as [Hne Hall]. apply Nat.leb_le in Hdl.
    simpl. apply matches_cls_run; [exact Hall | | exact Hdl].
    destruct dd; [discriminate | simpl; lia].
  - apply matches_chr.
  - now apply matches_times.
  - apply matches_chr.
  - apply matches_chr.
  - now apply matches_times.
  - apply matches_chr.
  - now apply matches_times.
  - apply matches_chr.
  - now apply matches_times.
  - simpl. eauto.
  - apply matches_chr.
Qed.

Lemma action_in_language :
  forall lead sp ev pos s2,
    existsb (text_eqb lead) lead_words = true ->
    isspace sp = true -> some_of isany ev = true ->
    matches ACTION pos (lead ++ [sp] ++ ev) s2.
Proof.
  intros lead sp ev pos s2 Hlead Hsp Hev.
  unfold ACTION. cbn [seqs]. repeat apply matches_seq.
  - apply existsb_exists in Hlead as (w & Hin & Heq).
    apply text_eqb_eq in Heq. subst w.
    cbn [matches]. eapply matches_alts; [apply in_map; exact Hin|].
    apply matches_lit.
  - simpl. eauto.
  - now apply matches_plus.
Qed.

Lemma log_pattern_segments :
  forall ord g1 ts g2 g3 pl g4 act,
    some_of isdigit ord = true -> some_of isspace g1 = true ->
    (forall pos s2, matches TIMESTAMP_TOKEN pos ts s2) ->
    some_of isspace g2 = true -> some_of isspace g3 = true ->
    some_of isany pl = true -> some_of isspace g4 = true ->
    (forall pos s2, matches ACTION pos act s2) ->
    matches LOG_PATTERN 0
      (ord ++ [")"%char] ++ g1 ++ ts ++ g2 ++ [":"%char] ++ g3 ++ pl ++ g4 ++ act)
      [].
Proof.
  intros ord g1 ts g2 g3 pl g4 act Hord Hg1 Hts Hg2 Hg3 Hpl Hg4 Hact.
  rewrite <- (app_nil_r act).
  change (ord ++ ?rest) with ([] ++ ord ++ rest).
  unfold LOG_PATTERN. cbn [seqs]. repeat apply matches_seq.
  - simpl. auto.
  - now apply matches_plus.
  - apply matches_chr.
  - now apply matches_plus.
  - cbn [matches]. apply Hts.
  - now apply matches_plus.
  - apply matches_chr.
  - now apply matches_plus.
  - cbn [matches]. now apply matches_plus.
  - now apply matches_plus.
  - cbn [matches]. apply Hact.
  - simpl. auto.
Qed.

Lemma linebreak_free_isany :
  forall s, all_of (fun c => negb (islinebreak c)) s = true -> all_of isany s = true.
Proof.
  intros s H. unfold all_of in *. rewrite forallb_forall in *.
  intros c Hc. specialize (H c Hc). unfold isany, islinebreak, in_range in *.
  destruct (code c =? 10) eqn:E; [|reflexivity].
  apply Nat.eqb_eq in E. rewrite E in H. discriminate.
Qed.

Lemma has_unspaced_nonempty : forall s, has_unspaced s = true -> nonempty s = true.
Proof. intros [|c s] H; [discriminate | reflexivity]. Qed.

Lemma all_of_app :
  forall p a b, all_of p (a ++ b) = all_of p a && all_of p b.
Proof. intros. apply forallb_app. Qed.

Lemma accepted_line_in_language :
  forall p, accepted_format p = true -> matches LOG_PATTERN 0 (assemble p) [].
Proof.
  intros p H. unfold accepted_format, parts_in_format in H.
  repeat match type of H with
         | (_ && _) = true => let H1 := fresh "F" in
                              apply andb_true_iff in H as [H H1]
         end.
  assert (Hev : some_of isany (event_text p) = true).
  { unfold some_of. rewrite (has_unspaced_nonempty _ F1). cbn [andb].
    apply linebreak_free_isany. unfold assemble in F0.
    rewrite all_of_app in F0. now apply andb_true_iff in F0 as [_ F0]. }
  replace (assemble p) with
    (ordinal p ++ [")"%char] ++ gap_after_ordinal p
     ++ (day_digits p ++ [" "%char] ++ month_abbr p ++ [" "%char] ++ ["'"%char]
         ++ year_digits p ++ [" "%char] ++ hour_digits p ++ [":"%char]
         ++ minute_digits p ++ [ampm_letter p] ++ ["m"%char])
     ++ gap_before_colon p ++ [":"%char] ++ gap_after_colon p
     ++ player_name p ++ gap_after_player p
     ++ (lead_word p ++ [lead_gap p] ++ event_text p)).
  2: { unfold assemble, before_event. cbn [T list_ascii_of_string].
       repeat rewrite <- app_assoc. reflexivity. }
  apply log_pattern_segments; try assumption.
  - intros. now apply timestamp_token_in_language.
  - intros. now apply action_in_language.
Qed.

Lemma digit_not_space : forall c, isdigit c = true -> isspace c = false.
Proof.
  intros c. unfold isdigit, isspace, in_range.
  destruct (code c =? 133) eqn:E1; [apply Nat.eqb_eq in E1; rewrite E1; discriminate|].
  destruct (code c =? 160) eqn:E2; [apply Nat.eqb_eq in E2; rewrite E2; discriminate|].
  rewrite !orb_false_r. intros H. apply andb_true_iff in H as [H1 H2].
  apply Nat.leb_le in H1, H2.
  destruct (9 <=? code c) eqn:A; destruct (code c <=? 13) eqn:B;
    destruct (28 <=? code c) eqn:C; destruct (code c <=? 32) eqn:D;
    try reflexivity;
    repeat match goal with
           | H : (_ <=? _) = true |- _ => apply Nat.leb_le in H
           | H : (_ <=? _) = false |- _ => apply Nat.leb_gt in H
           end; lia.
Qed.

(** *** What [strip] does to a line *)

Lemma lstrip_unspaced :
  forall c s, isspace c = false -> lstrip (c :: s) = c :: s.
Proof. intros c s H. simpl. now rewrite H. Qed.

Lemma lstrip_spaces_app :
  forall ws s, all_of isspace ws = true -> lstrip (ws ++ s) = lstrip s.
Proof.
  induction ws as [|c ws IH]; intros s H; [reflexivity|].
  simpl in H. apply andb_true_iff in H as [Hc Hws].
  simpl. rewrite Hc. now apply IH.
Qed.

Lemma lstrip_split :
  forall s, exists ws, s = ws ++ lstrip s /\ all_of isspace ws = true.
Proof.
  induction s as [|c s (ws & Hs & Hws)]; [exists []; split; reflexivity|].
  simpl. destruct (isspace c) eqn:E.
  - exists (c :: ws). split; [simpl; now rewrite <- Hs | simpl; now rewrite E].
  - exists []. split; reflexivity.
Qed.

Lemma lstrip_head :
  forall s, has_unspaced s = true ->
            exists c r, lstrip s = c :: r /\ isspace c = false.
Proof.
  induction s as [|c s IH]; intros H; [discriminate|].
  simpl in *. destruct (isspace c) eqn:E.
  - simpl in H. now apply IH.
  - eauto.
Qed.

Lemma rstrip_split :
  forall s, exists ws, s = rstrip s ++ ws /\ all_of isspace ws = true.
Proof.
  intros s. destruct (lstrip_split (rev s)) as (ws & Hs & Hws).
  exists (rev ws). split.
  - unfold rstrip. rewrite <- rev_app_distr, <- Hs. symmetry. apply rev_involutive.
  - unfold all_of in *. rewrite forallb_forall in *.
    intros c Hc. apply Hws. now apply in_rev.
Qed.

Lemma has_unspaced_rev : forall s, has_unspaced (rev s) = has_unspaced s.
Proof.
  intros s. unfold has_unspaced.
  destruct (existsb (fun c => negb (isspace c)) s) eqn:E.
  - apply existsb_exists in E as (c & Hc & Hs).
    apply existsb_exists. exists c. split; [now apply in_rev in Hc | exact Hs].
  - destruct (existsb (fun c => negb (isspace c)) (rev s)) eqn:E'; [|reflexivity].
    apply existsb_exists in E' as (c & Hc & Hs).
    assert (existsb (fun c => negb (isspace c)) s = true).
    { apply existsb_exists. exists c. split; [now apply in_rev | exact Hs]. }
    congruence.
Qed.

Lemma rstrip_ends_unspaced :
  forall s, has_unspaced s = true -> ends_unspaced (rstrip s) = true.
Proof.
  intros s H. unfold ends_unspaced, rstrip. rewrite rev_involutive.
  rewrite <- has_unspaced_rev in H.
  destruct (lstrip_head _ H) as (c & r & -> & Hc). now rewrite Hc.
Qed.

Lemma ends_unspaced_has_unspaced :
  forall s, ends_unspaced s = true -> has_unspaced s = true.
Proof.
  intros s H. rewrite <- has_unspaced_rev. unfold ends_unspaced in H.
  destruct (rev s) as [|c r]; [discriminate|].
  unfold has_unspaced. simpl. now rewrite H.
Qed.

Lemma ends_unspaced_app :
  forall a b, ends_unspaced b = true -> ends_unspaced (a ++ b) = true.
Proof.
  intros a b H. unfold ends_unspaced in *. rewrite rev_app_distr.
  destruct (rev b); [discriminate | exact H].
Qed.

Lemma rstrip_spaces_app :
  forall s ws,
    ends_unspaced s = true -> all_of isspace ws = true -> rstrip (s ++ ws) = s.
Proof.
  intros s ws Hs Hws. unfold rstrip. rewrite rev_app_distr.
  rewrite lstrip_spaces_app.
  - unfold ends_unspaced in Hs. destruct (rev s) as [|c r] eqn:E; [discriminate|].
    apply negb_true_iff in Hs. rewrite lstrip_unspaced by exact Hs.
    rewrite <- E. apply rev_involutive.
  - unfold all_of in *. rewrite forallb_forall in *.
    intros c Hc. apply Hws. now apply in_rev.
Qed.

Lemma splitlines_from_unbroken :
  forall s cur,
    all_of (fun c => negb (islinebreak c)) s = true ->
    splitlines_from cur s
    = match rev cur ++ s with [] => [] | l => [l] end.
Proof.
  induction s as [|c s IH]; intros cur H.
  - simpl. rewrite app_nil_r. destruct cur as [|d cur]; [reflexivity|].
    destruct (rev (d :: cur)) eqn:E; [|reflexivity].
    apply (f_equal (@List.length ascii)) in E. rewrite length_rev in E. discriminate.
  - simpl in H. apply andb_true_iff in H as [Hc Hs].
    apply negb_true_iff in Hc. cbn [splitlines_from]. rewrite Hc.
    rewrite IH by exact Hs. cbn [rev]. rewrite <- app_assoc. reflexivity.
Qed.

Lemma before_event_starts_with_digit :
  forall p, parts_in_format p = true ->
            exists c r, before_event p = c :: r /\ isspace c = false.
Proof.
  intros p H. unfold parts_in_format in H.
  repeat match type of H with
         | (_ && _) = true => let H1 := fresh "F" in
                              apply andb_true_iff in H as [H H1]
         end.
  apply andb_true_iff in H as [Hne Hall].
  unfold before_event. destruct (ordinal p) as [|c o]; [discriminate|].
  simpl in Hall. apply andb_true_iff in Hall as [Hc _].
  cbn [List.app]. eauto using digit_not_space.
Qed.

(** Trimming an accepted line trims its event text, and what is left is
    an accepted line that [strip] and [splitlines] leave alone. *)
Lemma strip_accepted_line :
  forall p,
    parts_in_format p = true ->
    strip (assemble p) = assemble (trim_event p)
    /\ strip (assemble (trim_event p)) = assemble (trim_event p)
    /\ splitlines (assemble (trim_event p)) = [assemble (trim_event p)]
    /\ parts_in_format (trim_event p) = true.
Proof.
  intros p H.
  destruct (before_event_starts_with_digit p H) as (c & r & Hb & Hc).
  assert (Hu : has_unspaced (event_text p) = true
               /\ all_of (fun c => negb (islinebreak c)) (assemble p) = true).
  { unfold parts_in_format in H.
    apply andb_true_iff in H as [H Hl]. apply andb_true_iff in H as [_ Hu]. auto. }
  destruct Hu as [Hu Hl].
  destruct (rstrip_split (event_text p)) as (ws & Hev & Hws).
  pose proof (rstrip_ends_unspaced _ Hu) as He.
  assert (Hsame : before_event (trim_event p) = before_event p) by reflexivity.
  assert (Ha : assemble p = assemble (trim_event p) ++ ws).
  { unfold assemble. rewrite Hsame. cbn [event_text trim_event].
    rewrite <- app_assoc. now rewrite <- Hev. }
  assert (Ht : strip (assemble (trim_event p)) = assemble (trim_event p)).
  { unfold strip, assemble. rewrite Hsame, Hb. cbn [List.app].
    rewrite lstrip_unspaced by exact Hc.
    rewrite <- (app_nil_r (c :: r ++ event_text (trim_event p))) at 1.
    apply rstrip_spaces_app; [|reflexivity].
    change (c :: r ++ event_text (trim_event p))
      with ((c :: r) ++ event_text (trim_event p)).
    now apply ends_unspaced_app. }
  assert (Hl' : all_of (fun c => negb (islinebreak c)) (assemble (trim_event p)) = true).
  { rewrite Ha, all_of_app in Hl. now apply andb_true_iff in Hl as [Hl _]. }
  repeat split.
  - rewrite Ha. unfold strip. unfold assemble at 1. rewrite Hsame, Hb.
    cbn [List.app]. rewrite lstrip_unspaced by exact Hc.
    change (c :: (r ++ event_text (trim_event p)) ++ ws)
      with (((c :: r) ++ event_text (trim_event p)) ++ ws).
    rewrite rstrip_spaces_app; [unfold assemble; now rewrite Hsame, Hb | | exact Hws].
    now apply ends_unspaced_app.
  - exact Ht.
  - unfold splitlines. rewrite splitlines_from_unbroken by exact Hl'.
    cbn [rev List.app]. unfold assemble. rewrite Hsame, Hb. reflexivity.
  - unfold parts_in_format in *.
    apply andb_true_iff in H as [H _]. apply andb_true_iff in H as [H _].
    rewrite Hl', andb_true_r. cbn [trim_event ordinal gap_after_ordinal day_digits
      month_abbr year_digits hour_digits minute_digits ampm_letter
      gap_before_colon gap_after_colon player_name gap_after_player lead_word
      lead_gap event_text].
    rewrite H. cbn [andb]. now apply ends_unspaced_has_unspaced.
Qed.

(** C8, as the code has it.  A line in the documented format whose hour
    is written with two digits and whose marker is a lower-case am or pm
    fits the grammar, and [parse_log] makes one record of it. *)
Theorem accepted_format_line_yields_record :
  forall utcoffset p,
    accepted_format p = true ->
    line_matches (assemble p) = true
    /\ exists e log, parse_log utcoffset (assemble p) = ([e], log)
                     /\ filter is_line_skipped log = [].
Proof.
  intros utcoffset p H.
  assert (Hf : parts_in_format p = true).
  { unfold accepted_format in H. now apply andb_true_iff in H as [H _]. }
  destruct (strip_accepted_line p Hf) as (Hs & Ht & Hsplit & Hf').
  assert (H' : accepted_format (trim_event p) = true).
  { unfold accepted_format in *. apply andb_true_iff in H as [_ Hh].
    rewrite Hf'. exact Hh. }
  assert (Hm : line_matches (assemble (trim_event p)) = true).
  { unfold line_matches. rewrite Ht.
    pose proof (re_match_complete LOG_PATTERN (assemble (trim_event p)) []
                  (accepted_line_in_language _ H')) as Hc.
    rewrite app_nil_r in Hc.
    destruct (re_match LOG_PATTERN (assemble (trim_event p)));
      [reflexivity | congruence]. }
  split.
  - unfold line_matches in *. now rewrite Hs, <- Ht.
  - unfold parse_log. rewrite Hs, Hsplit. cbn [fold_left].
    destruct (parse_line_matching utcoffset (assemble (trim_event p)) Hm)
      as (e & He & Hk).
    destruct (parse_line utcoffset ([], []) (assemble (trim_event p)))
      as [data log].
    simpl in He, Hk. subst data. eauto.
Qed.

Lemma accepted_format_line_yields_record_witness :
  accepted_format example_parts_with_trailing_blanks = true
  /\ line_matches (assemble example_parts_with_trailing_blanks) = true
  /\ exists e log,
      parse_log est_offset (assemble example_parts_with_trailing_blanks) = ([e], log)
      /\ filter is_line_skipped log = [].
Proof.
  split; [vm_compute; reflexivity|].
  apply (accepted_format_line_yields_record est_offset
           example_parts_with_trailing_blanks).
  vm_compute. reflexivity.
Defined.

(** The line of the specification's example gives the record the
    specification lists for it. *)
Example example_line_record :
  assemble example_parts
  = T "12) 3 Jan '24 09:15pm : Aria Nightshade has died at level 42; slain by Dragon"
  /\ parse_log est_offset (assemble example_parts)
     = ([ {| Timestamp := T "2024-01-03 04:15:00 PM";
             Player := T "Aria Nightshade";
             Event := T "has died at level 42";
             Details := T "slain by Dragon" |} ], []).
Proof. vm_compute. split; reflexivity. Qed.

(** C8, as claimed, fails on an hour written with one digit: the line
    [12) 3 Jan '24 9:15pm : Aria Nightshade has died at level 42; slain by Dragon]
    is in the format the claim describes and is skipped. *)
Lemma one_digit_hour_line_is_skipped :
  claimed_format one_digit_hour_parts = true
  /\ assemble one_digit_hour_parts
     = T "12) 3 Jan '24 9:15pm : Aria Nightshade has died at level 42; slain by Dragon"
  /\ line_matches (assemble one_digit_hour_parts) = false
  /\ parse_log est_offset (assemble one_digit_hour_parts)
     = ([], [line_skipped (assemble one_digit_hour_parts)]).
Proof. vm_compute. repeat split; reflexivity. Qed.

(** ** The level of a row *)

Lemma rx_lit :
  forall A w pos s caps (k : cont A),
    rx (lit w) pos s caps k
    = if starts_with w s
      then k (pos + List.length w) (skipn (List.length w) s) caps
      else None.
Proof.
  intros A w. induction w as [|c w IH]; intros pos s caps k; simpl.
  - now rewrite Nat.add_0_r.
  - destruct s as [|d s]; [reflexivity|].
    destruct (Ascii.eqb c d) eqn:E; simpl; [|reflexivity].
    rewrite IH. replace (S pos + List.length w) with (pos + S (List.length w)) by lia.
    reflexivity.
Qed.

Lemma span_app : forall p s, fst (span p s) ++ snd (span p s) = s.
Proof.
  intros p s. induction s as [|c s IH]; simpl; [reflexivity|].
  destruct (p c); [|reflexivity].
  destruct (span p s) as [a b]. simpl in *. now rewrite IH.
Qed.

Lemma span_all : forall p s, all_of p (fst (span p s)) = true.
Proof.
  intros p s. induction s as [|c s IH]; simpl; [reflexivity|].
  destruct (p c) eqn:E; [|reflexivity].
  destruct (span p s) as [a b]. simpl in *. now rewrite E.
Qed.

Lemma span_stops :
  forall p s, match snd (span p s) with c :: _ => p c = false | [] => True end.
Proof.
  intros p s. induction s as [|c s IH]; simpl; [exact I|].
  destruct (p c) eqn:E; [|exact E].
  destruct (span p s) as [a b]. exact IH.
Qed.

Lemma rep_loop_greedy_step :
  forall A (body : nat -> text -> captures -> cont A -> option A) (k : cont A)
         fuel lo hi pos s caps,
    rep_loop body true k (S fuel) lo hi pos s caps
    = match (if more_allowed hi then
               body pos s caps (fun pos' s' caps' =>
                 if (0 <? lo) || (List.length s' <? List.length s)
                 then rep_loop body true k fuel (pred lo) (pred_bound hi) pos' s' caps'
                 else None)
             else None) with
      | Some x => Some x
      | None => if lo =? 0 then k pos s caps else None
      end.
Proof. reflexivity. Qed.

Lemma rx_rep :
  forall A r lo hi g pos s caps (k : cont A),
    rx (Rep r lo hi g) pos s caps k
    = rep_loop (rx r) g k (lo + List.length s) lo hi pos s caps.
Proof. reflexivity. Qed.

Lemma rx_cls :
  forall A p pos s caps (k : cont A),
    rx (Cls p) pos s caps k
    = match s with
      | c :: s' => if p c then k (S pos) s' caps else None
      | [] => None
      end.
Proof. reflexivity. Qed.

(** A greedy run of a class in front of a continuation that cannot fail
    takes the longest run there is. *)
Lemma rep_loop_greedy_class :
  forall A p (k : cont A) s fuel pos caps,
    (forall pos' s' caps', k pos' s' caps' <> None) ->
    List.length s <= fuel ->
    rep_loop (rx (Cls p)) true k fuel 0 None pos s caps
    = k (pos + List.length (fst (span p s))) (snd (span p s)) caps.
Proof.
  intros A p k s. induction s as [|c s IH]; intros fuel pos caps Hk Hfuel.
  - simpl. rewrite Nat.add_0_r. destruct fuel; reflexivity.
  - destruct fuel as [|fuel]; [simpl in Hfuel; lia|].
    rewrite rep_loop_greedy_step, rx_cls. cbn [more_allowed span].
    destruct (p c) eqn:E.
    + assert (Hlt : (0 <? 0) || (List.length s <? List.length (c :: s)) = true).
      { simpl. apply Nat.ltb_lt. lia. }
      rewrite Hlt. cbn [pred pred_bound].
      rewrite IH by (auto; simpl in Hfuel; lia).
      destruct (span p s) as [a b]. cbn [fst snd List.length].
      replace (S pos + List.length a) with (pos + S (List.length a)) by lia.
      destruct (k (pos + S (List.length a)) b caps) eqn:Ek; [reflexivity|].
      exfalso. eapply Hk; eassumption.
    + cbn [fst snd List.length Nat.eqb]. now rewrite Nat.add_0_r.
Qed.

Lemma rx_plus_class :
  forall A p (k : cont A) pos s caps,
    (forall pos' s' caps', k pos' s' caps' <> None) ->
    rx (plus (Cls p)) pos s caps k
    = match s with
      | c :: _ => if p c
                  then k (pos + List.length (fst (span p s))) (snd (span p s)) caps
                  else None
      | [] => None
      end.
Proof.
  intros A p k pos s caps Hk. unfold plus. rewrite rx_rep.
  change (1 + List.length s) with (S (List.length s)).
  rewrite rep_loop_greedy_step, rx_cls. cbn [more_allowed].
  destruct s as [|c s]; [reflexivity|].
  cbn [span]. destruct (p c) eqn:E; [|reflexivity].
  cbn [Nat.ltb Nat.leb orb pred pred_bound].
  rewrite rep_loop_greedy_class by (auto; simpl; lia).
  destruct (span p s) as [a b]. cbn [fst snd List.length].
  replace (S pos + List.length a) with (pos + S (List.length a)) by lia.
  destruct (k (pos + S (List.length a)) b caps) eqn:Ek; [reflexivity|].
  exfalso. eapply Hk; eassumption.
Qed.

Lemma firstn_span :
  forall p s n, n = List.length (fst (span p s)) -> firstn n s = fst (span p s).
Proof.
  intros p s n ->. pose proof (span_app p s) as H.
  destruct (span p s) as [a b]. cbn [fst snd] in *. subst s.
  rewrite firstn_app, firstn_all, Nat.sub_diag. simpl. apply app_nil_r.
Qed.

Lemma level_pattern_here :
  forall pos s,
    rx LEVEL_PATTERN pos s [] (fun _ _ caps => Some caps)
    = match marker_here s with
      | Some digits => Some [("1"%string, digits)]
      | None => None
      end.
Proof.
  intros pos s. unfold LEVEL_PATTERN, marker_here. cbn [rx].
  rewrite rx_lit. destruct (starts_with (T "LVL: ") s); [|reflexivity].
  change (List.length (T "LVL: ")) with 5.
  rewrite rx_plus_class by (intros; discriminate).
  destruct (skipn 5 s) as [|c r] eqn:E; [reflexivity|].
  destruct (isdigit c); [|reflexivity].
  unfold set_group. repeat f_equal.
  apply firstn_span. lia.
Qed.

Lemma extract_level_first_marker :
  forall s, extract_level s = first_marker s.
Proof.
  intros s. unfold extract_level, re_search.
  assert (H : forall pos,
             search_from LEVEL_PATTERN pos s
             = match first_marker s with
               | Some digits => Some [("1"%string, digits)]
               | None => None
               end).
  { induction s as [|c s IH]; intros pos; cbn [search_from first_marker];
      rewrite level_pattern_here.
    - destruct (marker_here []); reflexivity.
    - destruct (marker_here (c :: s)); [reflexivity | apply IH]. }
  rewrite H. destruct (first_marker s); reflexivity.
Qed.

Lemma starts_with_app :
  forall w s, starts_with w s = true -> s = w ++ skipn (List.length w) s.
Proof.
  induction w as [|c w IH]; intros s H; [reflexivity|].
  destruct s as [|d s]; [discriminate|]. simpl in H.
  apply andb_true_iff in H as [Hc Hw]. apply Ascii.eqb_eq in Hc. subst d.
  simpl. f_equal. now apply IH.
Qed.

Lemma starts_with_prefix : forall w s, starts_with w (w ++ s) = true.
Proof.
  induction w as [|c w IH]; intros s; simpl; [reflexivity|].
  now rewrite Ascii.eqb_refl, IH.
Qed.

Lemma marker_here_found :
  forall d post,
    isdigit d = true -> marker_here (T "LVL: " ++ d :: post) <> None.
Proof.
  intros d post Hd. unfold marker_here.
  rewrite starts_with_prefix. cbn [T list_ascii_of_string List.app skipn].
  rewrite Hd. discriminate.
Qed.

Lemma first_marker_eq :
  forall s,
    first_marker s
    = match marker_here s with
      | Some digits => Some digits
      | None => match s with [] => None | _ :: s' => first_marker s' end
      end.
Proof. destruct s; reflexivity. Qed.

Lemma first_marker_none :
  forall s, first_marker s = None -> no_marker s.
Proof.
  intros s H pre. revert s H.
  induction pre as [|c pre IH]; intros s H d post ->;
    rewrite first_marker_eq in H.
  - destruct (isdigit d) eqn:Hd; [|reflexivity].
    exfalso. apply (marker_here_found d post Hd).
    cbn [List.app] in H.
    destruct (marker_here (T "LVL: " ++ d :: post)); [discriminate | reflexivity].
  - cbn [List.app] in H.
    destruct (marker_here (c :: pre ++ T "LVL: " ++ d :: post)); [discriminate|].
    eapply IH; [exact H | reflexivity].
Qed.

Lemma marker_here_some :
  forall s digits,
    marker_here s = Some digits ->
    s = T "LVL: " ++ digits ++ snd (span isdigit (skipn 5 s))
    /\ digits = fst (span isdigit (skipn 5 s))
    /\ some_of isdigit digits = true.
Proof.
  intros s digits H. unfold marker_here in H.
  destruct (starts_with (T "LVL: ") s) eqn:Hs; [|discriminate].
  apply starts_with_app in Hs. change (List.length (T "LVL: ")) with 5 in Hs.
  assert (Hd : digits = fst (span isdigit (skipn 5 s))).
  { destruct (skipn 5 s) as [|c r]; [discriminate|].
    destruct (isdigit c); [|discriminate]. injection H as H. now rewrite <- H. }
  assert (Hne : nonempty digits = true).
  { destruct (skipn 5 s) as [|c r]; [discriminate|].
    destruct (isdigit c) eqn:Hc; [|discriminate].
    rewrite Hd. cbn [span]. rewrite Hc. destruct (span isdigit r). reflexivity. }
  repeat split.
  - rewrite Hd, span_app. exact Hs.
  - exact Hd.
  - unfold some_of. rewrite Hne. rewrite Hd. apply span_all.
Qed.

Lemma marker_here_none :
  forall d rest, marker_here (T "LVL: " ++ d :: rest) = None -> isdigit d = false.
Proof.
  intros d rest H. destruct (isdigit d) eqn:Hd; [|reflexivity].
  exfalso. now apply (marker_here_found d rest Hd).
Qed.

Lemma no_marker_in_bare_prefix : no_marker (T "LVL: ").
Proof.
  intros pre d post H. apply (f_equal (@List.length ascii)) in H.
  rewrite !length_app in H. simpl in H. lia.
Qed.

Lemma first_marker_some :
  forall s digits,
    first_marker s = Some digits ->
    exists pre post,
      s = pre ++ T "LVL: " ++ digits ++ post
      /\ some_of isdigit digits = true
      /\ match post with c :: _ => isdigit c = false | [] => True end
      /\ no_marker (pre ++ T "LVL: ").
Proof.
  induction s as [|c s IH]; intros digits H; rewrite first_marker_eq in H.
  - destruct (marker_here []) eqn:E; [|discriminate].
    vm_compute in E. discriminate.
  - destruct (marker_here (c :: s)) as [ds|] eqn:E.
    + injection H as ->.
      destruct (marker_here_some _ E) as (Hs & Hd & Hne).
      exists [], (snd (span isdigit (skipn 5 (c :: s)))). repeat split.
      * exact Hs.
      * exact Hne.
      * apply span_stops.
      * apply no_marker_in_bare_prefix.
    + destruct (IH digits H) as (pre & post & Hs & Hne & Hpost & Hfirst).
      exists (c :: pre), post. repeat split; try assumption.
      * cbn [List.app]. now rewrite Hs.
      * intros pre' d post' Heq. destruct pre' as [|c' pre'].
        -- apply marker_here_none with (rest := post' ++ digits ++ post).
           rewrite <- E. f_equal. rewrite Hs.
           change (c :: pre ++ T "LVL: " ++ digits ++ post)
             with ((c :: pre) ++ T "LVL: " ++ digits ++ post).
           rewrite (app_assoc (c :: pre)), Heq.
           reflexivity.
        -- cbn [List.app] in Heq. injection Heq as _ Heq.
           eapply Hfirst. exact Heq.
Qed.

Lemma clean_data_rows :
  forall data,
    clean_data data
    = map (fun e =>
             {| col_Timestamp := ts_str (Timestamp e);
                col_Player := Player e;
                col_Event := Event e;
                col_Details := Details e;
                col_Level :=
                  match extract_level (Event e) with
                  | Some digits =>
                      if forallb short_run (map (fun e => extract_level (Event e)) data)
                      then
                        if forallb is_some (map (fun e => extract_level (Event e)) data)
                        then level_int (int_of_digits digits)
                        else level_float (int_of_digits digits)
                      else level_outside digits
                  | None => level_nan
                  end;
                col_Event_Type := categorize_event (Event e) |}) data.
Proof.
  intros data. unfold clean_data, to_numeric.
  generalize (forallb is_some (map (fun e => extract_level (Event e)) data)).
  generalize (forallb short_run (map (fun e => extract_level (Event e)) data)).
  intros x b. induction data as [|e data IH]; [reflexivity|].
  cbn [map combine]. f_equal. exact IH.
Qed.

(** C7, as the code has it.  The level of a row is read from the event
    type, the part of the clause before the first [;]: it is the number
    written by the digits of the first [LVL: <digits>] marker there (for
    the runs of up to 15 digits that the float column holds exactly) and
    missing when the event type has no such marker. *)
Theorem level_is_first_marker_of_event_type :
  forall data : list entry,
    Forall2 (fun e r => col_Event r = Event e
                        /\ level_marker_spec (Event e) (level_value (col_Level r)))
            data (clean_data data).
Proof.
  intros data. rewrite clean_data_rows.
  generalize (forallb is_some (map (fun e => extract_level (Event e)) data)).
  generalize (forallb short_run (map (fun e => extract_level (Event e)) data)).
  intros x b. induction data as [|e data IH]; [constructor|].
  cbn [map]. constructor; [|exact IH].
  cbn [col_Event col_Level]. split; [reflexivity|].
  rewrite extract_level_first_marker.
  destruct (first_marker (Event e)) as [digits|] eqn:E.
  - destruct (first_marker_some _ E) as (pre & post & Hs & Hne & Hpost & Hfirst).
    assert (Hv : level_value (if x then
                                if b then level_int (int_of_digits digits)
                                else level_float (int_of_digits digits)
                              else level_outside digits)
                 = Some (int_of_digits digits)) by (destruct x, b; reflexivity).
    rewrite Hv. exists pre, digits, post. repeat split; auto.
  - simpl. now apply first_marker_none.
Qed.

(** The example of the specification: the marker in the event type. *)
Example joined_with_level_seven :
  map (fun r => (col_Event_Type r, col_Level r))
      (clean_data [ {| Timestamp := []; Player := T "Bob";
                       Event := T "has JOINED the guild LVL: 7";
                       Details := [] |} ])
  = [(Join, level_int 7)].
Proof. vm_compute. reflexivity. Qed.

(** C7, as claimed, fails on a marker after the [;]: it goes to the
    details, and the level read from the event type is missing. *)
Lemma marker_after_semicolon_gives_no_level :
  first_marker (T "has JOINED the guild; LVL: 7") = Some (T "7")
  /\ map (fun r => (col_Event r, col_Details r, col_Level r))
         (clean_data (fst (parse_log est_offset
            (T "1) 3 Jan '24 09:15pm : Bob has JOINED the guild; LVL: 7"))))
     = [(T "has JOINED the guild", T "LVL: 7", level_nan)].
Proof. vm_compute. split; reflexivity. Qed.

(** ** Sorting *)

(** The orders of the columns are total and transitive. *)
Lemma text_leb_total : forall a b, text_leb a b = true \/ text_leb b a = true.
Proof.
  induction a as [|c a IH]; intros b; [left; reflexivity|].
  destruct b as [|d b]; [right; reflexivity|]. simpl.
  destruct (code c <? code d) eqn:E1; destruct (code d <? code c) eqn:E2; auto.
Qed.

Lemma text_leb_trans :
  forall a b c, text_leb a b = true -> text_leb b c = true -> text_leb a c = true.
Proof.
  induction a as [|x a IH]; intros b c Hab Hbc; [reflexivity|].
  destruct b as [|y b]; [discriminate|].
  destruct c as [|z c]; [discriminate|].
  simpl in *.
  destruct (code x <? code y) eqn:Exy; destruct (code y <? code x) eqn:Eyx;
    destruct (code y <? code z) eqn:Eyz; destruct (code z <? code y) eqn:Ezy;
    destruct (code x <? code z) eqn:Exz; destruct (code z <? code x) eqn:Ezx;
    try reflexivity; try discriminate;
    repeat match goal with
           | H : (_ <? _) = true |- _ => apply Nat.ltb_lt in H
           | H : (_ <? _) = false |- _ => apply Nat.ltb_ge in H
           end; try lia.
  eapply IH; eassumption.
Qed.

Lemma datetime_leb_total : forall a b, datetime_leb a b = true \/ datetime_leb b a = true.
Proof.
  intros a b. unfold datetime_leb.
  destruct (Z.leb_spec (to_seconds a) (to_seconds b)); [left; reflexivity|].
  right. apply Z.leb_le. lia.
Qed.

Lemma datetime_leb_trans :
  forall a b c, datetime_leb a b = true -> datetime_leb b c = true ->
                datetime_leb a c = true.
Proof.
  unfold datetime_leb. intros a b c H1 H2.
  apply Z.leb_le in H1, H2. apply Z.leb_le. lia.
Qed.

Lemma ts_leb_total : forall a b, ts_leb a b = true \/ ts_leb b a = true.
Proof.
  intros [x|x|] [y|y|]; simpl; auto using text_leb_total, datetime_leb_total.
Qed.

Lemma ts_leb_trans :
  forall a b c, ts_leb a b = true -> ts_leb b c = true -> ts_leb a c = true.
Proof.
  intros [x|x|] [y|y|] [z|z|]; simpl; intros H1 H2;
    try reflexivity; try discriminate;
    eauto using text_leb_trans, datetime_leb_trans.
Qed.

Lemma level_leb_total : forall a b, level_leb a b = true \/ level_leb b a = true.
Proof.
  intros a b. unfold level_leb.
  destruct (level_value a) as [x|], (level_value b) as [y|]; auto.
  destruct (Z.leb_spec x y); [left; reflexivity|].
  right. apply Z.leb_le. lia.
Qed.

Lemma level_leb_trans :
  forall a b c, level_leb a b = true -> level_leb b c = true -> level_leb a c = true.
Proof.
  intros a b c. unfold level_leb.
  destruct (level_value a) as [x|], (level_value b) as [y|],
           (level_value c) as [z|]; intros H1 H2;
    try reflexivity; try discriminate.
  apply Z.leb_le in H1, H2. apply Z.leb_le. lia.
Qed.

Lemma key_leb_total : forall c, total_on (key_leb c).
Proof.
  intros [] a b; simpl;
    auto using text_leb_total, ts_leb_total, level_leb_total.
Qed.

Lemma key_leb_trans : forall c, transitive_on (key_leb c).
Proof.
  intros [] x y z; simpl;
    eauto using text_leb_trans, ts_leb_trans, level_leb_trans.
Qed.

(** [sort_values] sorts the rows that have a key, keeps every row, and
    puts the rows without a key last. *)
Lemma sort_values_spec :
  forall (srt : sorter) c rows,
    exists keyed,
      sort_values srt c rows = keyed ++ filter (key_isna c) rows
      /\ Permutation (filter (fun r => negb (key_isna c r)) rows) keyed
      /\ StronglySorted (fun a b => key_leb c a b = true) keyed
      /\ Permutation rows (sort_values srt c rows).
Proof.
  intros srt c rows. unfold sort_values.
  exists (sort_rows srt (key_leb c) (filter (fun r => negb (key_isna c r)) rows)).
  repeat split.
  - apply sort_rows_perm.
  - apply sort_rows_sorted; [apply key_leb_total | apply key_leb_trans].
  - rewrite <- sort_rows_perm.
    induction rows as [|r rows IH]; simpl; [constructor|].
    destruct (key_isna c r); simpl.
    + apply Permutation_cons_app. exact IH.
    + now apply perm_skip.
Qed.

(** ** The filter engine *)

(** C10.  With no records loaded [apply_filters] filters nothing and
    leaves the state, the filtered view included, as it was; it only
    shows a warning. *)
Theorem apply_filters_without_data :
  forall to_datetime srt crit st,
    df st = [] ->
    apply_filters to_datetime srt crit st = (st, showwarning no_data_to_filter).
Proof.
  intros to_datetime srt crit st H. unfold apply_filters. now rewrite H.
Qed.

Lemma apply_filters_without_data_witness :
  let st := {| df := []; filtered_df := loaded_rows; filtered_df_columns := true;
               text_area := table loaded_rows |} in
  apply_filters to_datetime_iso insertion_sorter bob_with_bad_start_date st
  = (st, showwarning no_data_to_filter).
Proof.
  apply (apply_filters_without_data to_datetime_iso insertion_sorter
           bob_with_bad_start_date). reflexivity.
Defined.

Lemma loaded_rows_are : loaded_rows = [alice_row; bob_row; bobby_row].
Proof. vm_compute. reflexivity. Qed.

(** The state of the examples is the one loading the three lines leaves. *)
Example loading_three_lines :
  load_file est_offset to_datetime_iso insertion_sorter no_criteria three_lines started
  = (loaded, done).
Proof. vm_compute. reflexivity. Qed.

(** C4.  On the loaded log with the player box set to "bob" and the start
    date to "abc", the error is shown and the text area is left alone,
    but the filtered view, which held the three rows, now holds the two
    that the player filter kept. *)
Theorem bad_date_keeps_partial_filtering :
  let result := apply_filters to_datetime_iso insertion_sorter
                              bob_with_bad_start_date loaded in
  snd result = showerror incorrect_date_format
  /\ filtered_df loaded = [alice_row; bob_row; bobby_row]
  /\ filtered_df (fst result) = [bob_row; bobby_row]
  /\ text_area (fst result) = table [alice_row; bob_row; bobby_row]
  /\ text_area (fst result) = text_area loaded
  /\ df (fst result) = df loaded.
Proof. vm_compute. repeat split; reflexivity. Qed.

(** *** A criterion without special characters is a literal *)

Lemma plain_char_tests :
  forall c,
    plain_char c = true ->
    Ascii.eqb c "\" = false /\ Ascii.eqb c "." = false /\ Ascii.eqb c "^" = false
    /\ Ascii.eqb c "$" = false /\ Ascii.eqb c "*" = false /\ Ascii.eqb c "+" = false
    /\ Ascii.eqb c "?" = false /\ Ascii.eqb c "(" = false /\ Ascii.eqb c ")" = false
    /\ Ascii.eqb c "|" = false /\ Ascii.eqb c "[" = false /\ Ascii.eqb c "{" = false.
Proof.
  intros c H. unfold plain_char in H. apply negb_true_iff in H.
  cbn [T list_ascii_of_string existsb] in H.
  repeat match type of H with
         | (_ || _) = false => let H1 := fresh "F" in
                               apply orb_false_iff in H as [H1 H]
         end.
  repeat split; assumption.
Qed.

Lemma re_parse_plain :
  forall s cur alts_rev stack n,
    all_of plain_char s = true ->
    re_parse s cur alts_rev stack n
    = re_parse [] (rev (map (fun c => (literal_ignorecase c, plain_item)) s) ++ cur)
               alts_rev stack n.
Proof.
  induction s as [|c s IH]; intros cur alts_rev stack n H; [reflexivity|].
  simpl in H. apply andb_true_iff in H as [Hc Hs].
  destruct (plain_char_tests c Hc)
    as (E1 & E2 & E3 & E4 & E5 & E6 & E7 & E8 & E9 & E10 & E11 & E12).
  cbn [re_parse]. rewrite E1, E2, E3, E4, E5, E6, E7, E8, E9, E10, E11, E12.
  cbn [orb]. rewrite IH by exact Hs. cbn [map rev].
  now rewrite <- app_assoc.
Qed.

Lemma re_compile_plain :
  forall s,
    all_of plain_char s = true ->
    re_compile_ignorecase s = re_ok (seqs (map literal_ignorecase s)).
Proof.
  intros s H. unfold re_compile_ignorecase. rewrite re_parse_plain by exact H.
  cbn [re_parse]. unfold finish, seq_of. cbn [rev List.app alts].
  rewrite app_nil_r, map_rev, rev_involutive, map_map. reflexivity.
Qed.

Lemma rx_seqs_cons :
  forall A r rs pos s caps (k : cont A),
    rx (seqs (r :: rs)) pos s caps k
    = rx r pos s caps (fun pos' s' caps' => rx (seqs rs) pos' s' caps' k).
Proof. intros A r [|r' rs] pos s caps k; reflexivity. Qed.

Lemma rx_literal :
  forall A w pos s caps (k : cont A),
    rx (seqs (map literal_ignorecase w)) pos s caps k
    = if starts_with (lower_text w) (lower_text s)
      then k (pos + List.length w) (skipn (List.length w) s) caps
      else None.
Proof.
  intros A w. induction w as [|c w IH]; intros pos s caps k.
  - simpl. now rewrite Nat.add_0_r.
  - cbn [map]. rewrite rx_seqs_cons. unfold literal_ignorecase at 1.
    rewrite rx_cls. destruct s as [|d s]; [reflexivity|].
    cbn [lower_text map starts_with List.length skipn].
    rewrite (Ascii.eqb_sym (lower c) (lower d)).
    destruct (Ascii.eqb (lower d) (lower c)); [|reflexivity].
    cbn [andb]. rewrite IH.
    replace (S pos + List.length w) with (pos + S (List.length w)) by lia.
    reflexivity.
Qed.

Lemma search_literal :
  forall w s pos,
    is_some (search_from (seqs (map literal_ignorecase w)) pos s)
    = contains_ignoring_case w s.
Proof.
  intros w s. unfold contains_ignoring_case.
  induction s as [|d s IH]; intros pos; cbn [search_from]; rewrite rx_literal.
  - cbn [lower_text map contains].
    destruct (starts_with (lower_text w) []); reflexivity.
  - cbn [lower_text map contains]. fold (lower_text s).
    destruct (starts_with (lower_text w) (lower d :: lower_text s));
      [reflexivity|].
    cbn [orb]. apply IH.
Qed.

Lemma select_map :
  forall f rows, select rows (map f rows) = filter f rows.
Proof.
  intros f rows. induction rows as [|r rows IH]; simpl; [reflexivity|].
  destruct (f r); now rewrite IH.
Qed.

Lemma filter_by_contains_plain :
  forall pat col st,
    all_of plain_char pat = true ->
    filter_by_contains pat col st
    = continue (set_filtered_df st
        (filter (fun r => contains_ignoring_case pat (col r)) (filtered_df st))).
Proof.
  intros pat col st H. unfold filter_by_contains, str_contains.
  rewrite re_compile_plain by exact H.
  rewrite map_map, select_map. do 2 f_equal.
  apply filter_ext. intros r. unfold re_search. apply search_literal.
Qed.

(** C6, as the code has it.  A criterion made of characters that [re]
    reads as themselves selects the records whose player contains it,
    letter case apart, and raises nothing. *)
Theorem player_filter_plain_criterion :
  forall to_datetime srt crit st,
    let name := strip (player_entry crit) in
    let kept := filter (fun r => contains_ignoring_case name (col_Player r)) in
    blank (player_entry crit) = false ->
    all_of plain_char name = true ->
    by_player crit st = continue (set_filtered_df st (kept (filtered_df st)))
    /\ (df st <> [] ->
        apply_filters to_datetime srt (only_player (player_entry crit)) st
        = (display_data (kept (df st)) (set_filtered_df st (kept (df st))), done)).
Proof.
  intros to_datetime srt crit st name kept Hb Hp. subst name kept.
  assert (Hstage : forall crit' st0,
             player_entry crit' = player_entry crit ->
             by_player crit' st0
             = continue (set_filtered_df st0
                 (filter (fun r => contains_ignoring_case
                                     (strip (player_entry crit)) (col_Player r))
                         (filtered_df st0)))).
  { intros crit' st0 Hc. unfold by_player. rewrite Hc.
    unfold blank in Hb.
    destruct (strip (player_entry crit)) as [|c w] eqn:E; [discriminate|].
    now apply filter_by_contains_plain. }
  split; [now apply Hstage|].
  intros Hdf. unfold apply_filters.
  destruct (df st) as [|r rows] eqn:E; [congruence|].
  cbn [and_then]. rewrite Hstage by reflexivity. cbn [and_then].
  unfold by_event_type, by_date_range, by_find_string, by_sorting.
  cbn. reflexivity.
Qed.

Lemma player_filter_plain_criterion_witness :
  blank (T " bOB ") = false
  /\ all_of plain_char (strip (T " bOB ")) = true
  /\ by_player (only_player (T " bOB ")) loaded
     = continue (set_filtered_df loaded
         (filter (fun r => contains_ignoring_case (strip (T " bOB ")) (col_Player r))
                 (filtered_df loaded)))
  /\ (df loaded <> [] ->
      apply_filters to_datetime_iso insertion_sorter (only_player (T " bOB ")) loaded
      = (display_data
           (filter (fun r => contains_ignoring_case (strip (T " bOB ")) (col_Player r))
                   (df loaded))
           (set_filtered_df loaded
              (filter (fun r => contains_ignoring_case (strip (T " bOB ")) (col_Player r))
                      (df loaded))),
         done)).
Proof.
  split; [reflexivity|]. split; [reflexivity|].
  exact (player_filter_plain_criterion to_datetime_iso insertion_sorter
           (only_player (T " bOB ")) loaded eq_refl eq_refl).
Defined.

Example bob_criterion_keeps_bob_and_bobby :
  map col_Player
      (filtered_df (fst (apply_filters to_datetime_iso insertion_sorter
                                       (only_player (T " bOB ")) loaded)))
  = [T "Bob"; T "Bobby"].
Proof. vm_compute. reflexivity. Qed.

(** C6, as claimed, fails on a criterion with a special character: "."
    keeps every player, though no player has a "." in its name, and "*"
    raises [re.error]. *)
Lemma special_criterion_is_a_pattern :
  filtered_df (fst (apply_filters to_datetime_iso insertion_sorter
                                  (only_player (T ".")) loaded))
  = [alice_row; bob_row; bobby_row]
  /\ filter (fun r => contains_ignoring_case (T ".") (col_Player r)) (df loaded) = []
  /\ snd (apply_filters to_datetime_iso insertion_sorter (only_player (T "*")) loaded)
     = re_error_raised.
Proof. vm_compute. repeat split; reflexivity. Qed.

(** *** The stages of [apply_filters] *)

Lemma and_then_not_done :
  forall s f, not_done s -> (forall st, not_done (f st)) -> not_done (s >>= f).
Proof. intros [st|st o] f Hs Hf; simpl; auto. Qed.

Lemma filter_by_contains_not_done :
  forall pat col st, not_done (filter_by_contains pat col st).
Proof.
  intros. unfold filter_by_contains. destruct (str_contains _ _); exact I.
Qed.

Lemma by_player_not_done : forall crit st, not_done (by_player crit st).
Proof.
  intros. unfold by_player. destruct (strip _); [exact I|].
  apply filter_by_contains_not_done.
Qed.

Lemma by_event_type_not_done : forall crit st, not_done (by_event_type crit st).
Proof.
  intros. unfold by_event_type. destruct (strip _); [exact I|].
  apply filter_by_contains_not_done.
Qed.

Lemma by_date_range_not_done :
  forall to_datetime crit st, not_done (by_date_range to_datetime crit st).
Proof.
  intros. unfold by_date_range.
  destruct (strip (start_date_entry crit)); [exact I|].
  destruct (strip (end_date_entry crit)); [exact I|].
  destruct (to_datetime _); [|exact I].
  destruct (to_datetime _); [|exact I].
  destruct (to_datetime_column _); [|exact I].
  destruct (is_aware _ || is_aware _); exact I.
Qed.

Lemma by_find_string_not_done : forall crit st, not_done (by_find_string crit st).
Proof.
  intros. unfold by_find_string.
  destruct (strip _); [exact I|].
  destruct (re_compile_ignorecase _), (filtered_df st); try exact I.
  destruct (search_mask _ _); exact I.
Qed.

Lemma by_sorting_not_done : forall srt crit st, not_done (by_sorting srt crit st).
Proof.
  intros. unfold by_sorting. destruct (strip _); [exact I|].
  destruct (column_of_view _ _); [|exact I].
  destruct (sortable _ _); exact I.
Qed.

Lemma filtering_not_done :
  forall to_datetime crit st, not_done (filtering to_datetime crit st).
Proof.
  intros. unfold filtering.
  repeat apply and_then_not_done;
    auto using by_player_not_done, by_event_type_not_done,
               by_date_range_not_done, by_find_string_not_done.
  exact I.
Qed.

(** A run of [apply_filters] that ends normally went through every
    stage. *)
Lemma apply_filters_done :
  forall to_datetime srt crit st st',
    apply_filters to_datetime srt crit st = (st', done) ->
    exists filtered sorted,
      df st <> []
      /\ filtering to_datetime crit (set_filtered_df st (df st)) = continue filtered
      /\ by_sorting srt crit filtered = continue sorted
      /\ st' = display_data (filtered_df sorted) sorted.
Proof.
  intros to_datetime srt crit st st' H. unfold apply_filters in H.
  destruct (df st) as [|r rows] eqn:E; [discriminate|].
  fold (filtering to_datetime crit (set_filtered_df st (r :: rows))) in H.
  pose proof (filtering_not_done to_datetime crit (set_filtered_df st (r :: rows))) as Hn.
  destruct (filtering to_datetime crit (set_filtered_df st (r :: rows)))
    as [filtered|stopped o] eqn:Ef.
  - cbn [and_then] in H.
    pose proof (by_sorting_not_done srt crit filtered) as Hs.
    destruct (by_sorting srt crit filtered) as [sorted|stopped o] eqn:Es.
    + injection H as <-. exists filtered, sorted. repeat split; congruence.
    + injection H as _ ->. contradiction.
  - cbn [and_then] in H. injection H as _ ->. contradiction.
Qed.

Lemma apply_filters_stages :
  forall to_datetime srt crit st filtered sorted,
    df st <> [] ->
    filtering to_datetime crit (set_filtered_df st (df st)) = continue filtered ->
    by_sorting srt crit filtered = continue sorted ->
    apply_filters to_datetime srt crit st
    = (display_data (filtered_df sorted) sorted, done).
Proof.
  intros to_datetime srt crit st filtered sorted Hdf Hf Hs. unfold apply_filters.
  destruct (df st) as [|r rows] eqn:E; [congruence|].
  fold (filtering to_datetime crit (set_filtered_df st (r :: rows))).
  rewrite Hf. cbn [and_then]. now rewrite Hs.
Qed.

Lemma column_of_name_nonempty :
  forall name c, column_of_name name = Some c -> name <> [].
Proof. intros name c H ->. vm_compute in H. discriminate. Qed.

(** C5, as the code has it.  Sorting by a column keeps the records of the
    filtered view and orders them: the records with a key come first, in
    ascending order of the key, and the records whose key is missing
    come last, in the order they had.  Nothing more is said of records
    with equal keys.  The view is the one that the run without the sort
    key leaves; it is sorted when it still has its columns, which it has
    lost when the filters had emptied it before a search was made in it,
    and when its keys are within the model, which for [Level] holds
    numbers of 15 digits at most. *)
Theorem sort_by_column_orders_view :
  forall to_datetime srt crit st unsorted c,
    column_of_name (strip (sort_by_combo crit)) = Some c ->
    apply_filters to_datetime srt (without_sorting crit) st = (unsorted, done) ->
    filtered_df_columns unsorted = true ->
    sortable c (filtered_df unsorted) = true ->
    exists sorted keyed,
      apply_filters to_datetime srt crit st = (sorted, done)
      /\ filtered_df sorted = keyed ++ filter (key_isna c) (filtered_df unsorted)
      /\ Permutation (filter (fun r => negb (key_isna c r)) (filtered_df unsorted)) keyed
      /\ StronglySorted (fun a b => key_leb c a b = true) keyed
      /\ Permutation (filtered_df unsorted) (filtered_df sorted).
Proof.
  intros to_datetime srt crit st unsorted c Hc H Hcols Hkeys.
  apply apply_filters_done in H as (filtered & same & Hdf & Hf & Hs & ->).
  change (filtering to_datetime (without_sorting crit))
    with (filtering to_datetime crit) in Hf.
  assert (same = filtered) by (vm_compute in Hs; congruence). subst same.
  cbn [display_data filtered_df filtered_df_columns] in Hcols, Hkeys.
  destruct (sort_values_spec srt c (filtered_df filtered))
    as (keyed & Hv & Hp & Hsorted & Hperm).
  exists (display_data (sort_values srt c (filtered_df filtered))
            (set_filtered_df filtered (sort_values srt c (filtered_df filtered)))),
         keyed.
  split.
  - eapply apply_filters_stages; [exact Hdf | exact Hf |].
    unfold by_sorting, column_of_view.
    pose proof (column_of_name_nonempty Hc) as Hne.
    destruct (strip (sort_by_combo crit)) as [|x w]; [congruence|].
    now rewrite Hcols, Hc, Hkeys.
  - cbn [display_data set_filtered_df filtered_df]. auto.
Qed.

Lemma sort_by_column_orders_view_witness :
  column_of_name (strip (sort_by_combo sorted_by_level)) = Some Level_col
  /\ apply_filters to_datetime_iso insertion_sorter
                   (without_sorting sorted_by_level) ranked = (ranked, done)
  /\ filtered_df_columns ranked = true
  /\ sortable Level_col (filtered_df ranked) = true
  /\ exists sorted keyed,
      apply_filters to_datetime_iso insertion_sorter sorted_by_level ranked
      = (sorted, done)
      /\ filtered_df sorted = keyed ++ filter (key_isna Level_col) (filtered_df ranked)
      /\ Permutation (filter (fun r => negb (key_isna Level_col r))
                             (filtered_df ranked)) keyed
      /\ StronglySorted (fun a b => key_leb Level_col a b = true) keyed
      /\ Permutation (filtered_df ranked) (filtered_df sorted).
Proof.
  assert (H : apply_filters to_datetime_iso insertion_sorter
                            (without_sorting sorted_by_level) ranked = (ranked, done))
    by (vm_compute; reflexivity).
  split; [vm_compute; reflexivity|]. split; [exact H|].
  split; [reflexivity|]. split; [vm_compute; reflexivity|].
  apply (sort_by_column_orders_view to_datetime_iso insertion_sorter
           sorted_by_level ranked (unsorted := ranked));
    [vm_compute; reflexivity | exact H | reflexivity | vm_compute; reflexivity].
Defined.

(** The run of the example: Carol, of level 7, comes before Alice, of
    level 12, and Bob, who has no level, comes last. *)
Example sorted_by_level_puts_missing_level_last :
  map (fun r => (col_Player r, col_Level r))
      (filtered_df (fst (apply_filters to_datetime_iso insertion_sorter
                                       sorted_by_level ranked)))
  = [ (T "Carol", level_float 7); (T "Alice", level_float 12);
      (T "Bob", level_nan) ].
Proof. vm_compute. reflexivity. Qed.

Lemma empty_text_is_least : forall x, text_leb [] x = true.
Proof. reflexivity. Qed.

(** C5, as claimed, fails on the order of the records without a
    timestamp: their key is the empty string, the least of all strings,
    so sorting the loaded log by Timestamp puts Bob, who has none,
    first. *)
Lemma record_without_timestamp_sorts_first :
  let sorted := fst (apply_filters to_datetime_iso insertion_sorter
                                   sorted_by_timestamp loaded) in
  filtered_df sorted = [bob_row; alice_row; bobby_row]
  /\ map col_Timestamp (filtered_df sorted)
     = [ ts_str []; ts_str (T "2024-01-03 04:15:00 PM");
         ts_str (T "2024-01-05 06:30:00 AM") ]
  /\ null_timestamp_before_value (filtered_df sorted) = true.
Proof. vm_compute. repeat split; reflexivity. Qed.

(** *** The date filter and the Timestamp column *)

Lemma narrows_refl : forall st, narrows st st.
Proof. intros st. split; [reflexivity | apply incl_refl]. Qed.

Lemma narrows_trans :
  forall a b c, narrows a b -> narrows b c -> narrows a c.
Proof.
  intros a b c [H1 H2] [H3 H4]. split; [congruence|].
  eapply incl_tran; eassumption.
Qed.

Lemma select_incl : forall rows mask, incl (select rows mask) rows.
Proof.
  induction rows as [|r rows IH]; intros mask; simpl; [apply incl_refl|].
  destruct mask as [|[] mask]; simpl.
  - apply incl_nil_l.
  - apply incl_cons; [left; reflexivity | apply incl_tl; apply IH].
  - apply incl_tl. apply IH.
Qed.

Lemma filter_by_contains_narrows :
  forall pat col st st',
    filter_by_contains pat col st = continue st' -> narrows st st'.
Proof.
  intros pat col st st' H. unfold filter_by_contains in H.
  destruct (str_contains _ _); try discriminate.
  injection H as <-. split; [reflexivity | apply select_incl].
Qed.

Lemma by_player_narrows :
  forall crit st st', by_player crit st = continue st' -> narrows st st'.
Proof.
  intros crit st st' H. unfold by_player in H.
  destruct (strip _); [injection H as <-; apply narrows_refl|].
  eapply filter_by_contains_narrows; eassumption.
Qed.

Lemma by_event_type_narrows :
  forall crit st st', by_event_type crit st = continue st' -> narrows st st'.
Proof.
  intros crit st st' H. unfold by_event_type in H.
  destruct (strip _); [injection H as <-; apply narrows_refl|].
  eapply filter_by_contains_narrows; eassumption.
Qed.



Lemma by_date_range_inactive :
  forall to_datetime crit st,
    date_filter_active crit = false ->
    by_date_range to_datetime crit st = continue st.
Proof.
  intros to_datetime crit st H. unfold date_filter_active, blank in H.
  unfold by_date_range.
  destruct (strip (start_date_entry crit)); [reflexivity|].
  destruct (strip (end_date_entry crit)); [reflexivity | discriminate].
Qed.

Lemma by_date_range_active :
  forall to_datetime crit st st',
    date_filter_active crit = true ->
    by_date_range to_datetime crit st = continue st' ->
    df st' = df st /\ Forall is_time (filtered_df st').
Proof.
  intros to_datetime crit st st' Ha H.
  unfold date_filter_active, blank in Ha. unfold by_date_range in H.
  destruct (strip (start_date_entry crit)) as [|x1 w1]; [discriminate|].
  destruct (strip (end_date_entry crit)) as [|x2 w2]; [discriminate|].
  destruct (to_datetime (x1 :: w1)) as [start_date|]; [|discriminate].
  destruct (to_datetime (x2 :: w2)) as [end_date|]; [|discriminate].
  destruct (to_datetime_column _) as [cells|]; [|discriminate].
  destruct (is_aware _ || is_aware _); [discriminate|].
  injection H as <-. split; [reflexivity|].
  cbn [set_filtered_df filtered_df]. apply Forall_forall.
  intros r Hr. apply filter_In in Hr as [_ Hr].
  unfold in_bounds, in_date_range in Hr. unfold is_time.
  destruct start_date, end_date; try discriminate.
  destruct (col_Timestamp r) as [s|tm|]; try discriminate. eauto.
Qed.

(** *** The sorted order does not depend on the sort *)

(** Two sorted arrangements of the same rows are the same list when no
    two distinct rows have equivalent keys. *)
Lemma sorted_arrangement_unique :
  forall (le : row -> row -> bool) l1 l2,
    (forall a b, In a l1 -> In b l1 ->
                 le a b = true -> le b a = true -> a = b) ->
    Permutation l1 l2 ->
    StronglySorted (fun a b => le a b = true) l1 ->
    StronglySorted (fun a b => le a b = true) l2 ->
    l1 = l2.
Proof.
  intros le l1. induction l1 as [|a l1 IH]; intros l2 Hanti Hp H1 H2.
  - apply Permutation_nil in Hp. now subst.
  - destruct l2 as [|b l2]; [symmetry in Hp; now apply Permutation_nil in Hp|].
    inversion H1 as [|? ? Hs1 Ha]; subst. inversion H2 as [|? ? Hs2 Hb]; subst.
    assert (Hab : a = b).
    { assert (Hina : In a (b :: l2)) by (eapply Permutation_in; [exact Hp | now left]).
      assert (Hinb : In b (a :: l1))
        by (eapply Permutation_in; [symmetry; exact Hp | now left]).
      destruct Hina as [->|Hina]; [reflexivity|].
      destruct Hinb as [->|Hinb]; [reflexivity|].
      rewrite Forall_forall in Ha, Hb.
      apply Hanti; [now left | now right | now apply Ha | now apply Hb]. }
    subst b. f_equal. apply IH; try assumption.
    + intros x y Hx Hy. apply Hanti; now right.
    + eapply Permutation_cons_inv; exact Hp.
Qed.

(** Whatever the sort, sorting the loaded log by Timestamp puts the
    record without a timestamp first. *)
Lemma any_sort_puts_missing_timestamp_first :
  forall srt : sorter,
    filtered_df (fst (apply_filters to_datetime_iso srt sorted_by_timestamp loaded))
    = [bob_row; alice_row; bobby_row].
Proof.
  intros srt.
  assert (Hv : filtered_df (fst (apply_filters to_datetime_iso srt
                                               sorted_by_timestamp loaded))
               = sort_values srt Timestamp_col loaded_rows) by reflexivity.
  rewrite Hv, loaded_rows_are.
  destruct (sort_values_spec srt Timestamp_col [alice_row; bob_row; bobby_row])
    as (keyed & -> & Hp & Hs & _).
  change (filter (key_isna Timestamp_col) [alice_row; bob_row; bobby_row])
    with (@nil row).
  change (filter (fun r => negb (key_isna Timestamp_col r))
                 [alice_row; bob_row; bobby_row])
    with [alice_row; bob_row; bobby_row] in Hp.
  rewrite app_nil_r. symmetry.
  apply (sorted_arrangement_unique (key_leb Timestamp_col)).
  - intros a b Ha Hb H1 H2. cbn [In] in Ha, Hb.
    destruct Ha as [<-|[<-|[<-|[]]]]; destruct Hb as [<-|[<-|[<-|[]]]];
      try reflexivity; vm_compute in H1, H2; discriminate.
  - rewrite <- Hp. apply perm_swap.
  - repeat constructor.
  - exact Hs.
Qed.

(** * The application as a whole *)

(** ** How the stages of [apply_filters] treat the state *)

Lemma and_then_related :
  forall (R : GuildLogAnalyzerApp -> GuildLogAnalyzerApp -> Prop) st0 s f,
    (forall a b c, R a b -> R b c -> R a c) ->
    R st0 (step_state s) ->
    (forall st, R st (step_state (f st))) ->
    R st0 (step_state (s >>= f)).
Proof.
  intros R st0 [st|st o] f Htrans Hs Hf; simpl in *.
  - eapply Htrans; [exact Hs | apply Hf].
  - exact Hs.
Qed.

(** A relation on states that every stage respects is respected by the
    stages in a row, wherever they stop. *)
Lemma stages_related :
  forall (R : GuildLogAnalyzerApp -> GuildLogAnalyzerApp -> Prop)
         to_datetime srt crit,
    (forall st, R st st) ->
    (forall a b c, R a b -> R b c -> R a c) ->
    (forall st, R st (step_state (by_player crit st))) ->
    (forall st, R st (step_state (by_event_type crit st))) ->
    (forall st, R st (step_state (by_date_range to_datetime crit st))) ->
    (forall st, R st (step_state (by_find_string crit st))) ->
    (forall st, R st (step_state (by_sorting srt crit st))) ->
    forall st, R st (step_state (stages to_datetime srt crit st)).
Proof.
  intros R to_datetime srt crit Hrefl Htrans H1 H2 H3 H4 H5 st.
  unfold stages, filtering.
  repeat (apply and_then_related; [exact Htrans | | assumption]).
  simpl. apply Hrefl.
Qed.

Lemma apply_filters_stages_of :
  forall to_datetime srt crit st,
    df st <> [] ->
    apply_filters to_datetime srt crit st
    = match stages to_datetime srt crit (set_filtered_df st (df st)) with
      | continue st' => (display_data (filtered_df st') st', done)
      | stop st' o => (st', o)
      end.
Proof.
  intros to_datetime srt crit st H. unfold apply_filters, stages, filtering.
  destruct (df st); [congruence | reflexivity].
Qed.

Lemma stages_not_done :
  forall to_datetime srt crit st, not_done (stages to_datetime srt crit st).
Proof.
  intros. unfold stages. apply and_then_not_done.
  - apply filtering_not_done.
  - intro. apply by_sorting_not_done.
Qed.

Lemma same_frame_refl : forall st, same_frame st st.
Proof. intro; split; reflexivity. Qed.

Lemma same_frame_trans :
  forall a b c, same_frame a b -> same_frame b c -> same_frame a c.
Proof. intros a b c [H1 H2] [H3 H4]. split; congruence. Qed.

Lemma filter_by_contains_frame :
  forall pat col st, same_frame st (step_state (filter_by_contains pat col st)).
Proof.
  intros. unfold filter_by_contains.
  destruct (str_contains _ _); split; reflexivity.
Qed.

Lemma stages_frame :
  forall to_datetime srt crit st,
    same_frame st (step_state (stages to_datetime srt crit st)).
Proof.
  intros to_datetime srt crit.
  apply stages_related; try exact same_frame_refl; try exact same_frame_trans; intro st.
  - unfold by_player. destruct (strip _);
      [apply same_frame_refl | apply filter_by_contains_frame].
  - unfold by_event_type. destruct (strip _);
      [apply same_frame_refl | apply filter_by_contains_frame].
  - unfold by_date_range.
    destruct (strip (start_date_entry crit)); [apply same_frame_refl|].
    destruct (strip (end_date_entry crit)); [apply same_frame_refl|].
    destruct (to_datetime _); [|apply same_frame_refl].
    destruct (to_datetime _); [|apply same_frame_refl].
    destruct (to_datetime_column _); [|apply same_frame_refl].
    destruct (is_aware _ || is_aware _); split; reflexivity.
  - unfold by_find_string.
    destruct (strip _); [apply same_frame_refl|].
    destruct (re_compile_ignorecase _), (filtered_df st);
      try (split; reflexivity).
    destruct (search_mask _ _); split; reflexivity.
  - unfold by_sorting.
    destruct (strip _); [apply same_frame_refl|].
    destruct (column_of_view _ _); [|split; reflexivity].
    destruct (sortable _ _); split; reflexivity.
Qed.

(** The stages read the filtered view only: the frame and the text area
    go through them untouched and unread. *)
Lemma and_then_set_frame :
  forall s f frame area,
    (forall st, f (set_frame st frame area) = step_set_frame (f st) frame area) ->
    step_set_frame s frame area >>= f = step_set_frame (s >>= f) frame area.
Proof. intros [st|st o] f frame area H; simpl; [apply H | reflexivity]. Qed.

Lemma filter_by_contains_set_frame :
  forall pat col st frame area,
    filter_by_contains pat col (set_frame st frame area)
    = step_set_frame (filter_by_contains pat col st) frame area.
Proof.
  intros. unfold filter_by_contains. cbn [set_frame filtered_df].
  destruct (str_contains _ _); reflexivity.
Qed.

Lemma stages_set_frame :
  forall to_datetime srt crit st frame area,
    stages to_datetime srt crit (set_frame st frame area)
    = step_set_frame (stages to_datetime srt crit st) frame area.
Proof.
  intros to_datetime srt crit st frame area. unfold stages, filtering.
  change (continue (set_frame st frame area))
    with (step_set_frame (continue st) frame area).
  repeat (rewrite and_then_set_frame; [|clear st; intro st]); try reflexivity.
  - unfold by_sorting, column_of_view.
    cbn [set_frame filtered_df filtered_df_columns].
    destruct (strip _); [reflexivity|].
    destruct (if filtered_df_columns st then _ else _); [|reflexivity].
    destruct (sortable _ _); reflexivity.
  - unfold by_find_string. cbn [set_frame filtered_df].
    destruct (strip _); [reflexivity|].
    destruct (re_compile_ignorecase _), (filtered_df st); try reflexivity.
    destruct (search_mask _ _); reflexivity.
  - unfold by_date_range. cbn [set_frame filtered_df].
    destruct (strip (start_date_entry crit)); [reflexivity|].
    destruct (strip (end_date_entry crit)); [reflexivity|].
    destruct (to_datetime _); [|reflexivity].
    destruct (to_datetime _); [|reflexivity].
    destruct (to_datetime_column _); [|reflexivity].
    destruct (is_aware _ || is_aware _); reflexivity.
  - unfold by_event_type. destruct (strip _);
      [reflexivity | apply filter_by_contains_set_frame].
  - unfold by_player. destruct (strip _);
      [reflexivity | apply filter_by_contains_set_frame].
Qed.

(** X1.  [apply_filters] never changes the loaded frame, however it ends,
    and it rewrites the text area only when it ends normally, with the
    filtered view it leaves ([display_data]); after a warning, an error
    message or an exception the text area is as it was. *)
Theorem apply_filters_keeps_frame :
  forall to_datetime srt crit st,
    let result := apply_filters to_datetime srt crit st in
    df (fst result) = df st
    /\ text_area (fst result)
       = match snd result with
         | done => shown (filtered_df (fst result))
         | _ => text_area st
         end.
Proof.
  intros to_datetime srt crit st result. subst result.
  destruct (df st) eqn:E.
  - unfold apply_filters. rewrite E. simpl. auto.
  - rewrite apply_filters_stages_of by congruence.
    pose proof (stages_frame to_datetime srt crit (set_filtered_df st (df st)))
      as [Hd Ht].
    pose proof (stages_not_done to_datetime srt crit (set_filtered_df st (df st)))
      as Hn.
    destruct (stages _ _ _ _) as [st'|st' o]; simpl in *.
    + split; [congruence | reflexivity].
    + split; [congruence|]. destruct o; try exact Ht. contradiction.
Qed.


(** X3.  What [apply_filters] computes depends on the loaded frame and
    the criteria only: the filtered view and the text area it starts
    from have no part in the view it leaves nor in how it ends. *)
Theorem apply_filters_reads_frame_only :
  forall to_datetime srt crit st1 st2,
    df st1 = df st2 ->
    df st1 <> [] ->
    filtered_df (fst (apply_filters to_datetime srt crit st1))
    = filtered_df (fst (apply_filters to_datetime srt crit st2))
    /\ snd (apply_filters to_datetime srt crit st1)
       = snd (apply_filters to_datetime srt crit st2).
Proof.
  intros to_datetime srt crit st1 st2 Hdf Hne.
  rewrite (apply_filters_stages_of to_datetime srt crit st1 Hne).
  rewrite (apply_filters_stages_of to_datetime srt crit st2) by congruence.
  replace (set_filtered_df st2 (df st2))
    with (set_frame (set_filtered_df st1 (df st1)) (df st2) (text_area st2))
    by (unfold set_frame, set_filtered_df;
        cbn [df filtered_df filtered_df_columns text_area];
        rewrite Hdf; reflexivity).
  rewrite stages_set_frame.
  destruct (stages _ _ _ _) as [st'|st' o]; split; reflexivity.
Qed.

Lemma apply_filters_reads_frame_only_witness :
  df loaded = df loaded_not_displayed
  /\ df loaded <> []
  /\ filtered_df (fst (apply_filters to_datetime_iso insertion_sorter
                                     bob_with_bad_start_date loaded))
     = filtered_df (fst (apply_filters to_datetime_iso insertion_sorter
                                       bob_with_bad_start_date loaded_not_displayed))
  /\ snd (apply_filters to_datetime_iso insertion_sorter
                        bob_with_bad_start_date loaded)
     = snd (apply_filters to_datetime_iso insertion_sorter
                          bob_with_bad_start_date loaded_not_displayed).
Proof.
  assert (Hne : df loaded <> []).
  { unfold loaded. cbn [df]. rewrite loaded_rows_are. discriminate. }
  split; [reflexivity|]. split; [exact Hne|].
  exact (apply_filters_reads_frame_only to_datetime_iso insertion_sorter
           bob_with_bad_start_date loaded loaded_not_displayed eq_refl Hne).
Defined.

Lemma filtering_without_sorting :
  forall to_datetime crit st,
    filtering to_datetime (without_sorting crit) st = filtering to_datetime crit st.
Proof. reflexivity. Qed.

Lemma state_of_frame :
  forall before after,
    same_frame before after ->
    after = {| df := df before; filtered_df := filtered_df after;
               filtered_df_columns := filtered_df_columns after;
               text_area := text_area before |}.
Proof. intros before [d v cols a] [H1 H2]. cbn in *. subst. reflexivity. Qed.

Lemma filtering_frame :
  forall to_datetime crit st,
    same_frame st (step_state (filtering to_datetime crit st)).
Proof.
  intros to_datetime crit st.
  pose proof (stages_frame to_datetime insertion_sorter (without_sorting crit) st) as H.
  unfold stages in H. rewrite filtering_without_sorting in H.
  destruct (filtering to_datetime crit st); exact H.
Qed.

(** X4.  A sort key that names no column stops [apply_filters] after the
    filtering and before the display: the error is shown, the view
    already holds the records that the other criteria keep, unsorted,
    and the text area still shows what it showed.  A run that the other
    criteria stop ends as it does without the sort key. *)
Theorem unknown_sort_key_stops_after_filtering :
  forall to_datetime srt crit st,
    blank (sort_by_combo crit) = false ->
    column_of_name (strip (sort_by_combo crit)) = None ->
    apply_filters to_datetime srt crit st
    = match apply_filters to_datetime srt (without_sorting crit) st with
      | (unsorted, done) =>
          ({| df := df st; filtered_df := filtered_df unsorted;
              filtered_df_columns := filtered_df_columns unsorted;
              text_area := text_area st |},
           showerror (cannot_sort_by (strip (sort_by_combo crit))))
      | stopped => stopped
      end.
Proof.
  intros to_datetime srt crit st Hblank Hcol.
  destruct (df st) eqn:E.
  - unfold apply_filters. rewrite E. reflexivity.
  - assert (Hne : df st <> []) by congruence. rewrite <- E. clear E.
    rewrite !apply_filters_stages_of by exact Hne.
    unfold stages. rewrite filtering_without_sorting.
    pose proof (filtering_frame to_datetime crit (set_filtered_df st (df st))) as Hf.
    pose proof (filtering_not_done to_datetime crit (set_filtered_df st (df st))) as Hn.
    destruct (filtering _ _ _) as [st'|st' o]; cbn [and_then step_state] in *.
    + unfold by_sorting, column_of_view. cbn [without_sorting sort_by_combo].
      unfold blank in Hblank. rewrite Hcol.
      destruct (strip (sort_by_combo crit)) eqn:Es; [discriminate|].
      change (strip []) with (@nil ascii).
      cbn [display_data filtered_df filtered_df_columns].
      replace (if filtered_df_columns st' then None else None)
        with (@None column) by (destruct (filtered_df_columns st'); reflexivity).
      f_equal. apply (state_of_frame Hf).
    + destruct o; try reflexivity. contradiction.
Qed.

Lemma unknown_sort_key_stops_after_filtering_witness :
  blank (sort_by_combo bob_sorted_by_rank) = false
  /\ column_of_name (strip (sort_by_combo bob_sorted_by_rank)) = None
  /\ apply_filters to_datetime_iso insertion_sorter bob_sorted_by_rank loaded
     = match apply_filters to_datetime_iso insertion_sorter
                           (without_sorting bob_sorted_by_rank) loaded with
       | (unsorted, done) =>
           ({| df := df loaded; filtered_df := filtered_df unsorted;
               filtered_df_columns := filtered_df_columns unsorted;
               text_area := text_area loaded |},
            showerror (cannot_sort_by (strip (sort_by_combo bob_sorted_by_rank))))
       | stopped => stopped
       end.
Proof.
  split; [reflexivity|]. split; [reflexivity|].
  exact (unknown_sort_key_stops_after_filtering to_datetime_iso insertion_sorter
           bob_sorted_by_rank loaded eq_refl eq_refl).
Defined.

Lemma and_then_ext :
  forall s f g, (forall st, f st = g st) -> s >>= f = s >>= g.
Proof. intros [st|st o] f g H; simpl; [apply H | reflexivity]. Qed.

(** X5.  A date bound is consulted only when both boxes are filled: with
    one of them empty the other is not even parsed, so that a malformed
    lone bound goes unnoticed and the run is the run without dates. *)
Theorem lone_date_bound_is_ignored :
  forall to_datetime to_datetime' srt crit st,
    date_filter_active crit = false ->
    apply_filters to_datetime srt crit st
    = apply_filters to_datetime' srt (without_dates crit) st.
Proof.
  intros to_datetime to_datetime' srt crit st H.
  unfold apply_filters. destruct (df st); [reflexivity|].
  replace (continue (set_filtered_df st (r :: l)) >>= by_player crit
           >>= by_event_type crit >>= by_date_range to_datetime crit)
    with (continue (set_filtered_df st (r :: l)) >>= by_player (without_dates crit)
          >>= by_event_type (without_dates crit)
          >>= by_date_range to_datetime' (without_dates crit)).
  - reflexivity.
  - apply and_then_ext. intro st0.
    rewrite (by_date_range_inactive to_datetime crit st0 H).
    reflexivity.
Qed.

Lemma lone_date_bound_is_ignored_witness :
  date_filter_active bob_with_start_date_only = false
  /\ apply_filters to_datetime_iso insertion_sorter bob_with_start_date_only loaded
     = apply_filters (fun _ => None) insertion_sorter
                     (without_dates bob_with_start_date_only) loaded.
Proof.
  split; [reflexivity|].
  exact (lone_date_bound_is_ignored to_datetime_iso (fun _ => None) insertion_sorter
           bob_with_start_date_only loaded eq_refl).
Defined.

(** ** [str.strip] *)

Lemma lstrip_lstrip : forall s, lstrip (lstrip s) = lstrip s.
Proof.
  induction s as [|c s IH]; [reflexivity|].
  simpl. destruct (isspace c) eqn:E; [exact IH|].
  simpl. rewrite E. reflexivity.
Qed.

Lemma lstrip_app_unspaced :
  forall a c, isspace c = false -> lstrip (a ++ [c]) = lstrip a ++ [c].
Proof.
  intros a c Hc. induction a as [|d a IH]; simpl.
  - rewrite Hc. reflexivity.
  - destruct (isspace d); [exact IH | reflexivity].
Qed.

Lemma rstrip_cons_unspaced :
  forall c s, isspace c = false -> rstrip (c :: s) = c :: rstrip s.
Proof.
  intros c s Hc. unfold rstrip. simpl.
  rewrite lstrip_app_unspaced by exact Hc.
  rewrite rev_app_distr. reflexivity.
Qed.

Lemma rstrip_rstrip : forall s, rstrip (rstrip s) = rstrip s.
Proof.
  intro s. unfold rstrip. rewrite rev_involutive, lstrip_lstrip. reflexivity.
Qed.

Lemma lstrip_starts_unspaced :
  forall s, match lstrip s with c :: _ => isspace c = false | [] => True end.
Proof.
  induction s as [|c s IH]; simpl; [exact I|].
  destruct (isspace c) eqn:E; [exact IH | exact E].
Qed.

(** A trimmed text stays as it is when trimmed again. *)
Lemma strip_strip : forall s, strip (strip s) = strip s.
Proof.
  intro s. unfold strip.
  pose proof (lstrip_starts_unspaced s) as H.
  destruct (lstrip s) as [|c t] eqn:E.
  - reflexivity.
  - rewrite rstrip_cons_unspaced by exact H.
    rewrite lstrip_unspaced by exact H.
    rewrite <- rstrip_cons_unspaced by exact H.
    apply rstrip_rstrip.
Qed.

(** X6.  Blanks around what is typed in a filter box never matter: every
    box is trimmed before it is read, so the criteria and the criteria
    trimmed give the same state and the same outcome. *)
Theorem criteria_are_read_trimmed :
  forall to_datetime srt crit st,
    apply_filters to_datetime srt (trimmed crit) st
    = apply_filters to_datetime srt crit st.
Proof.
  intros to_datetime srt crit st.
  assert (H1 : forall st0, by_player (trimmed crit) st0 = by_player crit st0).
  { intro. unfold by_player. cbn [trimmed player_entry].
    rewrite strip_strip. reflexivity. }
  assert (H2 : forall st0, by_event_type (trimmed crit) st0 = by_event_type crit st0).
  { intro. unfold by_event_type. cbn [trimmed event_type_combo].
    rewrite strip_strip. reflexivity. }
  assert (H3 : forall st0, by_date_range to_datetime (trimmed crit) st0
                           = by_date_range to_datetime crit st0).
  { intro. unfold by_date_range. cbn [trimmed start_date_entry end_date_entry].
    rewrite !strip_strip. reflexivity. }
  assert (H4 : forall st0, by_find_string (trimmed crit) st0 = by_find_string crit st0).
  { intro. unfold by_find_string. cbn [trimmed find_entry].
    rewrite strip_strip. reflexivity. }
  assert (H5 : forall st0, by_sorting srt (trimmed crit) st0 = by_sorting srt crit st0).
  { intro. unfold by_sorting. cbn [trimmed sort_by_combo].
    rewrite strip_strip. reflexivity. }
  unfold apply_filters. destruct (df st); [reflexivity|].
  rewrite (and_then_ext _ _ _ H5), (and_then_ext _ _ _ H4),
          (and_then_ext _ _ _ H3), (and_then_ext _ _ _ H2).
  cbn [and_then]. rewrite H1. reflexivity.
Qed.

(** ** The text criteria *)

Lemma filter_true : forall (l : list row), filter (fun _ => true) l = l.
Proof. induction l as [|r l IH]; simpl; congruence. Qed.

Lemma filter_twice :
  forall (f g : row -> bool) l,
    filter g (filter f l) = filter (fun r => f r && g r) l.
Proof.
  intros f g. induction l as [|r l IH]; simpl; [reflexivity|].
  destruct (f r); simpl; [destruct (g r)|]; congruence.
Qed.

Lemma set_filtered_df_same :
  forall st,
    filtered_df_columns st = true -> set_filtered_df st (filtered_df st) = st.
Proof. intros [d v cols a] H. cbn in H. subst cols. reflexivity. Qed.

(** A stage that filters one column by a plain box. *)
Lemma column_stage_plain :
  forall box col st,
    plain box = true ->
    filtered_df_columns st = true ->
    match strip box with
    | [] => continue st
    | _ :: _ => filter_by_contains (strip box) col st
    end
    = continue (set_filtered_df st
        (filter (fun r => criterion_holds box [col r]) (filtered_df st))).
Proof.
  intros box col st Hplain Hcols. unfold criterion_holds, blank.
  destruct (strip box) as [|c s] eqn:E.
  - cbn [orb]. rewrite filter_true, set_filtered_df_same by exact Hcols.
    reflexivity.
  - rewrite filter_by_contains_plain by (rewrite <- E; exact Hplain).
    do 2 f_equal. apply filter_ext. intro r. cbn [orb existsb].
    rewrite orb_false_r. reflexivity.
Qed.

(** The search for a plain text in cells where it is settled. *)
Lemma cells_match_plain :
  forall box cells,
    forallb (cell_settled box) cells = true ->
    let found := map (cell_matches (seqs (map literal_ignorecase (strip box)))) cells in
    existsb is_found found
    = existsb (contains_ignoring_case (strip box)) (flat_map written cells)
    /\ forallb is_some found = true.
Proof.
  intros box. induction cells as [|c cells IH]; intro H; [split; reflexivity|].
  cbn [forallb] in H. apply andb_prop in H as [Hc Hcells].
  destruct (IH Hcells) as [IH1 IH2]. cbn zeta in *.
  cbn [map existsb forallb flat_map]. rewrite IH1, IH2.
  destruct c as [s|s|]; cbn [cell_settled] in Hc; [| |discriminate];
    cbn [cell_matches written List.app]; unfold re_search;
    rewrite search_literal.
  - cbn [is_some existsb andb].
    destruct (contains_ignoring_case (strip box) s); split; reflexivity.
  - apply negb_true_iff in Hc. rewrite Hc. split; reflexivity.
Qed.

Lemma search_mask_plain :
  forall box rows,
    forallb (fun r => forallb (cell_settled box) (row_strings r)) rows = true ->
    search_mask (seqs (map literal_ignorecase (strip box))) rows
    = Some (map (fun r => existsb (contains_ignoring_case (strip box)) (row_texts r))
                rows).
Proof.
  intros box. induction rows as [|r rows IH]; intro H; [reflexivity|].
  cbn [forallb] in H. apply andb_prop in H as [Hr Hrows].
  cbn [search_mask map]. rewrite (IH Hrows).
  unfold row_matches. destruct (cells_match_plain _ _ Hr) as [H1 H2].
  cbn zeta in H1, H2. rewrite H1, H2. unfold row_texts.
  destruct (existsb _ (flat_map written (row_strings r))); reflexivity.
Qed.

Lemma forallb_filter :
  forall (f g : row -> bool) rows,
    forallb f rows = true -> forallb f (filter g rows) = true.
Proof.
  intros f g. induction rows as [|r rows IH]; intro H; [reflexivity|].
  cbn [forallb] in H. apply andb_prop in H as [Hr Hrows].
  cbn [filter]. destruct (g r); cbn [forallb]; [rewrite Hr|]; apply IH, Hrows.
Qed.

Lemma search_settled_filter :
  forall box g rows,
    search_settled box rows = true -> search_settled box (filter g rows) = true.
Proof.
  intros box g rows H. unfold search_settled in *.
  destruct (blank box); [reflexivity|]. cbn [orb] in *.
  apply forallb_filter. exact H.
Qed.

(** The search for a plain text that is settled keeps the rows with a
    cell that contains it.  It leaves the view its columns when the box
    is blank. *)
Lemma by_find_string_plain :
  forall crit st,
    plain (find_entry crit) = true ->
    search_settled (find_entry crit) (filtered_df st) = true ->
    exists st',
      by_find_string crit st = continue st'
      /\ df st' = df st
      /\ text_area st' = text_area st
      /\ filtered_df st'
         = filter (fun r => criterion_holds (find_entry crit) (row_texts r))
                  (filtered_df st)
      /\ (blank (find_entry crit) = true -> st' = st).
Proof.
  intros crit st Hplain Hset.
  unfold by_find_string, criterion_holds, search_settled, blank in *.
  unfold plain in Hplain.
  destruct (strip (find_entry crit)) as [|c s] eqn:E.
  - exists st. cbn [orb]. rewrite filter_true. auto.
  - cbn [orb] in *. rewrite re_compile_plain by exact Hplain.
    destruct (filtered_df st) as [|r rows] eqn:Ev.
    + exists (without_columns st). repeat split. discriminate.
    + pose proof (search_mask_plain (find_entry crit) (r :: rows) Hset) as Hm.
      rewrite E in Hm. rewrite Hm.
      exists (set_filtered_df st
                (select (r :: rows)
                   (map (fun r0 => existsb (contains_ignoring_case (c :: s))
                                           (row_texts r0)) (r :: rows)))).
      repeat split; [|discriminate].
      cbn [set_filtered_df filtered_df]. apply select_map.
Qed.

Lemma filtering_plain :
  forall to_datetime crit st,
    plain (player_entry crit) = true ->
    plain (event_type_combo crit) = true ->
    plain (find_entry crit) = true ->
    search_settled (find_entry crit) (filtered_df st) = true ->
    date_filter_active crit = false ->
    filtered_df_columns st = true ->
    exists st',
      filtering to_datetime crit st = continue st'
      /\ df st' = df st
      /\ text_area st' = text_area st
      /\ filtered_df st' = filter (text_criteria_hold crit) (filtered_df st)
      /\ (blank (find_entry crit) = true -> filtered_df_columns st' = true).
Proof.
  intros to_datetime crit st Hp He Hf Hset Hd Hcols. unfold filtering.
  cbn [and_then]. unfold by_player. rewrite column_stage_plain by assumption.
  cbn [and_then]. unfold by_event_type.
  rewrite column_stage_plain by (try assumption; reflexivity).
  cbn [and_then]. rewrite by_date_range_inactive by exact Hd.
  cbn [and_then].
  match goal with
  | |- context [by_find_string crit ?s] =>
      destruct (@by_find_string_plain crit s Hf) as (st' & H1 & H2 & H3 & H4 & H5)
  end.
  { cbn [set_filtered_df filtered_df].
    do 2 apply search_settled_filter. exact Hset. }
  exists st'. split; [exact H1|]. split; [rewrite H2; reflexivity|].
  split; [rewrite H3; reflexivity|]. split.
  - rewrite H4. cbn [set_filtered_df filtered_df].
    rewrite !filter_twice. apply filter_ext. intro r.
    unfold text_criteria_hold. rewrite ?andb_assoc. reflexivity.
  - intro Hb. rewrite (H5 Hb). reflexivity.
Qed.

Lemma by_sorting_blank :
  forall srt crit st, blank (sort_by_combo crit) = true -> by_sorting srt crit st = continue st.
Proof.
  intros srt crit st H. unfold by_sorting. unfold blank in H.
  destruct (strip (sort_by_combo crit)); [reflexivity | discriminate].
Qed.

(** The run with plain criteria of which the find box is blank. *)
Lemma stages_plain :
  forall to_datetime srt crit st,
    plain (player_entry crit) = true ->
    plain (event_type_combo crit) = true ->
    blank (find_entry crit) = true ->
    date_filter_active crit = false ->
    blank (sort_by_combo crit) = true ->
    stages to_datetime srt crit (set_filtered_df st (df st))
    = continue (set_filtered_df st (filter (text_criteria_hold crit) (df st))).
Proof.
  intros to_datetime srt crit st Hp He Hf Hd Hs.
  assert (Hplain : plain (find_entry crit) = true).
  { unfold plain. unfold blank in Hf.
    destruct (strip (find_entry crit)); [reflexivity | discriminate]. }
  destruct (@filtering_plain to_datetime crit (set_filtered_df st (df st)))
    as (st' & H1 & H2 & H3 & H4 & H5); try assumption; try reflexivity.
  { unfold search_settled. rewrite Hf. reflexivity. }
  unfold stages. rewrite H1. cbn [and_then]. rewrite by_sorting_blank by exact Hs.
  f_equal. specialize (H5 Hf). destruct st' as [d v cols a].
  cbn [df filtered_df filtered_df_columns text_area set_filtered_df] in *.
  subst. reflexivity.
Qed.

(** X7.  The text criteria combine as a conjunction.  With plain text in
    the player, event type and find boxes (no character that a regular
    expression reads specially), no date range and no sort key, the view
    holds exactly the records of the frame, in their order, whose player
    contains the player box, whose event type contains the event type
    box and one of whose cells that hold a value, written out, contains
    the find box, letter case apart; a blank box asks for nothing.  That
    view is displayed.  The search is to be settled on the frame: no
    level is outside the model, and when a cell holds no value the find
    box does not occur in [nan] or [NaT], which is what a release of
    pandas before 3 searches in such a cell. *)
Theorem plain_criteria_hold_together :
  forall to_datetime srt crit st,
    plain (player_entry crit) = true ->
    plain (event_type_combo crit) = true ->
    plain (find_entry crit) = true ->
    search_settled (find_entry crit) (df st) = true ->
    date_filter_active crit = false ->
    blank (sort_by_combo crit) = true ->
    df st <> [] ->
    let kept := filter (text_criteria_hold crit) (df st) in
    let result := apply_filters to_datetime srt crit st in
    snd result = done
    /\ df (fst result) = df st
    /\ filtered_df (fst result) = kept
    /\ text_area (fst result) = shown kept.
Proof.
  intros to_datetime srt crit st Hp He Hf Hset Hd Hs Hne kept result.
  subst kept result.
  rewrite apply_filters_stages_of by exact Hne.
  destruct (@filtering_plain to_datetime crit (set_filtered_df st (df st)))
    as (st' & H1 & H2 & H3 & H4 & _); try assumption; try reflexivity.
  unfold stages. rewrite H1. cbn [and_then]. rewrite by_sorting_blank by exact Hs.
  cbn [fst snd display_data df filtered_df text_area set_filtered_df] in *.
  rewrite H2, H4. repeat split; reflexivity.
Qed.

Lemma plain_criteria_hold_together_witness :
  plain (player_entry alice_joining) = true
  /\ plain (event_type_combo alice_joining) = true
  /\ plain (find_entry alice_joining) = true
  /\ search_settled (find_entry alice_joining) (df loaded) = true
  /\ date_filter_active alice_joining = false
  /\ blank (sort_by_combo alice_joining) = true
  /\ df loaded <> []
  /\ snd (apply_filters to_datetime_iso insertion_sorter alice_joining loaded) = done
  /\ df (fst (apply_filters to_datetime_iso insertion_sorter alice_joining loaded))
     = df loaded
  /\ filtered_df (fst (apply_filters to_datetime_iso insertion_sorter
                                     alice_joining loaded))
     = filter (text_criteria_hold alice_joining) (df loaded)
  /\ text_area (fst (apply_filters to_datetime_iso insertion_sorter
                                   alice_joining loaded))
     = shown (filter (text_criteria_hold alice_joining) (df loaded)).
Proof.
  assert (Hne : df loaded <> []).
  { unfold loaded. cbn [df]. rewrite loaded_rows_are. discriminate. }
  assert (Hset : search_settled (find_entry alice_joining) (df loaded) = true).
  { unfold loaded. cbn [df]. rewrite loaded_rows_are. reflexivity. }
  do 3 (split; [reflexivity|]). split; [exact Hset|].
  do 2 (split; [reflexivity|]). split; [exact Hne|].
  exact (@plain_criteria_hold_together to_datetime_iso insertion_sorter
           alice_joining loaded eq_refl eq_refl eq_refl Hset eq_refl eq_refl Hne).
Defined.

(** A search that is not settled: the level of Bob is missing, and
    whether "nan" is found in his row depends on the release of pandas.
    The model gives no view. *)
Example search_for_nan_is_not_settled :
  search_settled (T "nan") (df loaded) = false
  /\ apply_filters to_datetime_iso insertion_sorter only_nan loaded
     = ({| df := df loaded; filtered_df := df loaded; filtered_df_columns := true;
           text_area := text_area loaded |},
        not_modelled).
Proof.
  unfold loaded. cbn [df text_area]. rewrite loaded_rows_are.
  split; reflexivity.
Qed.

(** ** The choices of the comboboxes *)

Lemma categorize_event_label :
  forall event_str, In (categorize_event event_str) categories.
Proof.
  intro event_str. unfold categorize_event, categories.
  repeat match goal with
         | |- context [if ?b then _ else _] => destruct b
         end; simpl; tauto.
Qed.

Lemma label_in_label :
  forall label cell,
    In label categories -> In cell categories ->
    contains_ignoring_case label cell = text_eqb cell label.
Proof.
  intros label cell Hl Hc. unfold categories in Hl, Hc. cbn [In] in Hl, Hc.
  repeat (destruct Hl as [<-|Hl]);
    try contradiction;
    repeat (destruct Hc as [<-|Hc]); try contradiction; reflexivity.
Qed.

Lemma label_is_plain :
  forall label, In label categories -> strip label = label /\ plain label = true.
Proof.
  intros label Hl. unfold categories in Hl. cbn [In] in Hl.
  repeat (destruct Hl as [<-|Hl]); try contradiction; split; reflexivity.
Qed.

Lemma offered_event_types :
  forall label, In label event_type_values <-> label = [] \/ In label categories.
Proof.
  intro label. unfold event_type_values, categories. cbn [In map].
  unfold Death, Level_Up, Join, Leave, Promotion, Demotion, Online, Other.
  intuition.
Qed.

Lemma clean_data_event_types :
  forall data, Forall (fun r => In (col_Event_Type r) categories) (clean_data data).
Proof.
  intro data. rewrite clean_data_rows. apply Forall_forall. intros r Hr.
  apply in_map_iff in Hr. destruct Hr as [e [<- _]]. cbn [col_Event_Type].
  apply categorize_event_label.
Qed.

Lemma label_not_blank : forall label, In label categories -> blank label = false.
Proof.
  intros label Hl. unfold categories in Hl. cbn [In] in Hl.
  repeat (destruct Hl as [<-|Hl]); try contradiction; reflexivity.
Qed.

Lemma filter_by_label :
  forall label rows,
    In label categories ->
    Forall (fun r => In (col_Event_Type r) categories) rows ->
    filter (text_criteria_hold (only_event_type label)) rows
    = filter (fun r => text_eqb (col_Event_Type r) label) rows.
Proof.
  intros label rows Hl Hcat.
  destruct (label_is_plain Hl) as [Hstrip _].
  pose proof (label_not_blank Hl) as Hb.
  induction Hcat as [|r rows Hr Hrows IH]; [reflexivity|].
  cbn [filter]. rewrite IH.
  unfold text_criteria_hold at 1, criterion_holds.
  cbn [only_event_type player_entry event_type_combo find_entry].
  change (blank []) with true. rewrite Hb, Hstrip. cbn [orb andb existsb].
  rewrite orb_false_r, andb_true_r, (label_in_label Hl Hr).
  reflexivity.
Qed.

(** X8.  The event type box is a read-only combobox.  Whichever of the
    labels it offers is chosen, on a frame that [clean_data] made the
    view holds exactly the records of that category: no label occurs
    within another, so the substring test of the filter comes to
    equality.  The empty choice keeps every record. *)
Theorem event_type_choice_selects_category :
  forall to_datetime srt label data st,
    In label event_type_values ->
    df st = clean_data data ->
    data <> [] ->
    let kept := match label with
                | [] => df st
                | _ :: _ => filter (fun r => text_eqb (col_Event_Type r) label) (df st)
                end in
    apply_filters to_datetime srt (only_event_type label) st
    = ({| df := df st; filtered_df := kept; filtered_df_columns := true;
          text_area := shown kept |}, done).
Proof.
  intros to_datetime srt label data st Hl Hdf Hdata kept.
  assert (Hne : df st <> []).
  { rewrite Hdf, clean_data_rows. destruct data; [congruence | discriminate]. }
  apply offered_event_types in Hl.
  assert (Hp : plain label = true).
  { destruct Hl as [->|Hl]; [reflexivity | apply (label_is_plain Hl)]. }
  rewrite apply_filters_stages_of by exact Hne.
  rewrite stages_plain; try reflexivity; try assumption.
  cbn [display_data set_filtered_df filtered_df df text_area].
  assert (Hk : filter (text_criteria_hold (only_event_type label)) (df st) = kept).
  { subst kept. destruct Hl as [->|Hl].
    - apply filter_true.
    - pose proof (label_not_blank Hl) as Hb.
      rewrite filter_by_label;
        [| exact Hl | rewrite Hdf; apply clean_data_event_types].
      destruct label; [discriminate | reflexivity]. }
  rewrite Hk. reflexivity.
Qed.

Lemma event_type_choice_selects_category_witness :
  In Join event_type_values
  /\ df two_loaded = clean_data two_entries
  /\ two_entries <> []
  /\ apply_filters to_datetime_iso insertion_sorter (only_event_type Join) two_loaded
     = ({| df := df two_loaded;
           filtered_df :=
             filter (fun r => text_eqb (col_Event_Type r) Join) (df two_loaded);
           filtered_df_columns := true;
           text_area :=
             shown (filter (fun r => text_eqb (col_Event_Type r) Join)
                           (df two_loaded)) |},
        done).
Proof.
  assert (Hin : In Join event_type_values).
  { unfold event_type_values. cbn [In map]. right. right. left. reflexivity. }
  assert (Hne : two_entries <> []) by discriminate.
  split; [exact Hin|]. split; [reflexivity|]. split; [exact Hne|].
  exact (@event_type_choice_selects_category to_datetime_iso insertion_sorter
           Join two_entries two_loaded Hin eq_refl Hne).
Defined.

Lemma offered_sort_key :
  forall key,
    In key sort_by_values ->
    key = [] \/ exists c, strip key = key /\ key <> [] /\ column_of_name key = Some c.
Proof.
  intros key H. unfold sort_by_values in H. cbn [In map] in H.
  destruct H as [<-|H]; [left; reflexivity|]. right.
  repeat (destruct H as [<-|H];
          [eexists; split; [reflexivity|]; split; [discriminate | reflexivity]|]).
  contradiction.
Qed.

(** The view keeps its columns through the stages before the search;
    the search takes them from a view without rows. *)
Lemma filter_by_contains_columns :
  forall pat col st st',
    filter_by_contains pat col st = continue st' -> filtered_df_columns st' = true.
Proof.
  intros pat col st st' H. unfold filter_by_contains in H.
  destruct (str_contains _ _); try discriminate. injection H as <-. reflexivity.
Qed.

Lemma by_player_columns :
  forall crit st st',
    by_player crit st = continue st' ->
    filtered_df_columns st = true -> filtered_df_columns st' = true.
Proof.
  intros crit st st' H Hc. unfold by_player in H.
  destruct (strip _); [injection H as <-; exact Hc|].
  eapply filter_by_contains_columns; eassumption.
Qed.

Lemma by_event_type_columns :
  forall crit st st',
    by_event_type crit st = continue st' ->
    filtered_df_columns st = true -> filtered_df_columns st' = true.
Proof.
  intros crit st st' H Hc. unfold by_event_type in H.
  destruct (strip _); [injection H as <-; exact Hc|].
  eapply filter_by_contains_columns; eassumption.
Qed.

Lemma by_date_range_columns :
  forall to_datetime crit st st',
    by_date_range to_datetime crit st = continue st' ->
    filtered_df_columns st = true -> filtered_df_columns st' = true.
Proof.
  intros to_datetime crit st st' H Hc. unfold by_date_range in H.
  destruct (strip (start_date_entry crit)); [injection H as <-; exact Hc|].
  destruct (strip (end_date_entry crit)); [injection H as <-; exact Hc|].
  destruct (to_datetime _); [|discriminate].
  destruct (to_datetime _); [|discriminate].
  destruct (to_datetime_column _); [|discriminate].
  destruct (is_aware _ || is_aware _); [discriminate|].
  injection H as <-. reflexivity.
Qed.

Lemma by_find_string_columns :
  forall crit st st',
    by_find_string crit st = continue st' ->
    filtered_df_columns st = true ->
    filtered_df_columns st' = true
    \/ (filtered_df st' = [] /\ filtered_df st = []
        /\ blank (find_entry crit) = false).
Proof.
  intros crit st st' H Hc. unfold by_find_string in H. unfold blank.
  destruct (strip (find_entry crit)); [injection H as <-; left; exact Hc|].
  destruct (re_compile_ignorecase _), (filtered_df st); try discriminate.
  - injection H as <-. right. repeat split.
  - destruct (search_mask _ _); [|discriminate].
    injection H as <-. left. reflexivity.
  - injection H as <-. left. exact Hc.
Qed.

Lemma filtering_columns :
  forall to_datetime crit st st',
    filtered_df_columns st = true ->
    filtering to_datetime crit st = continue st' ->
    filtered_df_columns st' = true
    \/ (filtered_df st' = [] /\ blank (find_entry crit) = false).
Proof.
  intros to_datetime crit st st' Hc H. unfold filtering in H.
  cbn [and_then] in H.
  destruct (by_player crit st) as [s1|] eqn:E1; [|discriminate].
  cbn [and_then] in H.
  destruct (by_event_type crit s1) as [s2|] eqn:E2; [|discriminate].
  cbn [and_then] in H.
  destruct (by_date_range to_datetime crit s2) as [s3|] eqn:E3; [|discriminate].
  cbn [and_then] in H.
  pose proof (by_player_columns _ _ E1 Hc) as C1.
  pose proof (by_event_type_columns _ _ E2 C1) as C2.
  pose proof (by_date_range_columns _ _ _ E3 C2) as C3.
  destruct (by_find_string_columns _ _ H C3) as [C4|[C4 [_ C5]]]; auto.
Qed.

Lemma by_sorting_without_key :
  forall srt crit st, by_sorting srt (without_sorting crit) st = continue st.
Proof. reflexivity. Qed.

Lemma filtering_before_search :
  forall to_datetime crit st,
    filtering to_datetime crit st
    = filtering to_datetime (before_search crit) st >>= by_find_string crit.
Proof.
  intros to_datetime crit st. unfold filtering.
  change (by_player (before_search crit)) with (by_player crit).
  change (by_event_type (before_search crit)) with (by_event_type crit).
  change (by_date_range to_datetime (before_search crit))
    with (by_date_range to_datetime crit).
  destruct (continue st >>= by_player crit >>= by_event_type crit
            >>= by_date_range to_datetime crit); reflexivity.
Qed.

(** X9.  The sort box is a read-only combobox, and every key it offers
    names a column.  With a key chosen there, a run that the other
    criteria stop ends as it does without the key.  Otherwise the sort
    is refused in one case only, that of a view which the filters have
    emptied before a search was made in it with the find box filled:
    the view has then lost its columns, it is empty without the key as
    with it, and the error names the key.  In every other case the
    view keeps its records, rearranged, and the run ends normally when
    the keys are within the model.  And the case occurs: when the find
    box holds a valid pattern and the filters before the search leave no
    record, the sort by the key is refused. *)
Theorem offered_sort_key_is_refused_on_an_emptied_view_only :
  forall to_datetime srt crit st,
    In (sort_by_combo crit) sort_by_values ->
    sort_by_combo crit <> [] ->
    let with_key := apply_filters to_datetime srt crit st in
    let without := apply_filters to_datetime srt (without_sorting crit) st in
    let refused := showerror (cannot_sort_by (strip (sort_by_combo crit))) in
    exists c,
      column_of_name (strip (sort_by_combo crit)) = Some c
      /\ match snd without with
         | done =>
             if filtered_df_columns (fst without)
             then snd with_key
                  = (if sortable c (filtered_df (fst without)) then done
                     else not_modelled)
                  /\ Permutation (filtered_df (fst without))
                                 (filtered_df (fst with_key))
             else snd with_key = refused
                  /\ filtered_df (fst with_key) = []
                  /\ filtered_df (fst without) = []
                  /\ blank (find_entry crit) = false
         | _ => with_key = without
         end
      /\ (valid_find crit = true ->
          forall emptied,
            apply_filters to_datetime srt (before_search crit) st = (emptied, done) ->
            filtered_df emptied = [] ->
            snd with_key = refused
            /\ filtered_df_columns (fst with_key) = false).
Proof.
  intros to_datetime srt crit st Hkey Hne with_key without refused.
  subst with_key without refused.
  destruct (offered_sort_key Hkey) as [Hk|[c [Hs [_ Hc]]]]; [congruence|].
  exists c. rewrite Hs. split; [exact Hc|]. split.
  - destruct (df st) eqn:E.
    + unfold apply_filters. rewrite E. reflexivity.
    + assert (Hdf : df st <> []) by congruence. clear E.
      rewrite !apply_filters_stages_of by exact Hdf.
      unfold stages. rewrite filtering_without_sorting.
      pose proof (filtering_not_done to_datetime crit (set_filtered_df st (df st)))
        as Hn.
      destruct (filtering to_datetime crit (set_filtered_df st (df st)))
        as [st'|st' o] eqn:Ef; cbn [and_then].
      * rewrite by_sorting_without_key.
        cbn [fst snd display_data filtered_df filtered_df_columns].
        unfold by_sorting, column_of_view. rewrite Hs.
        destruct (sort_by_combo crit) as [|ch key]; [congruence|].
        destruct (filtered_df_columns st') eqn:Ec.
        -- rewrite Hc. destruct (sortable c (filtered_df st')).
           ++ cbn [fst snd display_data set_filtered_df filtered_df].
              split; [reflexivity|].
              destruct (sort_values_spec srt c (filtered_df st'))
                as [keyed [_ [_ [_ Hp]]]].
              exact Hp.
           ++ cbn [fst snd]. split; [reflexivity | apply Permutation_refl].
        -- cbn [fst snd].
           destruct (@filtering_columns to_datetime crit
                       (set_filtered_df st (df st)) st' eq_refl Ef)
             as [C|[C1 C2]]; [congruence|].
           repeat split; assumption.
      * cbn [fst snd]. destruct o; try reflexivity. contradiction.
  - intros Hvalid emptied Hrun Hempty.
    apply apply_filters_done in Hrun as (filtered & same & Hdf & Hf & Hsame & ->).
    assert (same = filtered) by (vm_compute in Hsame; congruence). subst same.
    cbn [display_data filtered_df] in Hempty.
    rewrite apply_filters_stages_of by exact Hdf.
    unfold stages. rewrite filtering_before_search, Hf. cbn [and_then].
    unfold by_find_string. unfold valid_find in Hvalid.
    destruct (strip (find_entry crit)) as [|x w]; [discriminate|].
    destruct (re_compile_ignorecase (x :: w)) as [r| |]; try discriminate.
    rewrite Hempty. cbn [and_then].
    unfold by_sorting, column_of_view. rewrite Hs.
    destruct (sort_by_combo crit) as [|ch key]; [congruence|].
    cbn [without_columns filtered_df_columns fst snd]. split; reflexivity.
Qed.

Lemma offered_sort_key_is_refused_on_an_emptied_view_only_witness :
  In (sort_by_combo nobody_found_sorted_by_player) sort_by_values
  /\ sort_by_combo nobody_found_sorted_by_player <> []
  /\ valid_find nobody_found_sorted_by_player = true
  /\ (exists emptied,
        apply_filters to_datetime_iso insertion_sorter
                      (before_search nobody_found_sorted_by_player) loaded
        = (emptied, done)
        /\ filtered_df emptied = [])
  /\ let with_key := apply_filters to_datetime_iso insertion_sorter
                                   nobody_found_sorted_by_player loaded in
     let without := apply_filters to_datetime_iso insertion_sorter
                      (without_sorting nobody_found_sorted_by_player) loaded in
     let refused :=
       showerror (cannot_sort_by (strip (sort_by_combo nobody_found_sorted_by_player)))
     in
     exists c,
       column_of_name (strip (sort_by_combo nobody_found_sorted_by_player)) = Some c
       /\ match snd without with
          | done =>
              if filtered_df_columns (fst without)
              then snd with_key
                   = (if sortable c (filtered_df (fst without)) then done
                      else not_modelled)
                   /\ Permutation (filtered_df (fst without))
                                  (filtered_df (fst with_key))
              else snd with_key = refused
                   /\ filtered_df (fst with_key) = []
                   /\ filtered_df (fst without) = []
                   /\ blank (find_entry nobody_found_sorted_by_player) = false
          | _ => with_key = without
          end
       /\ (valid_find nobody_found_sorted_by_player = true ->
           forall emptied,
             apply_filters to_datetime_iso insertion_sorter
                           (before_search nobody_found_sorted_by_player) loaded
             = (emptied, done) ->
             filtered_df emptied = [] ->
             snd with_key = refused
             /\ filtered_df_columns (fst with_key) = false).
Proof.
  assert (Hin : In (sort_by_combo nobody_found_sorted_by_player) sort_by_values).
  { unfold sort_by_values.
    cbn [In map sort_by_combo nobody_found_sorted_by_player].
    right. right. left. reflexivity. }
  assert (Hne : sort_by_combo nobody_found_sorted_by_player <> []) by discriminate.
  split; [exact Hin|]. split; [exact Hne|]. split; [reflexivity|].
  split.
  { eexists. unfold loaded. rewrite loaded_rows_are. split; reflexivity. }
  exact (@offered_sort_key_is_refused_on_an_emptied_view_only to_datetime_iso
           insertion_sorter nobody_found_sorted_by_player loaded Hin Hne).
Defined.

(** The run of the example: nobody is called "zzz", the search for "a"
    is made in a view without rows, and the sort by [Player], a column of
    every frame, is refused. *)
Example sort_is_refused_on_the_emptied_view :
  apply_filters to_datetime_iso insertion_sorter nobody_found_sorted_by_player loaded
  = ({| df := df loaded; filtered_df := []; filtered_df_columns := false;
        text_area := text_area loaded |},
     showerror (T "Cannot sort by Player. Column does not exist.")).
Proof. unfold loaded. rewrite loaded_rows_are. reflexivity. Qed.

(** ** The view as a selection of the frame *)

Lemma select_all : forall rows, select rows (map (fun _ => true) rows) = rows.
Proof. intro rows. rewrite select_map. apply filter_true. Qed.

Lemma select_nil : forall mask, select [] mask = [].
Proof. intros [|b mask]; reflexivity. Qed.

Lemma select_select :
  forall rows mask1 mask2,
    exists mask, select (select rows mask1) mask2 = select rows mask.
Proof.
  induction rows as [|r rows IH]; intros mask1 mask2.
  - exists []. reflexivity.
  - destruct mask1 as [|b1 mask1].
    + exists []. reflexivity.
    + destruct b1; cbn [select].
      * destruct mask2 as [|b2 mask2].
        -- exists []. reflexivity.
        -- destruct (IH mask1 mask2) as [mask Hm]. exists (b2 :: mask).
           cbn [select]. rewrite Hm. reflexivity.
      * destruct (IH mask1 mask2) as [mask Hm]. exists (false :: mask).
        cbn [select]. exact Hm.
Qed.

Lemma Forall2_select :
  forall (R : row -> row -> Prop) a b mask,
    Forall2 R a b -> Forall2 R (select a mask) (select b mask).
Proof.
  intros R a b mask H. revert mask.
  induction H as [|x y a b Hxy Hab IH]; intros mask.
  - cbn [select]. constructor.
  - destruct mask as [|m mask]; [constructor|].
    cbn [select]. destruct m; [constructor; [exact Hxy | apply IH] | apply IH].
Qed.

Lemma converted_refl : forall r, converted r r.
Proof. intro r. left. reflexivity. Qed.

Lemma to_datetime_cell_twice :
  forall c c', to_datetime_cell c = Some c' -> to_datetime_cell c' = Some c'.
Proof.
  intros c c' H. destruct c as [s|t|]; cbn in H.
  - destruct s as [|ch s]; [injection H as <-; reflexivity|].
    destruct (parse_display (ch :: s)); [injection H as <-; reflexivity | discriminate].
  - injection H as <-. reflexivity.
  - injection H as <-. reflexivity.
Qed.

Lemma converted_trans :
  forall a b c, converted a b -> converted b c -> converted a c.
Proof.
  intros a b c [->|[x [Hx ->]]] Hbc; [exact Hbc|].
  destruct Hbc as [->|[y [Hy ->]]].
  - right. exists x. split; [exact Hx | reflexivity].
  - right. exists x. split; [exact Hx|]. cbn [set_Timestamp col_Timestamp] in *.
    rewrite (to_datetime_cell_twice _ Hx) in Hy. injection Hy as <-.
    reflexivity.
Qed.

Lemma Forall2_converted_refl : forall rows, Forall2 converted rows rows.
Proof. induction rows; constructor; [apply converted_refl | assumption]. Qed.

Lemma Forall2_converted_trans :
  forall a b c,
    Forall2 converted a b -> Forall2 converted b c -> Forall2 converted a c.
Proof.
  intros a b c H. revert c.
  induction H as [|x y a b Hxy Hab IH]; intros c Hc; inversion Hc; subst.
  - constructor.
  - constructor; [eapply converted_trans; eassumption | apply IH; assumption].
Qed.

Lemma selected_from_refl : forall st, selected_from st st.
Proof.
  intro st. exists (map (fun _ => true) (filtered_df st)).
  rewrite select_all. apply Forall2_converted_refl.
Qed.

Lemma selected_from_trans :
  forall a b c, selected_from a b -> selected_from b c -> selected_from a c.
Proof.
  intros a b c [m1 H1] [m2 H2].
  destruct (select_select (filtered_df a) m1 m2) as [m Hm].
  exists m. rewrite <- Hm.
  eapply Forall2_converted_trans; [|exact H2].
  apply Forall2_select. exact H1.
Qed.

Lemma selected_from_filter :
  forall st f, selected_from st (set_filtered_df st (filter f (filtered_df st))).
Proof.
  intros st f. exists (map f (filtered_df st)).
  cbn [set_filtered_df filtered_df]. rewrite select_map.
  apply Forall2_converted_refl.
Qed.

Lemma filter_by_contains_selects :
  forall pat col st, selected_from st (step_state (filter_by_contains pat col st)).
Proof.
  intros pat col st. unfold filter_by_contains.
  destruct (str_contains _ _) as [mask| |]; cbn [step_state];
    try apply selected_from_refl.
  exists mask. cbn [set_filtered_df filtered_df]. apply Forall2_converted_refl.
Qed.

Lemma to_datetime_column_converts :
  forall rows cells,
    to_datetime_column (map col_Timestamp rows) = Some cells ->
    Forall2 converted rows
      (map (fun rc : row * ts_cell => set_Timestamp (fst rc) (snd rc))
           (combine rows cells)).
Proof.
  induction rows as [|r rows IH]; intros cells H.
  - constructor.
  - cbn [map to_datetime_column] in H.
    destruct (to_datetime_cell (col_Timestamp r)) as [c|] eqn:Ec; [|discriminate].
    destruct (to_datetime_column (map col_Timestamp rows)) as [rest|] eqn:Er;
      [|discriminate].
    injection H as <-. cbn [combine map fst snd]. constructor.
    + right. exists c. split; [exact Ec | reflexivity].
    + apply IH. reflexivity.
Qed.

Lemma by_date_range_selects :
  forall to_datetime crit st,
    selected_from st (step_state (by_date_range to_datetime crit st)).
Proof.
  intros to_datetime crit st. unfold by_date_range.
  destruct (strip (start_date_entry crit)); [apply selected_from_refl|].
  destruct (strip (end_date_entry crit)); [apply selected_from_refl|].
  destruct (to_datetime _) as [start_date|]; [|apply selected_from_refl].
  destruct (to_datetime _) as [end_date|]; [|apply selected_from_refl].
  destruct (to_datetime_column _) as [cells|] eqn:Ec; [|apply selected_from_refl].
  pose proof (to_datetime_column_converts _ Ec) as Hconv.
  set (rows' := map _ (combine (filtered_df st) cells)) in *.
  destruct (is_aware _ || is_aware _); cbn [step_state].
  - exists (map (fun _ => true) (filtered_df st)).
    cbn [set_filtered_df filtered_df]. rewrite select_all. exact Hconv.
  - exists (map (fun r => in_bounds start_date end_date (col_Timestamp r)) rows').
    cbn [set_filtered_df filtered_df].
    rewrite <- (select_map _ rows'). apply Forall2_select. exact Hconv.
Qed.

Lemma filtering_related :
  forall (R : GuildLogAnalyzerApp -> GuildLogAnalyzerApp -> Prop) to_datetime crit,
    (forall st, R st st) ->
    (forall a b c, R a b -> R b c -> R a c) ->
    (forall st, R st (step_state (by_player crit st))) ->
    (forall st, R st (step_state (by_event_type crit st))) ->
    (forall st, R st (step_state (by_date_range to_datetime crit st))) ->
    (forall st, R st (step_state (by_find_string crit st))) ->
    forall st, R st (step_state (filtering to_datetime crit st)).
Proof.
  intros R to_datetime crit Hrefl Htrans H1 H2 H3 H4 st.
  unfold filtering.
  repeat (apply and_then_related; [exact Htrans | | assumption]).
  simpl. apply Hrefl.
Qed.

Lemma filtering_selects :
  forall to_datetime crit st,
    selected_from st (step_state (filtering to_datetime crit st)).
Proof.
  intros to_datetime crit.
  apply filtering_related;
    try exact selected_from_refl; try exact selected_from_trans; intro st.
  - unfold by_player.
    destruct (strip _); [apply selected_from_refl | apply filter_by_contains_selects].
  - unfold by_event_type.
    destruct (strip _); [apply selected_from_refl | apply filter_by_contains_selects].
  - apply by_date_range_selects.
  - unfold by_find_string.
    destruct (strip _); [apply selected_from_refl|].
    destruct (re_compile_ignorecase _), (filtered_df st) eqn:Ev;
      cbn [step_state]; try apply selected_from_refl.
    + exists []. cbn [without_columns filtered_df]. rewrite Ev. constructor.
    + destruct (search_mask _ _) as [mask|]; cbn [step_state];
        [|apply selected_from_refl].
      exists mask. cbn [set_filtered_df filtered_df]. rewrite Ev.
      apply Forall2_converted_refl.
Qed.

(** X10.  Filtering invents nothing.  However [apply_filters] ends, the
    view it leaves is a selection of the rows of the frame, each either
    as it is in the frame or with its Timestamp cell converted by the
    date filter and nothing else changed, and rearranged by the sort;
    without a sort key the selected rows are in the order of the frame. *)
Theorem view_is_a_selection_of_the_frame :
  forall to_datetime srt crit st,
    df st <> [] ->
    exists mask rows,
      Forall2 converted (select (df st) mask) rows
      /\ Permutation rows (filtered_df (fst (apply_filters to_datetime srt crit st)))
      /\ (blank (sort_by_combo crit) = true ->
          rows = filtered_df (fst (apply_filters to_datetime srt crit st))).
Proof.
  intros to_datetime srt crit st Hne.
  rewrite apply_filters_stages_of by exact Hne. unfold stages.
  destruct (filtering_selects to_datetime crit (set_filtered_df st (df st)))
    as [mask Hmask].
  cbn [set_filtered_df filtered_df] in Hmask.
  exists mask.
  destruct (filtering _ _ _) as [st'|st' o]; cbn [and_then step_state] in *.
  - exists (filtered_df st'). split; [exact Hmask|].
    unfold by_sorting, blank.
    destruct (strip (sort_by_combo crit)) as [|ch key].
    + split; [apply Permutation_refl | reflexivity].
    + destruct (column_of_view st' (ch :: key)) as [c|];
        [destruct (sortable c (filtered_df st'))|];
        cbn [fst display_data set_filtered_df filtered_df].
      * split; [|discriminate].
        destruct (sort_values_spec srt c (filtered_df st')) as [keyed [_ [_ [_ Hp]]]].
        exact Hp.
      * split; [apply Permutation_refl | discriminate].
      * split; [apply Permutation_refl | discriminate].
  - exists (filtered_df st'). split; [exact Hmask|].
    split; [apply Permutation_refl | reflexivity].
Qed.

Lemma view_is_a_selection_of_the_frame_witness :
  df loaded <> []
  /\ exists mask rows,
      Forall2 converted (select (df loaded) mask) rows
      /\ Permutation rows
           (filtered_df (fst (apply_filters to_datetime_iso insertion_sorter
                                first_ten_days_of_january loaded)))
      /\ (blank (sort_by_combo first_ten_days_of_january) = true ->
          rows = filtered_df (fst (apply_filters to_datetime_iso insertion_sorter
                                     first_ten_days_of_january loaded))).
Proof.
  assert (Hne : df loaded <> []).
  { unfold loaded. cbn [df]. rewrite loaded_rows_are. discriminate. }
  split; [exact Hne|].
  exact (@view_is_a_selection_of_the_frame to_datetime_iso insertion_sorter
           first_ten_days_of_january loaded Hne).
Defined.

(** ** The date filter and the Timestamp column *)







(** A view of which every time is midnight is exported as dates: the
    line of five in the morning, UTC, is midnight in the zone of the
    examples. *)
Example midnight_view_is_exported_as_dates :
  let st := fst (load_file est_offset to_datetime_iso insertion_sorter no_criteria
                   (T "1) 3 Jan '24 05:00am : Alice has JOINED the guild")
                   started) in
  let view := filtered_df (fst (apply_filters to_datetime_iso insertion_sorter
                                              first_ten_days_of_january st)) in
  map (fun r => col_Timestamp r) (df st) = [ts_str (T "2024-01-03 12:00:00 AM")]
  /\ map (fun r => ts_text (col_Timestamp r)) view
     = [str_of (T "2024-01-03 00:00:00")]
  /\ map (fun cells => hd None cells) (to_csv view)
     = [Some (T "Timestamp"); Some (T "2024-01-03")].
Proof. vm_compute. repeat split; reflexivity. Qed.

(** A date bound that names a zone.  The view is converted, the
    comparison raises, and the view is left converted and not filtered by
    date, while the text area shows what it showed. *)
Example bound_with_a_zone_raises_type_error :
  let result := apply_filters (fun _ => Some aware) insertion_sorter
                              first_ten_days_of_january loaded in
  snd result = type_error_raised
  /\ map col_Timestamp (filtered_df (fst result))
     = [ ts_time (mk_datetime 2024 1 3 16 15 0); ts_NaT;
         ts_time (mk_datetime 2024 1 5 6 30 0) ]
  /\ text_area (fst result) = text_area loaded
  /\ snd (load_file est_offset (fun _ => Some aware) insertion_sorter
                    first_ten_days_of_january three_lines started)
     = showerror failed_to_load.
Proof. vm_compute. repeat split; reflexivity. Qed.

(** X11.  After a run of [apply_filters] that ended normally, what
    [export_to_csv] does agrees with what the text area shows: it writes
    the header and one line for each row of the table displayed, or,
    when the notice that no record was found is displayed, it writes
    nothing and warns. *)
Theorem export_writes_the_displayed_view :
  forall to_datetime srt crit st st',
    apply_filters to_datetime srt crit st = (st', done) ->
    match export_to_csv st' with
    | inl lines =>
        text_area st' = table (filtered_df st')
        /\ lines = to_csv (filtered_df st')
        /\ List.length lines = S (List.length (filtered_df st'))
    | inr o =>
        text_area st' = no_records_found
        /\ filtered_df st' = []
        /\ o = showwarning no_data_to_export
    end.
Proof.
  intros to_datetime srt crit st st' H.
  destruct (apply_filters_done _ _ _ _ H) as [filtered [sorted [_ [_ [_ ->]]]]].
  unfold export_to_csv, display_data. cbn [filtered_df text_area].
  destruct (filtered_df sorted) as [|r rows].
  - repeat split.
  - repeat split. unfold to_csv. cbn [List.length]. rewrite length_map.
    reflexivity.
Qed.

Lemma export_writes_the_displayed_view_witness :
  apply_filters to_datetime_iso insertion_sorter no_criteria loaded = (loaded, done)
  /\ match export_to_csv loaded with
     | inl lines =>
         text_area loaded = table (filtered_df loaded)
         /\ lines = to_csv (filtered_df loaded)
         /\ List.length lines = S (List.length (filtered_df loaded))
     | inr o =>
         text_area loaded = no_records_found
         /\ filtered_df loaded = []
         /\ o = showwarning no_data_to_export
     end.
Proof.
  assert (H : apply_filters to_datetime_iso insertion_sorter no_criteria loaded
              = (loaded, done)).
  { unfold loaded. rewrite loaded_rows_are. reflexivity. }
  split; [exact H|].
  exact (@export_writes_the_displayed_view to_datetime_iso insertion_sorter
           no_criteria loaded loaded H).
Defined.

(** ** The date filter, row by row *)

Lemma to_datetime_column_readable :
  forall rows,
    forallb readable rows = true ->
    to_datetime_column (map col_Timestamp rows)
    = Some (map (fun r => col_Timestamp (convert_row r)) rows).
Proof.
  induction rows as [|r rows IH]; intro H; [reflexivity|].
  cbn [forallb] in H. apply andb_prop in H as [Hr Hrows].
  cbn [map to_datetime_column]. rewrite (IH Hrows).
  unfold readable in Hr. unfold convert_row.
  destruct (to_datetime_cell (col_Timestamp r)); [reflexivity | discriminate].
Qed.

Lemma convert_rows_readable :
  forall rows,
    forallb readable rows = true ->
    map (fun rc : row * ts_cell => set_Timestamp (fst rc) (snd rc))
        (combine rows (map (fun r => col_Timestamp (convert_row r)) rows))
    = map convert_row rows.
Proof.
  induction rows as [|r rows IH]; intro H; [reflexivity|].
  cbn [forallb] in H. apply andb_prop in H as [Hr Hrows].
  cbn [map combine fst snd]. rewrite (IH Hrows). f_equal.
  unfold readable in Hr. unfold convert_row.
  destruct (to_datetime_cell (col_Timestamp r)); [reflexivity | discriminate].
Qed.

Lemma filter_of_map :
  forall (f : row -> row) (p : row -> bool) rows,
    filter p (map f rows) = map f (filter (fun r => p (f r)) rows).
Proof.
  intros f p. induction rows as [|r rows IH]; [reflexivity|].
  cbn [map filter]. destruct (p (f r)); cbn [map]; congruence.
Qed.

Lemma by_date_range_readable :
  forall to_datetime crit start_date end_date st,
    date_filter_active crit = true ->
    to_datetime (strip (start_date_entry crit)) = Some (naive start_date) ->
    to_datetime (strip (end_date_entry crit)) = Some (naive end_date) ->
    forallb readable (filtered_df st) = true ->
    by_date_range to_datetime crit st
    = continue (set_filtered_df st
        (map convert_row (filter (within start_date end_date) (filtered_df st)))).
Proof.
  intros to_datetime crit start_date end_date st Ha Hs He Hr.
  unfold date_filter_active, blank in Ha. unfold by_date_range.
  destruct (strip (start_date_entry crit)) as [|x1 w1]; [discriminate|].
  destruct (strip (end_date_entry crit)) as [|x2 w2]; [discriminate|].
  rewrite Hs, He, (to_datetime_column_readable _ Hr), (convert_rows_readable _ Hr).
  cbn [is_aware orb in_bounds]. rewrite filter_of_map. reflexivity.
Qed.

Lemma within_holds_a_time :
  forall start_date end_date r,
    within start_date end_date r = true ->
    exists t, col_Timestamp (convert_row r) = ts_time t
              /\ datetime_leb start_date t = true
              /\ datetime_leb t end_date = true.
Proof.
  intros start_date end_date r H. unfold within, in_date_range in H.
  destruct (col_Timestamp (convert_row r)) as [s|t|]; try discriminate.
  apply andb_prop in H as [H1 H2]. exists t. auto.
Qed.

(** X12.  The date range, by itself.  With both date boxes filled and
    read as dates, and every Timestamp of the frame convertible, the view
    holds exactly the records of the frame, in their order and with their
    Timestamp converted, whose time lies between the two bounds, the
    bounds included.  A record without a timestamp is never among them. *)
Theorem date_range_keeps_records_within_bounds :
  forall to_datetime srt start_entry end_entry start_date end_date st,
    blank start_entry = false ->
    blank end_entry = false ->
    to_datetime (strip start_entry) = Some (naive start_date) ->
    to_datetime (strip end_entry) = Some (naive end_date) ->
    forallb readable (df st) = true ->
    df st <> [] ->
    let kept := map convert_row (filter (within start_date end_date) (df st)) in
    apply_filters to_datetime srt (only_dates start_entry end_entry) st
    = ({| df := df st; filtered_df := kept; filtered_df_columns := true;
          text_area := shown kept |}, done)
    /\ (forall r, col_Timestamp r = ts_str [] -> within start_date end_date r = false)
    /\ Forall (fun r => exists t, col_Timestamp r = ts_time t
                                  /\ datetime_leb start_date t = true
                                  /\ datetime_leb t end_date = true) kept.
Proof.
  intros to_datetime srt start_entry end_entry start_date end_date st
         Hbs Hbe Hs He Hr Hne kept.
  split; [|split].
  - rewrite apply_filters_stages_of by exact Hne.
    unfold stages, filtering. cbn [and_then].
    change (by_player (only_dates start_entry end_entry)
                      (set_filtered_df st (df st)))
      with (continue (set_filtered_df st (df st))).
    cbn [and_then].
    change (by_event_type (only_dates start_entry end_entry)
                          (set_filtered_df st (df st)))
      with (continue (set_filtered_df st (df st))).
    cbn [and_then].
    rewrite (@by_date_range_readable to_datetime (only_dates start_entry end_entry)
               start_date end_date (set_filtered_df st (df st)));
      [| unfold date_filter_active; cbn [only_dates start_date_entry end_date_entry];
         rewrite Hbs, Hbe; reflexivity
       | exact Hs | exact He | exact Hr ].
    reflexivity.
  - intros r Hts. unfold within, convert_row. rewrite Hts. reflexivity.
  - subst kept. apply Forall_forall. intros r Hr'.
    apply in_map_iff in Hr' as [r0 [<- Hin]].
    apply filter_In in Hin as [_ Hw]. apply within_holds_a_time. exact Hw.
Qed.

Lemma date_range_keeps_records_within_bounds_witness :
  blank (T "2024-01-03") = false
  /\ blank (T " 2024-01-04 ") = false
  /\ to_datetime_iso (strip (T "2024-01-03")) = Some (naive third_of_january)
  /\ to_datetime_iso (strip (T " 2024-01-04 ")) = Some (naive fourth_of_january)
  /\ forallb readable (df loaded) = true
  /\ df loaded <> []
  /\ apply_filters to_datetime_iso insertion_sorter
                   (only_dates (T "2024-01-03") (T " 2024-01-04 ")) loaded
     = ({| df := df loaded;
           filtered_df :=
             map convert_row
                 (filter (within third_of_january fourth_of_january) (df loaded));
           filtered_df_columns := true;
           text_area :=
             shown (map convert_row
                        (filter (within third_of_january fourth_of_january)
                                (df loaded))) |},
        done)
  /\ (forall r, col_Timestamp r = ts_str [] ->
                within third_of_january fourth_of_january r = false)
  /\ Forall (fun r => exists t, col_Timestamp r = ts_time t
                                /\ datetime_leb third_of_january t = true
                                /\ datetime_leb t fourth_of_january = true)
            (map convert_row
                 (filter (within third_of_january fourth_of_january) (df loaded))).
Proof.
  assert (Hne : df loaded <> []).
  { unfold loaded. cbn [df]. rewrite loaded_rows_are. discriminate. }
  assert (Hr : forallb readable (df loaded) = true).
  { unfold loaded. cbn [df]. rewrite loaded_rows_are. reflexivity. }
  do 4 (split; [reflexivity|]). split; [exact Hr|]. split; [exact Hne|].
  exact (@date_range_keeps_records_within_bounds to_datetime_iso insertion_sorter
           (T "2024-01-03") (T " 2024-01-04 ") third_of_january fourth_of_january
           loaded eq_refl eq_refl eq_refl eq_refl Hr Hne).
Defined.

(** ** Loading a log *)

Lemma parse_log_records :
  forall utcoffset file_content,
    fst (parse_log utcoffset file_content)
    = flat_map (fun l => fst (parse_line utcoffset ([], []) l))
               (splitlines (strip file_content)).
Proof. intros. unfold parse_log. rewrite parse_log_fold. reflexivity. Qed.

Lemma parse_log_length :
  forall utcoffset file_content,
    List.length (fst (parse_log utcoffset file_content))
    = List.length (filter line_matches (splitlines (strip file_content))).
Proof.
  intros utcoffset file_content. rewrite parse_log_records.
  induction (splitlines (strip file_content)) as [|l lines IH]; [reflexivity|].
  cbn [flat_map filter]. rewrite length_app, IH.
  destruct (line_matches l) eqn:E.
  - destruct (parse_line_matching utcoffset _ E) as [e [He _]]. rewrite He.
    reflexivity.
  - rewrite (parse_line_not_matching utcoffset _ E). reflexivity.
Qed.

Lemma filter_none :
  forall (f : text -> bool) l, existsb f l = false -> filter f l = [].
Proof.
  intros f. induction l as [|x l IH]; [reflexivity|].
  cbn [existsb filter]. intro H. apply orb_false_elim in H as [Hx Hl].
  rewrite Hx. apply IH, Hl.
Qed.

Lemma filter_some :
  forall (f : text -> bool) l, existsb f l = true -> filter f l <> [].
Proof.
  intros f. induction l as [|x l IH]; [discriminate|].
  cbn [existsb filter]. intro H. destruct (f x); [discriminate|].
  apply IH. exact H.
Qed.

Lemma parse_log_without_matching_line :
  forall utcoffset file_content,
    existsb line_matches (splitlines (strip file_content)) = false ->
    fst (parse_log utcoffset file_content) = [].
Proof.
  intros utcoffset file_content H.
  pose proof (parse_log_length utcoffset file_content) as Hl.
  rewrite (filter_none _ _ H) in Hl.
  destruct (fst (parse_log utcoffset file_content)); [reflexivity | discriminate].
Qed.

Lemma parse_log_with_matching_line :
  forall utcoffset file_content,
    existsb line_matches (splitlines (strip file_content)) = true ->
    fst (parse_log utcoffset file_content) <> [].
Proof.
  intros utcoffset file_content H Hnil.
  pose proof (parse_log_length utcoffset file_content) as Hl.
  rewrite Hnil in Hl. apply (filter_some _ _ H).
  destruct (filter line_matches _); [reflexivity | discriminate].
Qed.

(** How [apply_filters] can end. *)
Lemma and_then_stops_as_filter :
  forall s f,
    stops_as_filter s -> (forall st, stops_as_filter (f st)) ->
    stops_as_filter (s >>= f).
Proof. intros [st|st o] f Hs Hf; simpl; auto. Qed.

Lemma filter_by_contains_stops_as_filter :
  forall pat col st, stops_as_filter (filter_by_contains pat col st).
Proof.
  intros. unfold filter_by_contains.
  destruct (str_contains _ _); cbn; unfold ends_apply_filters; tauto.
Qed.

Lemma stages_stop_as_filter :
  forall to_datetime srt crit st, stops_as_filter (stages to_datetime srt crit st).
Proof.
  intros to_datetime srt crit st. unfold stages, filtering.
  repeat apply and_then_stops_as_filter; try exact I; clear st; intro st.
  - unfold by_player. destruct (strip _); [exact I|].
    apply filter_by_contains_stops_as_filter.
  - unfold by_event_type. destruct (strip _); [exact I|].
    apply filter_by_contains_stops_as_filter.
  - unfold by_date_range.
    destruct (strip (start_date_entry crit)); [exact I|].
    destruct (strip (end_date_entry crit)); [exact I|].
    destruct (to_datetime _); [|cbn; unfold ends_apply_filters; tauto].
    destruct (to_datetime _); [|cbn; unfold ends_apply_filters; tauto].
    destruct (to_datetime_column _); [|cbn; unfold ends_apply_filters; tauto].
    destruct (is_aware _ || is_aware _); cbn; unfold ends_apply_filters; tauto.
  - unfold by_find_string.
    destruct (strip _); [exact I|].
    destruct (re_compile_ignorecase _), (filtered_df st);
      try exact I; try (cbn; unfold ends_apply_filters; tauto).
    destruct (search_mask _ _); cbn; unfold ends_apply_filters; tauto.
  - unfold by_sorting. destruct (strip _) as [|c key]; [exact I|].
    destruct (column_of_view _ _) as [col|]; cbn.
    + destruct (sortable _ _); cbn; unfold ends_apply_filters; tauto.
    + unfold ends_apply_filters. right. right. right. left.
      exists (c :: key). reflexivity.
Qed.

Lemma apply_filters_ends :
  forall to_datetime srt crit st,
    ends_apply_filters (snd (apply_filters to_datetime srt crit st)).
Proof.
  intros to_datetime srt crit st. destruct (df st) eqn:E.
  - unfold apply_filters. rewrite E. cbn. unfold ends_apply_filters. tauto.
  - rewrite apply_filters_stages_of by congruence.
    pose proof (stages_stop_as_filter to_datetime srt crit
                  (set_filtered_df st (df st))) as H.
    destruct (stages _ _ _ _); cbn in *; [|exact H].
    unfold ends_apply_filters. tauto.
Qed.

Lemma apply_filters_df :
  forall to_datetime srt crit st,
    df (fst (apply_filters to_datetime srt crit st)) = df st.
Proof.
  intros to_datetime srt crit st. destruct (df st) eqn:E.
  - unfold apply_filters. rewrite E. exact E.
  - rewrite <- E. rewrite apply_filters_stages_of by congruence.
    pose proof (stages_frame to_datetime srt crit (set_filtered_df st (df st)))
      as [Hd _].
    destruct (stages _ _ _ _); cbn in *; exact Hd.
Qed.

Lemma text_eqb_refl : forall a, text_eqb a a = true.
Proof.
  intro a. unfold text_eqb. destruct (list_eq_dec ascii_dec a a); congruence.
Qed.

Lemma text_eqb_differ : forall a b, a <> b -> text_eqb a b = false.
Proof.
  intros a b H. unfold text_eqb. destruct (list_eq_dec ascii_dec a b); congruence.
Qed.

Lemma cannot_sort_by_is_no_load_message :
  forall key,
    cannot_sort_by key <> failed_to_parse
    /\ cannot_sort_by key <> failed_to_load
    /\ cannot_sort_by key <> failed_to_parse_from_url.
Proof. intro key. repeat split; intro H; cbn in H; discriminate. Qed.

(** X13.  A text without a line that fits the grammar -- an empty text,
    say -- makes [load_file] report that the parse failed.  The frame is
    then empty, whatever was loaded before, while the filtered view and
    the text area are kept: filtering answers that there is no data, and
    the export still writes the view of the previous log. *)
Theorem load_file_without_matching_line :
  forall utcoffset to_datetime srt crit file_content st,
    existsb line_matches (splitlines (strip file_content)) = false ->
    let emptied := {| df := []; filtered_df := filtered_df st;
                      filtered_df_columns := filtered_df_columns st;
                      text_area := text_area st |} in
    load_file utcoffset to_datetime srt crit file_content st
    = (emptied, showerror failed_to_parse)
    /\ apply_filters to_datetime srt crit emptied
       = (emptied, showwarning no_data_to_filter)
    /\ export_to_csv emptied = export_to_csv st.
Proof.
  intros utcoffset to_datetime srt crit file_content st H emptied.
  split; [|split; reflexivity].
  unfold load_file. rewrite (parse_log_without_matching_line utcoffset _ H).
  reflexivity.
Qed.

Lemma load_file_without_matching_line_witness :
  existsb line_matches (splitlines (strip (T "no log here"))) = false
  /\ load_file est_offset to_datetime_iso insertion_sorter no_criteria
               (T "no log here") loaded
     = ({| df := []; filtered_df := filtered_df loaded;
           filtered_df_columns := filtered_df_columns loaded;
           text_area := text_area loaded |},
        showerror failed_to_parse)
  /\ apply_filters to_datetime_iso insertion_sorter no_criteria
                   {| df := []; filtered_df := filtered_df loaded;
                      filtered_df_columns := filtered_df_columns loaded;
                      text_area := text_area loaded |}
     = ({| df := []; filtered_df := filtered_df loaded;
           filtered_df_columns := filtered_df_columns loaded;
           text_area := text_area loaded |},
        showwarning no_data_to_filter)
  /\ export_to_csv {| df := []; filtered_df := filtered_df loaded;
                      filtered_df_columns := filtered_df_columns loaded;
                      text_area := text_area loaded |}
     = export_to_csv loaded.
Proof.
  split; [vm_compute; reflexivity|].
  exact (@load_file_without_matching_line est_offset to_datetime_iso
           insertion_sorter no_criteria (T "no log here") loaded eq_refl).
Defined.

Lemma blank_criteria_hold :
  forall crit r, trimmed crit = no_criteria -> text_criteria_hold crit r = true.
Proof.
  intros crit r H. unfold text_criteria_hold, criterion_holds, blank.
  pose proof (f_equal player_entry H) as H1.
  pose proof (f_equal event_type_combo H) as H2.
  pose proof (f_equal find_entry H) as H3.
  cbn in H1, H2, H3. rewrite H1, H2, H3. reflexivity.
Qed.

(** X14.  A text with at least one line that fits the grammar is loaded:
    whatever the filter boxes hold and however the filtering ends, the
    frame becomes the enriched records of the text, one for each fitting
    line; [load_file] does not report a failed parse and lets no
    exception of the filtering through, be it the error of a regular
    expression or the TypeError of a date bound with a zone.  With every
    filter box blank all the records are displayed. *)
Theorem load_file_with_matching_line :
  forall utcoffset to_datetime srt crit file_content st,
    existsb line_matches (splitlines (strip file_content)) = true ->
    let result := load_file utcoffset to_datetime srt crit file_content st in
    let rows := clean_data (fst (parse_log utcoffset file_content)) in
    df (fst result) = rows
    /\ List.length rows
       = List.length (filter line_matches (splitlines (strip file_content)))
    /\ snd result <> showerror failed_to_parse
    /\ snd result <> re_error_raised
    /\ snd result <> type_error_raised
    /\ (trimmed crit = no_criteria ->
        result = ({| df := rows; filtered_df := rows; filtered_df_columns := true;
                     text_area := table rows |},
                  done)).
Proof.
  intros utcoffset to_datetime srt crit file_content st H result rows.
  pose proof (parse_log_with_matching_line utcoffset _ H) as Hne.
  pose proof (parse_log_length utcoffset file_content) as Hlen.
  assert (Hrows : List.length rows = List.length (fst (parse_log utcoffset file_content))).
  { subst rows. rewrite clean_data_rows. apply length_map. }
  subst result. unfold load_file.
  destruct (fst (parse_log utcoffset file_content)) as [|e es] eqn:Ep;
    [congruence|].
  fold rows.
  set (fresh := set_df st rows).
  pose proof (apply_filters_df to_datetime srt crit fresh) as Hdf.
  pose proof (apply_filters_ends to_datetime srt crit fresh) as Hends.
  assert (Hfresh : df fresh <> []).
  { cbn [fresh set_df df]. intro Hnil. rewrite Hnil in Hrows. discriminate. }
  split; [|split; [congruence|split; [|split; [|split]]]].
  - destruct (apply_filters to_datetime srt crit fresh) as [st' o].
    destruct o; exact Hdf.
  - destruct (apply_filters to_datetime srt crit fresh) as [st' o].
    cbn [snd] in Hends.
    destruct Hends as [-> | [-> | [-> | [[key ->] | [-> | [-> | ->]]]]]];
      cbn [snd]; try discriminate;
      intro Hx; injection Hx as Hx;
      try (apply (cannot_sort_by_is_no_load_message key); exact Hx);
      vm_compute in Hx; discriminate.
  - destruct (apply_filters to_datetime srt crit fresh) as [st' o].
    destruct o; discriminate.
  - destruct (apply_filters to_datetime srt crit fresh) as [st' o].
    destruct o; discriminate.
  - intro Hblank.
    rewrite apply_filters_stages_of by exact Hfresh.
    pose proof (f_equal sort_by_combo Hblank) as Hs.
    pose proof (f_equal start_date_entry Hblank) as Hd.
    pose proof (f_equal player_entry Hblank) as H1.
    pose proof (f_equal event_type_combo Hblank) as H2.
    pose proof (f_equal find_entry Hblank) as H3.
    cbn in Hs, Hd, H1, H2, H3.
    rewrite stages_plain;
      [| unfold plain; rewrite H1; reflexivity
       | unfold plain; rewrite H2; reflexivity
       | unfold blank; rewrite H3; reflexivity
       | unfold date_filter_active, blank; rewrite Hd; reflexivity
       | unfold blank; rewrite Hs; reflexivity ].
    cbn [set_filtered_df filtered_df filtered_df_columns df text_area fresh
         set_df display_data].
    rewrite (filter_ext _ (fun _ => true) (fun r => blank_criteria_hold r Hblank)).
    rewrite filter_true.
    destruct rows; [discriminate | reflexivity].
Qed.

Lemma load_file_with_matching_line_witness :
  existsb line_matches (splitlines (strip three_lines)) = true
  /\ df (fst (load_file est_offset to_datetime_iso insertion_sorter
                        bob_with_bad_start_date three_lines started))
     = clean_data (fst (parse_log est_offset three_lines))
  /\ List.length (clean_data (fst (parse_log est_offset three_lines)))
     = List.length (filter line_matches (splitlines (strip three_lines)))
  /\ snd (load_file est_offset to_datetime_iso insertion_sorter
                    bob_with_bad_start_date three_lines started)
     <> showerror failed_to_parse
  /\ snd (load_file est_offset to_datetime_iso insertion_sorter
                    bob_with_bad_start_date three_lines started)
     <> re_error_raised
  /\ snd (load_file est_offset to_datetime_iso insertion_sorter
                    bob_with_bad_start_date three_lines started)
     <> type_error_raised
  /\ (trimmed bob_with_bad_start_date = no_criteria ->
      load_file est_offset to_datetime_iso insertion_sorter
                bob_with_bad_start_date three_lines started
      = ({| df := clean_data (fst (parse_log est_offset three_lines));
            filtered_df := clean_data (fst (parse_log est_offset three_lines));
            filtered_df_columns := true;
            text_area := table (clean_data (fst (parse_log est_offset three_lines))) |},
         done)).
Proof.
  assert (H : existsb line_matches (splitlines (strip three_lines)) = true)
    by (vm_compute; reflexivity).
  split; [exact H|].
  exact (@load_file_with_matching_line est_offset to_datetime_iso insertion_sorter
           bob_with_bad_start_date three_lines started H).
Defined.

(** X15.  [load_from_url] treats the text it fetched as [load_file]
    treats the text of a file: the two leave the same state.  They
    differ in what they report: each has its own message for a text
    without records, and the exceptions of the filtering, which
    [load_file] reports as a failure to load, leave [load_from_url] as
    they are, since it catches the exceptions of the request only.  They
    are the error of an invalid regular expression in a filter box and
    the TypeError of a date bound that names a zone. *)
Theorem load_from_url_loads_as_load_file :
  forall utcoffset to_datetime srt get crit url_entry file_content st,
    blank url_entry = false ->
    get (strip url_entry) = response_text file_content ->
    let from_url :=
      load_from_url utcoffset to_datetime srt get crit url_entry st in
    let from_file :=
      load_file utcoffset to_datetime srt crit file_content st in
    fst from_url = fst from_file
    /\ snd from_file = as_load_file_reports (snd from_url)
    /\ (snd from_url = re_error_raised \/ snd from_url = type_error_raised
        <-> snd from_file = showerror failed_to_load).
Proof.
  intros utcoffset to_datetime srt get crit url_entry file_content st
         Hblank Hget from_url from_file.
  subst from_url from_file. unfold load_from_url, load_file, blank in *.
  destruct (strip url_entry) as [|c url]; [discriminate|].
  rewrite Hget.
  destruct (fst (parse_log utcoffset file_content)) as [|e es].
  - cbn [fst snd]. split; [reflexivity|]. split; [reflexivity|].
    split; [intros [H|H]; discriminate|]. intro H.
    injection H as H. vm_compute in H. discriminate.
  - set (fresh := set_df st (clean_data (e :: es))).
    pose proof (apply_filters_ends to_datetime srt crit fresh) as Hends.
    destruct (apply_filters to_datetime srt crit fresh) as [st' o].
    cbn [snd] in Hends.
    destruct Hends as [-> | [-> | [-> | [[key ->] | [-> | [-> | ->]]]]]];
      cbn [fst snd].
    + split; [reflexivity|]. split; [reflexivity|].
      split; [intros [H|H]; discriminate | discriminate].
    + split; [reflexivity|]. split; [reflexivity|].
      split; [intros [H|H]; discriminate | discriminate].
    + split; [reflexivity|]. split; [reflexivity|].
      split; [intros [H|H]; discriminate|]. intro H.
      injection H as H. vm_compute in H. discriminate.
    + destruct (cannot_sort_by_is_no_load_message key) as [_ [Hl Hu]].
      split; [reflexivity|]. split.
      * unfold as_load_file_reports. rewrite (text_eqb_differ Hu). reflexivity.
      * split; [intros [H|H]; discriminate|]. intro H.
        exfalso. apply Hl. congruence.
    + split; [reflexivity|]. split; [reflexivity|]. split; auto.
    + split; [reflexivity|]. split; [reflexivity|]. split; auto.
    + split; [reflexivity|]. split; [reflexivity|].
      split; [intros [H|H]; discriminate | discriminate].
Qed.

Lemma load_from_url_loads_as_load_file_witness :
  blank (T " http://guild.example/log.txt ") = false
  /\ serves_three_lines (strip (T " http://guild.example/log.txt "))
     = response_text three_lines
  /\ fst (load_from_url est_offset to_datetime_iso insertion_sorter
                        serves_three_lines star_player
                        (T " http://guild.example/log.txt ") started)
     = fst (load_file est_offset to_datetime_iso insertion_sorter star_player
                      three_lines started)
  /\ snd (load_file est_offset to_datetime_iso insertion_sorter star_player
                    three_lines started)
     = as_load_file_reports
         (snd (load_from_url est_offset to_datetime_iso insertion_sorter
                             serves_three_lines star_player
                             (T " http://guild.example/log.txt ") started))
  /\ (snd (load_from_url est_offset to_datetime_iso insertion_sorter
                         serves_three_lines star_player
                         (T " http://guild.example/log.txt ") started)
      = re_error_raised
      \/ snd (load_from_url est_offset to_datetime_iso insertion_sorter
                            serves_three_lines star_player
                            (T " http://guild.example/log.txt ") started)
         = type_error_raised
      <-> snd (load_file est_offset to_datetime_iso insertion_sorter star_player
                         three_lines started)
          = showerror failed_to_load).
Proof.
  split; [reflexivity|]. split; [reflexivity|].
  exact (@load_from_url_loads_as_load_file est_offset to_datetime_iso
           insertion_sorter serves_three_lines star_player
           (T " http://guild.example/log.txt ") three_lines started
           eq_refl eq_refl).
Defined.

(** ** The enriched frame *)

(** X16.  [clean_data] adds its two columns and touches nothing else:
    the rows of the frame it returns are the records it was given, as
    many and in the same order, each with its four fields as
    [parse_log] wrote them, and the event type of each row is the
    category of its own event. *)
Theorem clean_data_keeps_the_records :
  forall data,
    map entry_of_row (clean_data data) = map Some data
    /\ Forall (fun r => col_Event_Type r = categorize_event (col_Event r))
              (clean_data data).
Proof.
  intro data. rewrite clean_data_rows. split.
  - rewrite map_map. apply map_ext. intros [ts pl ev de]. reflexivity.
  - apply Forall_forall. intros r Hr. apply in_map_iff in Hr as [e [<- _]].
    reflexivity.
Qed.

Lemma forallb_of_map :
  forall (A B : Type) (f : B -> bool) (g : A -> B) l,
    forallb f (map g l) = forallb (fun x => f (g x)) l.
Proof.
  intros A B f g. induction l as [|x l IH]; [reflexivity|].
  cbn [map forallb]. rewrite IH. reflexivity.
Qed.

Lemma point_zero_at_the_end :
  forall s, ends_with_point_zero (s ++ T ".0") = true.
Proof.
  intro s. unfold ends_with_point_zero. rewrite rev_app_distr. reflexivity.
Qed.

Lemma digit_value_range :
  forall c, isdigit c = true -> (0 <= digit_value c <= 9)%Z.
Proof.
  intros c H. unfold isdigit, in_range in H. apply andb_prop in H as [H1 H2].
  apply Nat.leb_le in H1, H2. unfold digit_value. lia.
Qed.

Lemma fold_digits_bound :
  forall s acc,
    all_of isdigit s = true ->
    (0 <= acc)%Z ->
    (acc * 10 ^ Z.of_nat (List.length s)
     <= fold_left (fun a c => 10 * a + digit_value c) s acc
     < (acc + 1) * 10 ^ Z.of_nat (List.length s))%Z.
Proof.
  induction s as [|c s IH]; intros acc H Hacc.
  - cbn. lia.
  - cbn [all_of forallb] in H. apply andb_prop in H as [Hc Hs].
    pose proof (@digit_value_range c Hc) as Hd.
    cbn [fold_left List.length]. rewrite Nat2Z.inj_succ, Z.pow_succ_r by lia.
    specialize (IH (10 * acc + digit_value c)%Z Hs ltac:(lia)).
    assert (Hp : (0 < 10 ^ Z.of_nat (List.length s))%Z)
      by (apply Z.pow_pos_nonneg; lia).
    nia.
Qed.

Lemma int_of_digits_known :
  forall digits,
    all_of isdigit digits = true ->
    List.length digits <= 15 ->
    (0 <= int_of_digits digits < 10 ^ 15)%Z.
Proof.
  intros digits Hd Hlen. unfold int_of_digits.
  pose proof (@fold_digits_bound digits 0%Z Hd ltac:(lia)) as H.
  assert (Hp : (10 ^ Z.of_nat (List.length digits) <= 10 ^ 15)%Z)
    by (apply Z.pow_le_mono_r; lia).
  lia.
Qed.

Lemma extract_level_digits :
  forall event_str digits,
    extract_level event_str = Some digits -> all_of isdigit digits = true.
Proof.
  intros event_str digits H. rewrite extract_level_first_marker in H.
  destruct (@first_marker_some _ _ H) as (pre & post & _ & Hd & _).
  unfold some_of in Hd. apply andb_prop in Hd as [_ Hd]. exact Hd.
Qed.

(** The levels of a frame whose markers have 15 digits at most are
    within the model. *)
Lemma clean_data_levels_known :
  forall data,
    forallb (fun e => short_run (extract_level (Event e))) data = true ->
    Forall (fun r => level_known (col_Level r) = true) (clean_data data).
Proof.
  intros data Hshort. rewrite clean_data_rows, forallb_of_map, Hshort.
  apply Forall_forall. intros r Hr. apply in_map_iff in Hr as [e [<- He]].
  cbn [col_Level]. rewrite forallb_forall in Hshort. specialize (Hshort e He).
  destruct (extract_level (Event e)) as [digits|] eqn:Ee; [|reflexivity].
  cbn [short_run] in Hshort. apply Nat.leb_le in Hshort.
  pose proof (@int_of_digits_known digits (@extract_level_digits _ _ Ee) Hshort) as Hk.
  assert (Hb : ((0 <=? int_of_digits digits)
                && (int_of_digits digits <? 10 ^ 15))%Z = true).
  { apply andb_true_intro. split; [apply Z.leb_le | apply Z.ltb_lt]; lia. }
  destruct (forallb is_some _); cbn [level_known]; exact Hb.
Qed.

(** X17.  The Level column has one type.  In a frame whose level markers
    have 15 digits at most, every level is within the model; when every
    record carries a marker every level is an integer, and as soon as
    one record carries none, no level is an integer: each is missing or
    a float, which the free-text search reads as a text that ends in
    [.0]. *)
Theorem level_column_has_one_type :
  forall data,
    forallb (fun e => short_run (extract_level (Event e))) data = true ->
    let all_marked := forallb (fun e => is_some (extract_level (Event e))) data in
    Forall (fun r =>
              is_level_int (col_Level r) = all_marked
              /\ level_known (col_Level r) = true
              /\ (all_marked = false ->
                  col_Level r = level_nan
                  \/ exists s, level_text (col_Level r) = str_of s
                               /\ ends_with_point_zero s = true))
           (clean_data data).
Proof.
  intros data Hshort all_marked.
  pose proof (@clean_data_levels_known data Hshort) as Hknown.
  rewrite Forall_forall in Hknown. apply Forall_forall. intros r Hr.
  specialize (Hknown r Hr). revert r Hr Hknown.
  rewrite clean_data_rows, !forallb_of_map, Hshort. fold all_marked.
  intros r Hr Hknown. apply in_map_iff in Hr as [e [<- He]].
  cbn [col_Level] in *.
  destruct (extract_level (Event e)) as [digits|] eqn:Ee.
  - destruct all_marked; (split; [reflexivity|]); (split; [exact Hknown|]);
      [discriminate|].
    intros _. right. exists (decimal (int_of_digits digits) ++ T ".0").
    split; [|apply point_zero_at_the_end].
    unfold level_text. rewrite Hknown. reflexivity.
  - assert (Hm : all_marked = false).
    { destruct all_marked eqn:Ea; [|reflexivity].
      subst all_marked. rewrite forallb_forall in Ea.
      specialize (Ea e He). rewrite Ee in Ea. discriminate. }
    rewrite Hm. split; [reflexivity|]. split; [reflexivity|].
    intros _. left. reflexivity.
Qed.

Lemma level_column_has_one_type_witness :
  forallb (fun e => short_run (extract_level (Event e))) two_entries = true
  /\ Forall (fun r =>
               is_level_int (col_Level r)
               = forallb (fun e => is_some (extract_level (Event e))) two_entries
               /\ level_known (col_Level r) = true
               /\ (forallb (fun e => is_some (extract_level (Event e))) two_entries
                   = false ->
                   col_Level r = level_nan
                   \/ exists s, level_text (col_Level r) = str_of s
                                /\ ends_with_point_zero s = true))
            (clean_data two_entries).
Proof.
  split; [reflexivity|].
  exact (@level_column_has_one_type two_entries eq_refl).
Defined.

(** A marker of 16 digits puts the column outside the model, the level
    of 7 of the other record included. *)
Example long_marker_is_outside_the_model :
  map col_Level
      (clean_data [ {| Timestamp := []; Player := T "Alice";
                       Event := T "has JOINED the guild LVL: 7"; Details := [] |};
                    {| Timestamp := []; Player := T "Bob";
                       Event := T "has JOINED the guild LVL: 9007199254740993";
                       Details := [] |} ])
  = [level_outside (T "7"); level_outside (T "9007199254740993")].
Proof. vm_compute. reflexivity. Qed.

(** ** The records of [parse_log] *)

Lemma has_char_app :
  forall c a b, has_char c (a ++ b) = has_char c a || has_char c b.
Proof. intros. unfold has_char. apply existsb_app. Qed.

Lemma has_char_strip :
  forall c s, has_char c s = false -> has_char c (strip s) = false.
Proof.
  intros c s H. unfold strip.
  destruct (lstrip_split s) as [ws [Hs _]].
  destruct (rstrip_split (lstrip s)) as [ws' [Hl _]].
  rewrite Hs, has_char_app in H. apply orb_false_elim in H as [_ H].
  rewrite Hl, has_char_app in H. apply orb_false_elim in H as [H _].
  exact H.
Qed.

Lemma split_once_before :
  forall sep s, has_char sep (fst (split_once sep s)) = false.
Proof.
  intros sep. induction s as [|c s IH]; [reflexivity|].
  cbn [split_once]. destruct (Ascii.eqb c sep) eqn:E; [reflexivity|].
  destruct (split_once sep s) as [a b]. cbn [fst] in *.
  unfold has_char in *. cbn [existsb]. rewrite Ascii.eqb_sym, E. exact IH.
Qed.

Lemma strftime_display_length :
  forall t, List.length (strftime_display t) = 22.
Proof.
  intro t. unfold strftime_display. destruct (hour t <? 12)%Z; reflexivity.
Qed.

Lemma parse_line_trimmed :
  forall utcoffset line,
    Forall trimmed_entry (fst (parse_line utcoffset ([], []) line)).
Proof.
  intros utcoffset line. unfold parse_line.
  destruct (re_match LOG_PATTERN (strip line)) as [m|]; [|constructor].
  assert (He : has_char ";" (fst (if has_char ";" (grp "action" m)
                                   then split_once ";" (grp "action" m)
                                   else (grp "action" m, []))) = false).
  { destruct (has_char ";" (grp "action" m)) eqn:E;
      [apply split_once_before | exact E]. }
  destruct (if has_char ";" (grp "action" m)
            then split_once ";" (grp "action" m)
            else (grp "action" m, [])) as [event_type details].
  cbn [fst List.app] in *. constructor; [|constructor].
  unfold trimmed_entry. cbn [Player Event Details Timestamp].
  rewrite !strip_strip. repeat split.
  - apply has_char_strip. exact He.
  - destruct (strptime (grp "timestamp" m)); [right | left; reflexivity].
    apply strftime_display_length.
Qed.

(** X18.  Every record that [parse_log] makes is trimmed: its player,
    its event and its details have no white space at either end.  Its
    event holds no semicolon, the text after the first one having gone
    to the details, and its timestamp is empty or a text of twenty-two
    characters. *)
Theorem parse_log_records_are_trimmed :
  forall utcoffset file_content,
    Forall trimmed_entry (fst (parse_log utcoffset file_content)).
Proof.
  intros utcoffset file_content. rewrite parse_log_records.
  apply Forall_flat_map. apply Forall_forall. intros line _.
  apply parse_line_trimmed.
Qed.

(** ** The calendar *)

Lemma is_leap_period : forall y k, is_leap (y + k * 400) = is_leap y.
Proof.
  intros y k. unfold is_leap.
  replace ((y + k * 400) mod 4)%Z with (y mod 4)%Z
    by (replace (y + k * 400)%Z with (y + (k * 100) * 4)%Z by ring;
        symmetry; apply Z_mod_plus_full).
  replace ((y + k * 400) mod 100)%Z with (y mod 100)%Z
    by (replace (y + k * 400)%Z with (y + (k * 4) * 100)%Z by ring;
        symmetry; apply Z_mod_plus_full).
  replace ((y + k * 400) mod 400)%Z with (y mod 400)%Z
    by (symmetry; apply Z_mod_plus_full).
  reflexivity.
Qed.

Lemma days_in_month_period :
  forall y k m, days_in_month (y + k * 400) m = days_in_month y m.
Proof. intros. unfold days_in_month. rewrite is_leap_period. reflexivity. Qed.

Lemma civil_from_days_in_era :
  forall z,
    civil_from_days z
    = civil_in_era ((z + 719468) / 146097) ((z + 719468) mod 146097).
Proof.
  intro z. unfold civil_from_days, civil_in_era. cbv zeta.
  replace ((z + 719468) mod 146097)%Z
    with (z + 719468 - (z + 719468) / 146097 * 146097)%Z
    by (rewrite Z.mod_eq by lia; ring).
  reflexivity.
Qed.

Local Open Scope Z_scope.

(** The year of the era that the formula gives is the year the day falls
    in: the day lies between the first day of that year and the first
    of the next, the 400th year having one day more. *)
Lemma year_of_era :
  forall doe,
    0 <= doe < 146097 ->
    let yoe := (doe - doe / 1460 + doe / 36524 - doe / 146096) / 365 in
    let doy := doe - (365 * yoe + yoe / 4 - yoe / 100) in
    0 <= doy <= 365 /\ (doy = 365 -> is_leap (yoe + 1) = true).
Proof.
  intros doe H yoe doy.
  assert (Hy : 0 <= yoe < 400
               /\ doy < 365 + (yoe + 1) / 4 - (yoe + 1) / 100 - (yoe / 4 - yoe / 100)
                         + (if yoe =? 399 then 1 else 0)
               /\ 0 <= doy).
  { subst doy yoe. destruct (_ =? 399) eqn:E; Z.div_mod_to_equations; lia. }
  clearbody doy yoe. destruct Hy as [Hy [Hlt Hge]]. split.
  - destruct (yoe =? 399) eqn:E;
      [apply Z.eqb_eq in E | apply Z.eqb_neq in E];
      Z.div_mod_to_equations; lia.
  - intro Hd. unfold is_leap. destruct (yoe =? 399) eqn:E.
    + apply Z.eqb_eq in E. subst yoe. reflexivity.
    + assert ((yoe + 1) mod 4 = 0
              /\ ((yoe + 1) mod 100 <> 0 \/ (yoe + 1) mod 400 = 0)) as [H4 H100]
        by (Z.div_mod_to_equations; lia).
      rewrite H4. cbn [Z.eqb andb]. destruct H100 as [H100|H100].
      * apply Z.eqb_neq in H100. rewrite H100. reflexivity.
      * rewrite H100. apply orb_true_r.
Qed.

(** The month and the day of the month from the day of a year that
    begins with March. *)
Lemma month_of_year :
  forall doy,
    0 <= doy <= 365 ->
    let mp := (5 * doy + 2) / 153 in
    let d := doy - (153 * mp + 2) / 5 + 1 in
    0 <= mp <= 11 /\ 1 <= d <= 31
    /\ (mp = 1 \/ mp = 3 \/ mp = 6 \/ mp = 8 -> d <= 30)
    /\ (mp = 11 -> d <= 29 /\ (d = 29 -> doy = 365)).
Proof.
  intros doy H mp d. subst d mp. repeat split; intros;
    Z.div_mod_to_equations; lia.
Qed.

Lemma civil_in_era_valid :
  forall era doe,
    0 <= doe < 146097 ->
    let '(y, m, d) := civil_in_era era doe in valid_date y m d = true.
Proof.
  intros era doe H. unfold civil_in_era. cbv zeta.
  destruct (year_of_era H) as [Hdoy Hleap]. cbv zeta in Hdoy, Hleap.
  set (yoe := (doe - doe / 1460 + doe / 36524 - doe / 146096) / 365) in *.
  set (doy := doe - (365 * yoe + yoe / 4 - yoe / 100)) in *.
  destruct (month_of_year Hdoy) as [Hmp [Hd [H30 Hfeb]]].
  cbv zeta in Hmp, Hd, H30, Hfeb.
  set (mp := (5 * doy + 2) / 153) in *.
  set (d := doy - (153 * mp + 2) / 5 + 1) in *.
  clearbody d mp. unfold valid_date.
  assert (Hcases : mp = 0 \/ mp = 1 \/ mp = 2 \/ mp = 3 \/ mp = 4 \/ mp = 5
                   \/ mp = 6 \/ mp = 7 \/ mp = 8 \/ mp = 9 \/ mp = 10 \/ mp = 11)
    by lia.
  assert (Hd1 : (1 <=? d) = true) by (apply Z.leb_le; lia).
  assert (Hd31 : (d <=? 31) = true) by (apply Z.leb_le; lia).
  repeat (destruct Hcases as [->|Hcases];
          [ cbn; rewrite ?Hd1, ?Hd31; try reflexivity; apply Z.leb_le; lia |]).
  subst mp. change (11 <? 10) with false. cbv iota.
  change (11 - 9) with 2. change (2 <=? 2) with true. cbv iota.
  unfold days_in_month. change (2 =? 2) with true. cbv iota.
  replace (yoe + era * 400 + 1) with (yoe + 1 + era * 400) by ring.
  rewrite is_leap_period, Hd1. cbn [andb Z.leb Z.compare Pos.compare Pos.compare_cont].
  destruct (Hfeb eq_refl) as [H29 H365].
  destruct (is_leap (yoe + 1)) eqn:El; apply Z.leb_le; [lia|].
  destruct (Z.eq_dec d 29) as [E|E]; [|lia].
  discriminate (Hleap (H365 E)).
Qed.

Local Close Scope Z_scope.

Lemma civil_from_days_valid :
  forall z, let '(y, m, d) := civil_from_days z in valid_date y m d = true.
Proof.
  intro z. rewrite civil_from_days_in_era.
  apply civil_in_era_valid.
  pose proof (Z.mod_pos_bound (z + 719468) 146097). lia.
Qed.

Lemma of_seconds_valid : forall n, valid_datetime (of_seconds n) = true.
Proof.
  intro n. unfold of_seconds. cbv zeta.
  pose proof (civil_from_days_valid (n / 86400)) as Hd.
  destruct (civil_from_days (n / 86400)) as [[y m] d].
  unfold valid_datetime. cbn [year month day hour minute second].
  rewrite Hd. cbn [andb].
  pose proof (Z.mod_pos_bound n 86400).
  repeat (apply andb_true_intro; split); apply Z.leb_le;
    Z.div_mod_to_equations; lia.
Qed.

(** ** The display string, written and read back *)

Lemma digit_char_cases :
  forall n,
    isdigit (digit_char n) = true
    /\ digit_value (digit_char n) = (n mod 10)%Z.
Proof.
  intro n. unfold digit_char.
  pose proof (Z.mod_pos_bound n 10) as H.
  set (m := (n mod 10)%Z) in *.
  assert (Hm : (m = 0 \/ m = 1 \/ m = 2 \/ m = 3 \/ m = 4 \/ m = 5 \/ m = 6
                \/ m = 7 \/ m = 8 \/ m = 9)%Z) by lia.
  repeat (destruct Hm as [->|Hm]; [split; reflexivity|]).
  subst m. rewrite Hm. split; reflexivity.
Qed.

Lemma pad2_digits : forall n, all_of isdigit (pad2 n) = true.
Proof.
  intro n. unfold pad2, all_of. cbn [forallb].
  rewrite !(proj1 (digit_char_cases _)). reflexivity.
Qed.

Lemma pad4_digits : forall n, all_of isdigit (pad4 n) = true.
Proof.
  intro n. unfold pad4, all_of. cbn [forallb].
  rewrite !(proj1 (digit_char_cases _)). reflexivity.
Qed.

Lemma int_of_pad2 : forall n, int_of_digits (pad2 n) = (n mod 100)%Z.
Proof.
  intro n. unfold int_of_digits, pad2. cbn [fold_left].
  rewrite !(proj2 (digit_char_cases _)).
  Z.div_mod_to_equations. lia.
Qed.

Lemma int_of_pad4 : forall n, int_of_digits (pad4 n) = (n mod 10000)%Z.
Proof.
  intro n. unfold int_of_digits, pad4. cbn [fold_left].
  rewrite !(proj2 (digit_char_cases _)).
  Z.div_mod_to_equations. lia.
Qed.

Lemma rx_grp :
  forall A name r pos s caps (k : cont A),
    rx (Grp name r) pos s caps k
    = rx r pos s caps (fun pos' s' caps' =>
        k pos' s' (set_group name (firstn (pos' - pos) s) caps')).
Proof. reflexivity. Qed.

Lemma rep_loop_exact_class :
  forall A p (k : cont A) a s fuel pos caps,
    all_of p a = true ->
    List.length a <= fuel ->
    rep_loop (rx (Cls p)) true k fuel (List.length a) (Some (List.length a))
             pos (a ++ s) caps
    = k (pos + List.length a) s caps.
Proof.
  intros A p k. induction a as [|c a IH]; intros s fuel pos caps Hp Hf.
  - cbn [List.length List.app]. rewrite Nat.add_0_r.
    destruct fuel; cbn; destruct (k pos s caps); reflexivity.
  - destruct fuel as [|fuel]; [cbn in Hf; lia|].
    cbn [all_of forallb] in Hp. apply andb_prop in Hp as [Hc Ha].
    rewrite rep_loop_greedy_step. cbn [List.length more_allowed List.app].
    rewrite rx_cls, Hc. cbn [Nat.ltb Nat.leb orb pred pred_bound].
    rewrite (IH s fuel (S pos) caps Ha) by (cbn in Hf; lia).
    replace (S pos + List.length a) with (pos + S (List.length a)) by lia.
    destruct (k _ s caps); reflexivity.
Qed.

(** A group of exactly [n] characters of a class reads the next [n]
    characters when they are of the class. *)
Lemma rx_group_of_class :
  forall A name p n a s pos caps (k : cont A),
    all_of p a = true ->
    List.length a = n ->
    rx (Grp name (times n (Cls p))) pos (a ++ s) caps k
    = k (pos + n) s (set_group name a caps).
Proof.
  intros A name p n a s pos caps k Hp Hn. subst n.
  rewrite rx_grp. unfold times. rewrite rx_rep.
  rewrite rep_loop_exact_class by (try exact Hp; lia).
  replace (pos + List.length a - pos) with (List.length a + 0) by lia.
  rewrite firstn_app_2. cbn [firstn]. rewrite app_nil_r. reflexivity.
Qed.

Lemma rx_chr_here :
  forall A c s pos caps (k : cont A),
    rx (chr c) pos (c :: s) caps k = k (S pos) s caps.
Proof. intros. unfold chr. rewrite rx_cls, Ascii.eqb_refl. reflexivity. Qed.

Lemma display_format_reads :
  forall Y M D I Mi S ampm,
    ampm = T "AM" \/ ampm = T "PM" ->
    all_of isdigit Y = true -> List.length Y = 4 ->
    all_of isdigit M = true -> List.length M = 2 ->
    all_of isdigit D = true -> List.length D = 2 ->
    all_of isdigit I = true -> List.length I = 2 ->
    all_of isdigit Mi = true -> List.length Mi = 2 ->
    all_of isdigit S = true -> List.length S = 2 ->
    re_match_end DISPLAY_FORMAT
      (Y ++ "-"%char :: M ++ "-"%char :: D ++ " "%char :: I ++ ":"%char
         :: Mi ++ ":"%char :: S ++ " "%char :: ampm)
    = Some (22, [("p"%string, ampm);
                 ("S"%string, S); ("M"%string, Mi); ("I"%string, I);
                 ("d"%string, D); ("m"%string, M); ("Y"%string, Y)]).
Proof.
  intros Y M D I Mi S ampm Hap HY LY HM LM HD LD HI LI HMi LMi HS LS.
  unfold re_match_end, DISPLAY_FORMAT.
  rewrite rx_seqs_cons, (rx_group_of_class _ _ _ _ _ _ _ HY LY).
  rewrite rx_seqs_cons, rx_chr_here.
  rewrite rx_seqs_cons, (rx_group_of_class _ _ _ _ _ _ _ HM LM).
  rewrite rx_seqs_cons, rx_chr_here.
  rewrite rx_seqs_cons, (rx_group_of_class _ _ _ _ _ _ _ HD LD).
  rewrite rx_seqs_cons, rx_chr_here.
  rewrite rx_seqs_cons, (rx_group_of_class _ _ _ _ _ _ _ HI LI).
  rewrite rx_seqs_cons, rx_chr_here.
  rewrite rx_seqs_cons, (rx_group_of_class _ _ _ _ _ _ _ HMi LMi).
  rewrite rx_seqs_cons, rx_chr_here.
  rewrite rx_seqs_cons, (rx_group_of_class _ _ _ _ _ _ _ HS LS).
  rewrite rx_seqs_cons, rx_chr_here.
  destruct Hap as [->| ->]; reflexivity.
Qed.

Lemma nonempty_display : forall t, strftime_display t <> [].
Proof.
  intros t H. pose proof (strftime_display_length t) as Hl.
  rewrite H in Hl. discriminate.
Qed.

Lemma days_in_month_bound : forall y m, (28 <= days_in_month y m <= 31)%Z.
Proof.
  intros y m. unfold days_in_month.
  repeat match goal with
         | |- context [if ?b then _ else _] => destruct b
         end; lia.
Qed.

Lemma parse_display_of_fields :
  forall y m d h12 mi sec ampm,
    ampm = T "AM" \/ ampm = T "PM" ->
    (1 <= m <= 12)%Z -> (1 <= d <= days_in_month y m)%Z ->
    (1 <= h12 <= 12)%Z -> (0 <= mi <= 59)%Z -> (0 <= sec <= 59)%Z ->
    parse_display
      (pad4 y ++ "-"%char :: pad2 m ++ "-"%char :: pad2 d ++ " "%char
         :: pad2 h12 ++ ":"%char :: pad2 mi ++ ":"%char :: pad2 sec
         ++ " "%char :: ampm)
    = Some (mk_datetime (y mod 10000) m d
              (h12 mod 12 + (if text_eqb ampm (T "PM") then 12 else 0))
              mi sec).
Proof.
  intros y m d h12 mi sec ampm Hap Hm Hd Hh Hmi Hsec.
  pose proof (days_in_month_bound y m) as Hdim.
  unfold parse_display.
  rewrite (@display_format_reads (pad4 y) (pad2 m) (pad2 d) (pad2 h12)
             (pad2 mi) (pad2 sec) ampm Hap
             (pad4_digits y) eq_refl (pad2_digits m) eq_refl
             (pad2_digits d) eq_refl (pad2_digits h12) eq_refl
             (pad2_digits mi) eq_refl (pad2_digits sec) eq_refl).
  change (grp "Y" _) with (pad4 y). change (grp "m" _) with (pad2 m).
  change (grp "d" _) with (pad2 d). change (grp "I" _) with (pad2 h12).
  change (grp "M" _) with (pad2 mi). change (grp "S" _) with (pad2 sec).
  change (grp "p" _) with ampm.
  rewrite int_of_pad4, !int_of_pad2.
  rewrite (Z.mod_small m 100), (Z.mod_small d 100), (Z.mod_small h12 100),
          (Z.mod_small mi 100), (Z.mod_small sec 100) by lia.
  replace (days_in_month (y mod 10000) m) with (days_in_month y m)
    by (replace (y mod 10000)%Z with (y + (- (y / 10000) * 25) * 400)%Z
          by (rewrite Z.mod_eq by lia; ring);
        symmetry; apply days_in_month_period).
  replace (Nat.eqb 22 _) with true
    by (destruct Hap as [->| ->]; reflexivity).
  replace ((1 <=? m)%Z) with true by (symmetry; apply Z.leb_le; lia).
  replace ((m <=? 12)%Z) with true by (symmetry; apply Z.leb_le; lia).
  replace ((1 <=? d)%Z) with true by (symmetry; apply Z.leb_le; lia).
  replace ((d <=? days_in_month y m)%Z) with true
    by (symmetry; apply Z.leb_le; lia).
  replace ((1 <=? h12)%Z) with true by (symmetry; apply Z.leb_le; lia).
  replace ((h12 <=? 12)%Z) with true by (symmetry; apply Z.leb_le; lia).
  replace ((mi <=? 59)%Z) with true by (symmetry; apply Z.leb_le; lia).
  replace ((sec <=? 59)%Z) with true by (symmetry; apply Z.leb_le; lia).
  reflexivity.
Qed.

(** The display string of a time of the calendar reads back as that time,
    the year taken modulo 10000, which its four digits leave of it. *)
Lemma parse_display_strftime :
  forall t,
    valid_datetime t = true ->
    parse_display (strftime_display t)
    = Some (mk_datetime (year t mod 10000) (month t) (day t)
                        (hour t) (minute t) (second t)).
Proof.
  intros [y m d h mi sec] Hv. unfold valid_datetime, valid_date in Hv.
  cbn [year month day hour minute second] in Hv.
  repeat (apply andb_prop in Hv as [Hv ?]).
  repeat match goal with
         | H : (_ <=? _)%Z = true |- _ => apply Z.leb_le in H
         end.
  unfold strftime_display. cbn [year month day hour minute second].
  set (h12 := (if (h mod 12 =? 0)%Z then 12 else h mod 12)%Z).
  assert (Hh12 : (1 <= h12 <= 12)%Z).
  { subst h12. destruct (h mod 12 =? 0)%Z eqn:E; [lia|].
    apply Z.eqb_neq in E. pose proof (Z.mod_pos_bound h 12). lia. }
  destruct (h <? 12)%Z eqn:Eh.
  - apply Z.ltb_lt in Eh.
    change (parse_display
              (pad4 y ++ "-"%char :: pad2 m ++ "-"%char :: pad2 d ++ " "%char
                 :: pad2 h12 ++ ":"%char :: pad2 mi ++ ":"%char :: pad2 sec
                 ++ " "%char :: T "AM")
            = Some (mk_datetime (y mod 10000) m d h mi sec)).
    rewrite parse_display_of_fields by (auto; lia).
    change (text_eqb (T "AM") (T "PM")) with false.
    do 2 f_equal. subst h12.
    destruct (h mod 12 =? 0)%Z eqn:E.
    + apply Z.eqb_eq in E. rewrite Z.mod_small in E by lia. subst h. reflexivity.
    + rewrite Z.mod_mod by lia. rewrite Z.mod_small by lia. lia.
  - apply Z.ltb_ge in Eh.
    change (parse_display
              (pad4 y ++ "-"%char :: pad2 m ++ "-"%char :: pad2 d ++ " "%char
                 :: pad2 h12 ++ ":"%char :: pad2 mi ++ ":"%char :: pad2 sec
                 ++ " "%char :: T "PM")
            = Some (mk_datetime (y mod 10000) m d h mi sec)).
    rewrite parse_display_of_fields by (auto; lia).
    change (text_eqb (T "PM") (T "PM")) with true.
    do 2 f_equal. subst h12.
    destruct (h mod 12 =? 0)%Z eqn:E.
    + apply Z.eqb_eq in E.
      assert (h = 12)%Z by (Z.div_mod_to_equations; lia). subst h. reflexivity.
    + rewrite Z.mod_mod by lia. Z.div_mod_to_equations. lia.
Qed.

Lemma to_datetime_cell_display :
  forall t,
    valid_datetime t = true ->
    to_datetime_cell (ts_str (strftime_display t))
    = Some (ts_time (mk_datetime (year t mod 10000) (month t) (day t)
                                 (hour t) (minute t) (second t))).
Proof.
  intros t Hv. unfold to_datetime_cell.
  pose proof (parse_display_strftime t Hv) as H.
  pose proof (@nonempty_display t) as Hne.
  destruct (strftime_display t) as [|c s]; [congruence|].
  rewrite H. reflexivity.
Qed.

Lemma parse_line_stored_time :
  forall utcoffset line,
    Forall stored_time (fst (parse_line utcoffset ([], []) line)).
Proof.
  intros utcoffset line. unfold parse_line.
  destruct (re_match LOG_PATTERN (strip line)) as [m|]; [|constructor].
  destruct (if has_char ";" (grp "action" m)
            then split_once ";" (grp "action" m)
            else (grp "action" m, [])) as [event_type details].
  cbn [fst List.app]. constructor; [|constructor].
  unfold stored_time, readable_entry. cbn [Timestamp].
  destruct (strptime (grp "timestamp" m)) as [t|].
  - pose proof (of_seconds_valid (to_seconds t + utcoffset t)) as Hv.
    fold (astimezone utcoffset t) in Hv.
    rewrite (to_datetime_cell_display _ Hv). split; [reflexivity|].
    right. exists (astimezone utcoffset t).
    split; [exact Hv|]. split; [reflexivity|].
    intro Hy. rewrite Z.mod_small by exact Hy.
    destruct (astimezone utcoffset t). reflexivity.
  - split; [reflexivity | left; reflexivity].
Qed.

(** X19.  The timestamps that [parse_log] stores can always be read
    back.  The timestamp of a record is empty or the display string of
    a time of the calendar (a month from 1 to 12, a day of that month,
    an hour below 24), whatever offset the zone has; the conversion of
    the date filter accepts it, and for a year of four digits gives back
    the very time that was stored. *)
Theorem stored_timestamps_read_back :
  forall utcoffset file_content,
    Forall stored_time (fst (parse_log utcoffset file_content)).
Proof.
  intros utcoffset file_content. rewrite parse_log_records.
  apply Forall_flat_map. apply Forall_forall. intros line _.
  apply parse_line_stored_time.
Qed.

Lemma loaded_rows_readable :
  forall utcoffset file_content,
    forallb readable (clean_data (fst (parse_log utcoffset file_content))) = true.
Proof.
  intros utcoffset file_content. rewrite clean_data_rows.
  rewrite parse_log_records.
  apply forallb_forall. intros r Hr. apply in_map_iff in Hr as [e [<- He]].
  apply in_flat_map in He as [line [_ He]].
  pose proof (parse_line_stored_time utcoffset line) as H.
  rewrite Forall_forall in H. destruct (H e He) as [Hread _]. exact Hread.
Qed.

Lemma filter_by_contains_stops_on_pattern :
  forall pat col st, stops_on_pattern (filter_by_contains pat col st).
Proof.
  intros. unfold filter_by_contains.
  destruct (str_contains _ _); cbn; auto.
Qed.

Lemma by_find_string_stops_on_pattern :
  forall crit st, stops_on_pattern (by_find_string crit st).
Proof.
  intros. unfold by_find_string. destruct (strip _); [exact I|].
  destruct (re_compile_ignorecase _), (filtered_df st);
    try destruct (search_mask _ _); cbn; auto.
Qed.

Lemma readable_within :
  forall view frame,
    incl view frame -> forallb readable frame = true ->
    forallb readable view = true.
Proof.
  intros view frame Hincl H. rewrite forallb_forall in *.
  intros r Hr. apply H, Hincl, Hr.
Qed.

(** X20.  On a frame that was loaded from a log, the date filter fails
    on the bounds only: when [apply_filters] shows the message about the
    date format, both date boxes are filled and one of them could not be
    read as a date.  The timestamps of the log are never the cause. *)
Theorem date_error_comes_from_the_bounds :
  forall utcoffset to_datetime srt crit file_content st,
    df st = clean_data (fst (parse_log utcoffset file_content)) ->
    snd (apply_filters to_datetime srt crit st) = showerror incorrect_date_format ->
    date_filter_active crit = true
    /\ (to_datetime (strip (start_date_entry crit)) = None
        \/ to_datetime (strip (end_date_entry crit)) = None).
Proof.
  intros utcoffset to_datetime srt crit file_content st Hdf H.
  pose proof (loaded_rows_readable utcoffset file_content) as Hread.
  rewrite <- Hdf in Hread. clear Hdf.
  destruct (df st) as [|r0 rows0] eqn:E.
  { unfold apply_filters in H. rewrite E in H. discriminate. }
  rewrite <- E in Hread.
  rewrite apply_filters_stages_of in H by congruence.
  unfold stages, filtering in H. cbn [and_then] in H.
  pose proof (by_player_narrows crit (set_filtered_df st (df st))) as N1.
  assert (P1 : stops_on_pattern (by_player crit (set_filtered_df st (df st)))).
  { unfold by_player. destruct (strip _); [exact I|].
    apply filter_by_contains_stops_on_pattern. }
  destruct (by_player crit (set_filtered_df st (df st))) as [s1|s1 o1];
    cbn [and_then] in H;
    [| cbn in P1, H; destruct P1 as [-> | ->]; discriminate ].
  specialize (N1 s1 eq_refl).
  pose proof (by_event_type_narrows crit s1) as N2.
  assert (P2 : stops_on_pattern (by_event_type crit s1)).
  { unfold by_event_type. destruct (strip _); [exact I|].
    apply filter_by_contains_stops_on_pattern. }
  destruct (by_event_type crit s1) as [s2|s2 o2];
    cbn [and_then] in H;
    [| cbn in P2, H; destruct P2 as [-> | ->]; discriminate ].
  specialize (N2 s2 eq_refl).
  assert (Hview : forallb readable (filtered_df s2) = true).
  { destruct (narrows_trans N1 N2) as [_ Hincl].
    exact (readable_within Hincl Hread). }
  unfold by_date_range in H. unfold date_filter_active, blank.
  destruct (strip (start_date_entry crit)) as [|x1 w1].
  2: destruct (strip (end_date_entry crit)) as [|x2 w2].
  3: destruct (to_datetime (x1 :: w1)) as [start_date|]; [|auto].
  3: destruct (to_datetime (x2 :: w2)) as [end_date|]; [|auto].
  3: rewrite (to_datetime_column_readable _ Hview) in H.
  3: destruct (is_aware start_date || is_aware end_date);
       [cbn in H; discriminate|].
  all: cbn [and_then negb andb] in H.
  all: exfalso.
  all: match type of H with
       | context [by_find_string ?c ?s] =>
           pose proof (by_find_string_stops_on_pattern c s) as P4;
           destruct (by_find_string c s) as [s4|s4 o4];
           cbn [and_then] in H;
           [| cbn in P4, H; destruct P4 as [-> | ->]; discriminate ]
       end.
  all: unfold by_sorting in H; destruct (strip (sort_by_combo crit)) as [|c key];
    [ discriminate |];
    destruct (column_of_view s4 (c :: key));
    [destruct (sortable _ _); discriminate|];
    cbn in H; discriminate.
Qed.

Lemma date_error_comes_from_the_bounds_witness :
  df loaded = clean_data (fst (parse_log est_offset three_lines))
  /\ snd (apply_filters to_datetime_iso insertion_sorter bob_with_bad_start_date
                        loaded)
     = showerror incorrect_date_format
  /\ date_filter_active bob_with_bad_start_date = true
  /\ (to_datetime_iso (strip (start_date_entry bob_with_bad_start_date)) = None
      \/ to_datetime_iso (strip (end_date_entry bob_with_bad_start_date)) = None).
Proof.
  assert (H : snd (apply_filters to_datetime_iso insertion_sorter
                                 bob_with_bad_start_date loaded)
              = showerror incorrect_date_format).
  { unfold loaded. rewrite loaded_rows_are. reflexivity. }
  split; [reflexivity|]. split; [exact H|].
  exact (@date_error_comes_from_the_bounds est_offset to_datetime_iso
           insertion_sorter bob_with_bad_start_date three_lines loaded
           eq_refl H).
Defined.

(** * The matcher finds only what the expression denotes *)

Lemma extends_refl : forall names caps, extends names caps caps.
Proof. intros. exists []. split; [reflexivity | constructor]. Qed.

Lemma extends_trans :
  forall names a b c, extends names a b -> extends names b c -> extends names a c.
Proof.
  intros names a b c [x [-> Hx]] [y [-> Hy]]. exists (y ++ x).
  split; [apply app_assoc | apply Forall_app; split; assumption].
Qed.

Lemma extends_more :
  forall names names' a b,
    incl names names' -> extends names a b -> extends names' a b.
Proof.
  intros names names' a b Hincl [x [-> Hx]]. exists x. split; [reflexivity|].
  eapply Forall_impl; [|exact Hx]. intros nv H. apply Hincl, H.
Qed.

Lemma extends_group :
  forall name names a b v,
    extends names a b -> extends (name :: names) a (set_group name v b).
Proof.
  intros name names a b v [x [-> Hx]]. exists ((name, v) :: x).
  split; [reflexivity|]. constructor; [left; reflexivity|].
  eapply Forall_impl; [|exact Hx]. intros nv H. right. exact H.
Qed.

Lemma extends_nothing : forall a b, extends [] a b -> b = a.
Proof.
  intros a b [x [-> Hx]]. destruct x as [|nv x]; [reflexivity|].
  inversion Hx as [|? ? Hnv _]. destruct Hnv.
Qed.

Lemma rep_loop_eq :
  forall A (body : nat -> text -> captures -> cont A -> option A) greedy
         (k : cont A) fuel lo hi pos s caps,
    rep_loop body greedy k fuel lo hi pos s caps
    = let again :=
        match fuel with
        | 0 => None
        | S fuel' =>
            if more_allowed hi then
              body pos s caps (fun pos' s' caps' =>
                if (0 <? lo) || (List.length s' <? List.length s)
                then rep_loop body greedy k fuel' (pred lo) (pred_bound hi)
                              pos' s' caps'
                else None)
            else None
        end in
      if greedy then
        match again with
        | Some x => Some x
        | None => if lo =? 0 then k pos s caps else None
        end
      else
        match (if lo =? 0 then k pos s caps else None) with
        | Some x => Some x
        | None => again
        end.
Proof. intros. destruct fuel; reflexivity. Qed.

Section Soundness.

Variable A : Type.

Lemma rep_loop_sound :
  forall (body : nat -> text -> captures -> cont A -> option A) M names greedy,
    sound_for M names body ->
    forall lo hi fuel,
      sound_for (rep_matches M lo hi) names
                (fun pos s caps (k : cont A) =>
                   rep_loop body greedy k fuel lo hi pos s caps).
Proof.
  intros body M names greedy Hbody lo hi fuel. revert lo hi.
  assert (Hdone : forall lo hi pos s caps (k : cont A) x,
             (if lo =? 0 then k pos s caps else None) = Some x ->
             exists s1 s2 caps',
               s = s1 ++ s2 /\ rep_matches M lo hi pos s1 s2
               /\ extends names caps caps'
               /\ k (pos + List.length s1) s2 caps' = Some x).
  { intros lo hi pos s caps k x H. destruct lo as [|lo]; [|discriminate].
    exists [], s, caps. cbn [List.length List.app]. rewrite Nat.add_0_r.
    repeat split; [constructor | apply extends_refl | exact H]. }
  induction fuel as [|fuel IH]; intros lo hi pos s caps k x H;
    rewrite rep_loop_eq in H; cbv zeta in H.
  - destruct greedy.
    + apply Hdone. exact H.
    + apply Hdone.
      destruct (if lo =? 0 then k pos s caps else None); [exact H | discriminate].
  - assert (Hagain :
        (if more_allowed hi then
           body pos s caps (fun pos' s' caps' =>
             if (0 <? lo) || (List.length s' <? List.length s)
             then rep_loop body greedy k fuel (pred lo) (pred_bound hi)
                           pos' s' caps'
             else None)
         else None) = Some x ->
        exists s1 s2 caps',
          s = s1 ++ s2 /\ rep_matches M lo hi pos s1 s2
          /\ extends names caps caps'
          /\ k (pos + List.length s1) s2 caps' = Some x).
    { clear H. intro H. destruct (more_allowed hi) eqn:Hmore; [|discriminate].
      apply Hbody in H as (a & s' & caps1 & -> & Ma & E1 & H).
      destruct ((0 <? lo) || (List.length s' <? List.length (a ++ s'))) eqn:Hc;
        [|discriminate].
      apply IH in H as (b & s2 & caps2 & -> & Mb & E2 & H).
      exists (a ++ b), s2, caps2. repeat split.
      - apply app_assoc.
      - apply rep_more; try assumption.
        apply orb_prop in Hc as [Hc|Hc].
        + left. apply Nat.ltb_lt. exact Hc.
        + right. intros ->. apply Nat.ltb_lt in Hc. cbn in Hc. lia.
      - eapply extends_trans; eassumption.
      - rewrite length_app, Nat.add_assoc. exact H. }
    destruct greedy.
    + destruct (if more_allowed hi then _ else None) as [y|] eqn:E.
      * apply Hagain. congruence.
      * apply Hdone. exact H.
    + destruct (if lo =? 0 then k pos s caps else None) as [y|] eqn:E.
      * apply Hdone. congruence.
      * apply Hagain. exact H.
Qed.

Lemma code_of_newline : forall c, (code c =? 10) = true -> c = newline.
Proof.
  intros c H. apply Nat.eqb_eq in H. unfold code in H. unfold newline.
  rewrite <- H. symmetry. apply ascii_nat_embedding.
Qed.

Theorem rx_sound :
  forall r : regex, sound_for (matches r) (group_names r) (@rx A r).
Proof.
  induction r as [|p|r1 IH1 r2 IH2|r1 IH1 r2 IH2|r1 IH1 lo hi greedy
                  |name r1 IH1| |];
    intros pos s caps k x H.
  - exists [], s, caps. cbn [List.length List.app]. rewrite Nat.add_0_r.
    repeat split; [apply extends_refl | exact H].
  - rewrite rx_cls in H. destruct s as [|c s]; [discriminate|].
    destruct (p c) eqn:Hp; [|discriminate].
    exists [c], s, caps. cbn [List.length]. rewrite Nat.add_1_r.
    repeat split; [exists c; auto | apply extends_refl | exact H].
  - cbn [rx] in H.
    apply IH1 in H as (a & s' & caps1 & -> & Ma & E1 & H).
    apply IH2 in H as (b & s2 & caps2 & -> & Mb & E2 & H).
    exists (a ++ b), s2, caps2. repeat split.
    + apply app_assoc.
    + exists a, b. auto.
    + cbn [group_names]. eapply extends_trans.
      * eapply extends_more; [|exact E1]. apply incl_appl, incl_refl.
      * eapply extends_more; [|exact E2]. apply incl_appr, incl_refl.
    + rewrite length_app, Nat.add_assoc. exact H.
  - cbn [rx] in H. destruct (rx r1 pos s caps k) as [y|] eqn:E.
    + injection H as ->.
      apply IH1 in E as (a & s2 & caps1 & -> & Ma & E1 & H).
      exists a, s2, caps1. repeat split; try assumption.
      * left. exact Ma.
      * cbn [group_names]. eapply extends_more; [|exact E1].
        apply incl_appl, incl_refl.
    + apply IH2 in H as (a & s2 & caps1 & -> & Ma & E1 & H).
      exists a, s2, caps1. repeat split; try assumption.
      * right. exact Ma.
      * cbn [group_names]. eapply extends_more; [|exact E1].
        apply incl_appr, incl_refl.
  - rewrite rx_rep in H.
    apply (rep_loop_sound greedy IH1 lo hi (lo + List.length s)) in H.
    exact H.
  - rewrite rx_grp in H.
    apply IH1 in H as (a & s2 & caps1 & -> & Ma & E1 & H).
    exists a, s2, (set_group name a caps1). repeat split; try assumption.
    + cbn [group_names]. apply extends_group. exact E1.
    + replace (pos + List.length a - pos) with (List.length a + 0) in H by lia.
      rewrite firstn_app_2 in H. cbn [firstn] in H. rewrite app_nil_r in H.
      exact H.
  - cbn [rx] in H. destruct (pos =? 0) eqn:E; [|discriminate].
    apply Nat.eqb_eq in E.
    exists [], s, caps. cbn [List.length List.app]. rewrite Nat.add_0_r.
    repeat split; [exact E | apply extends_refl | exact H].
  - cbn [rx] in H. destruct s as [|c [|d s]]; try discriminate.
    + exists [], [], caps. cbn [List.length List.app]. rewrite Nat.add_0_r.
      repeat split; [left; reflexivity | apply extends_refl | exact H].
    + destruct (code c =? 10) eqn:E; [|discriminate].
      apply code_of_newline in E. subst c.
      exists [], [newline], caps. cbn [List.length List.app].
      rewrite Nat.add_0_r.
      repeat split; [right; reflexivity | apply extends_refl | exact H].
Qed.

(** A group captures the text that its expression matched. *)
Lemma rx_group_sound :
  forall name r pos s caps (k : cont A) x,
    rx (Grp name r) pos s caps k = Some x ->
    exists s1 s2 caps',
      s = s1 ++ s2 /\ matches r pos s1 s2 /\ extends (group_names r) caps caps'
      /\ k (pos + List.length s1) s2 (set_group name s1 caps') = Some x.
Proof.
  intros name r pos s caps k x H. rewrite rx_grp in H.
  apply rx_sound in H as (a & s2 & caps1 & -> & Ma & E1 & H).
  exists a, s2, caps1. repeat split; try assumption.
  replace (pos + List.length a - pos) with (List.length a + 0) in H by lia.
  rewrite firstn_app_2 in H. cbn [firstn] in H. rewrite app_nil_r in H.
  exact H.
Qed.

End Soundness.

(** ** What the building blocks of the patterns denote *)

Lemma rep_matches_class :
  forall p lo hi pos s s2,
    rep_matches (matches (Cls p)) lo hi pos s s2 ->
    all_of p s = true
    /\ lo <= List.length s
    /\ match hi with Some h => List.length s <= h | None => True end.
Proof.
  intros p lo hi pos s s2 H.
  induction H as [hi pos s2|lo hi pos a b s2 Hmore Hprog Ha Hb IH].
  - split; [reflexivity|]. split; [cbn; lia|].
    destruct hi; [cbn; lia | exact I].
  - destruct Ha as [c [-> Hc]]. destruct IH as [Hall [Hlo Hhi]].
    cbn [List.app all_of forallb List.length]. fold (all_of p b).
    rewrite Hc, Hall. split; [reflexivity|]. split; [lia|].
    destruct hi as [[|h]|]; cbn in *; try discriminate; try exact I. lia.
Qed.

Lemma matches_plus_inv :
  forall p g pos s s2,
    matches (Rep (Cls p) 1 None g) pos s s2 -> some_of p s = true.
Proof.
  intros p g pos s s2 H. apply rep_matches_class in H as [Hall [Hlen _]].
  unfold some_of. rewrite Hall. destruct s; [cbn in Hlen; lia | reflexivity].
Qed.

Lemma matches_times_inv :
  forall p n pos s s2,
    matches (times n (Cls p)) pos s s2 ->
    all_of p s = true /\ (List.length s =? n) = true.
Proof.
  intros p n pos s s2 H. apply rep_matches_class in H as [Hall [Hlo Hhi]].
  split; [exact Hall | apply Nat.eqb_eq; lia].
Qed.

Lemma matches_between_inv :
  forall p lo hi pos s s2,
    matches (between lo hi (Cls p)) pos s s2 ->
    all_of p s = true /\ lo <= List.length s <= hi.
Proof.
  intros p lo hi pos s s2 H. apply rep_matches_class in H as [Hall [Hlo Hhi]].
  auto.
Qed.

Lemma matches_chr_inv :
  forall c pos s s2, matches (chr c) pos s s2 -> s = [c].
Proof.
  intros c pos s s2 [d [-> H]]. apply Ascii.eqb_eq in H. subst d. reflexivity.
Qed.

Lemma matches_lit_inv :
  forall w pos s s2, matches (lit w) pos s s2 -> s = w.
Proof.
  induction w as [|c w IH]; intros pos s s2 H.
  - exact H.
  - destruct H as (a & b & -> & Ha & Hb).
    apply matches_chr_inv in Ha. apply IH in Hb. subst. reflexivity.
Qed.

Lemma matches_alts_inv :
  forall rs pos s s2,
    matches (alts rs) pos s s2 -> exists r, In r rs /\ matches r pos s s2.
Proof.
  induction rs as [|r rs IH]; intros pos s s2 H.
  - destruct H as [c [_ H]]. discriminate.
  - destruct rs as [|r' rs].
    + exists r. split; [left; reflexivity | exact H].
    + destruct H as [H|H].
      * exists r. split; [left; reflexivity | exact H].
      * apply IH in H as [r0 [Hin H]]. exists r0. split; [right; exact Hin | exact H].
Qed.

Lemma matches_seq_inv :
  forall r1 r2 pos s s2,
    matches (Seq r1 r2) pos s s2 ->
    exists a b, s = a ++ b /\ matches r1 pos a (b ++ s2)
                /\ matches r2 (pos + List.length a) b s2.
Proof. intros r1 r2 pos s s2 H. exact H. Qed.

Lemma text_eqb_same : forall a b, a = b -> text_eqb a b = true.
Proof. intros a b ->. apply text_eqb_refl. Qed.

(** The timestamp token in parts. *)
Lemma timestamp_token_inv :
  forall pos ts s2,
    matches TIMESTAMP_TOKEN pos ts s2 ->
    exists dd mon yy hh mi ap,
      ts = dd ++ T " " ++ mon ++ T " " ++ T "'" ++ yy ++ T " " ++ hh ++ T ":"
              ++ mi ++ [ap] ++ T "m"
      /\ some_of isdigit dd = true /\ (List.length dd <=? 2) = true
      /\ all_of isword mon = true /\ (List.length mon =? 3) = true
      /\ all_of isdigit yy = true /\ (List.length yy =? 2) = true
      /\ all_of isdigit hh = true /\ (List.length hh =? 2) = true
      /\ all_of isdigit mi = true /\ (List.length mi =? 2) = true
      /\ is_a_or_p ap = true.
Proof.
  intros pos ts s2 H. unfold TIMESTAMP_TOKEN in H. cbn [seqs] in H.
  apply matches_seq_inv in H as (dd & r1 & -> & Hdd & H).
  apply matches_seq_inv in H as (b1 & r2 & -> & Hb1 & H).
  apply matches_seq_inv in H as (mon & r3 & -> & Hmon & H).
  apply matches_seq_inv in H as (b2 & r4 & -> & Hb2 & H).
  apply matches_seq_inv in H as (q & r5 & -> & Hq & H).
  apply matches_seq_inv in H as (yy & r6 & -> & Hyy & H).
  apply matches_seq_inv in H as (b3 & r7 & -> & Hb3 & H).
  apply matches_seq_inv in H as (hh & r8 & -> & Hhh & H).
  apply matches_seq_inv in H as (co & r9 & -> & Hco & H).
  apply matches_seq_inv in H as (mi & r10 & -> & Hmi & H).
  apply matches_seq_inv in H as (ap' & m' & -> & Hap & Hm).
  apply matches_between_inv in Hdd as [Hdd Hlen].
  apply matches_chr_inv in Hb1, Hb2, Hq, Hb3, Hco, Hm. subst.
  apply matches_times_inv in Hmon as [Hmon Lmon].
  apply matches_times_inv in Hyy as [Hyy Lyy].
  apply matches_times_inv in Hhh as [Hhh Lhh].
  apply matches_times_inv in Hmi as [Hmi Lmi].
  destruct Hap as [ap [-> Hap]].
  exists dd, mon, yy, hh, mi, ap. repeat split; try assumption.
  - unfold some_of. rewrite Hdd.
    destruct dd; [cbn in Hlen; lia | reflexivity].
  - apply Nat.leb_le. lia.
Qed.

(** The action in parts. *)
Lemma action_inv :
  forall pos act s2,
    matches ACTION pos act s2 ->
    exists lead sp ev,
      act = lead ++ [sp] ++ ev
      /\ existsb (text_eqb lead) lead_words = true
      /\ isspace sp = true /\ some_of isany ev = true.
Proof.
  intros pos act s2 H. unfold ACTION in H. cbn [seqs] in H.
  apply matches_seq_inv in H as (lead & r1 & -> & Hlead & H).
  apply matches_seq_inv in H as (sp' & ev & -> & Hsp & Hev).
  destruct Hsp as [sp [-> Hsp]].
  apply matches_plus_inv in Hev.
  cbn [matches] in Hlead. apply matches_alts_inv in Hlead as [r [Hin Hr]].
  apply in_map_iff in Hin as [w [<- Hw]]. apply matches_lit_inv in Hr. subst w.
  exists lead, sp, ev. repeat split; try assumption.
  apply existsb_exists. exists lead. split; [exact Hw | apply text_eqb_refl].
Qed.

Lemma group_skips :
  forall name names added rest,
    Forall (fun nv : string * text => In (fst nv) names) added ->
    ~ In name names ->
    group name (added ++ rest) = group name rest.
Proof.
  intros name names added rest Hadded Hname.
  induction Hadded as [|[n v] added Hn _ IH]; [reflexivity|].
  cbn [List.app group]. destruct (String.eqb n name) eqn:E; [|exact IH].
  apply String.eqb_eq in E. subst n. contradiction.
Qed.

(** A match of [LOG_PATTERN] in parts, with what its three named groups
    captured. *)
Lemma log_pattern_captures :
  forall s m,
    re_match LOG_PATTERN s = Some m ->
    exists p s2,
      s = assemble p ++ s2
      /\ (s2 = [] \/ s2 = [newline])
      /\ matched_parts p = true
      /\ grp "timestamp" m = timestamp_of p
      /\ grp "player" m = player_name p
      /\ grp "action" m = action_of p.
Proof.
  intros s m H. unfold re_match, LOG_PATTERN in H.
  rewrite rx_seqs_cons in H.
  apply rx_sound in H as (a0 & t0 & c0 & -> & M0 & E0 & H).
  rewrite rx_seqs_cons in H.
  apply rx_sound in H as (ord & t1 & c1 & -> & M1 & E1 & H).
  rewrite rx_seqs_cons in H.
  apply rx_sound in H as (par & t2 & c2 & -> & M2 & E2 & H).
  rewrite rx_seqs_cons in H.
  apply rx_sound in H as (g1 & t3 & c3 & -> & M3 & E3 & H).
  rewrite rx_seqs_cons in H.
  apply rx_group_sound in H as (ts & t4 & c4 & -> & M4 & E4 & H).
  rewrite rx_seqs_cons in H.
  apply rx_sound in H as (g2 & t5 & c5 & -> & M5 & E5 & H).
  rewrite rx_seqs_cons in H.
  apply rx_sound in H as (col & t6 & c6 & -> & M6 & E6 & H).
  rewrite rx_seqs_cons in H.
  apply rx_sound in H as (g3 & t7 & c7 & -> & M7 & E7 & H).
  rewrite rx_seqs_cons in H.
  apply rx_group_sound in H as (pl & t8 & c8 & -> & M8 & E8 & H).
  rewrite rx_seqs_cons in H.
  apply rx_sound in H as (g4 & t9 & c9 & -> & M9 & E9 & H).
  rewrite rx_seqs_cons in H.
  apply rx_group_sound in H as (act & t10 & c10 & -> & M10 & E10 & H).
  rewrite rx_seqs_cons in H.
  apply rx_sound in H as (a11 & t11 & c11 & -> & M11 & E11 & H).
  cbn [seqs rx] in H. injection H as <-.
  cbn [group_names List.app] in *.
  apply extends_nothing in E0, E1, E2, E3, E5, E6, E7, E9, E11. subst.
  assert (E4' : c4 = []).
  { unfold TIMESTAMP_TOKEN in E4. cbn in E4. apply extends_nothing in E4. exact E4. }
  assert (E8' : c8 = set_group "timestamp" ts c4).
  { apply extends_nothing in E8. exact E8. }
  subst c4 c8.
  destruct E10 as [added [-> Hadded]].
  destruct M0 as [-> _]. destruct M11 as [-> Hend].
  apply matches_plus_inv in M1, M3, M5, M7, M8, M9.
  apply matches_chr_inv in M2, M6. subst par col.
  apply timestamp_token_inv in M4
    as (dd & mon & yy & hh & mi & ap & -> & Hdd & Ldd & Hmon & Lmon & Hyy & Lyy
        & Hhh & Lhh & Hmi & Lmi & Hap).
  apply action_inv in M10 as (lead & sp & ev & -> & Hlead & Hsp & Hev).
  exists {| ordinal := ord; gap_after_ordinal := g1;
            day_digits := dd; month_abbr := mon; year_digits := yy;
            hour_digits := hh; minute_digits := mi; ampm_letter := ap;
            gap_before_colon := g2; gap_after_colon := g3;
            player_name := pl; gap_after_player := g4;
            lead_word := lead; lead_gap := sp; event_text := ev |}, t11.
  split; [|split; [exact Hend|split; [|split; [|split]]]].
  - unfold assemble, before_event.
    cbn [ordinal gap_after_ordinal day_digits month_abbr year_digits
         hour_digits minute_digits ampm_letter gap_before_colon
         gap_after_colon player_name gap_after_player lead_word lead_gap
         event_text].
    unfold T. cbn [list_ascii_of_string List.app].
    repeat (first [rewrite <- app_assoc | progress cbn [List.app]]).
    reflexivity.
  - unfold matched_parts.
    cbn [ordinal gap_after_ordinal day_digits month_abbr year_digits
         hour_digits minute_digits ampm_letter gap_before_colon
         gap_after_colon player_name gap_after_player lead_word lead_gap
         event_text].
    rewrite M1, M3, Hdd, Ldd, Hmon, Lmon, Hyy, Lyy, Hhh, Lhh, Hmi, Lmi, Hap,
            M5, M7, M8, M9, Hlead, Hsp, Hev.
    reflexivity.
  - unfold grp, set_group. cbn [group String.eqb Ascii.eqb Bool.eqb].
    rewrite (@group_skips "timestamp" ["4"%string] added).
    + reflexivity.
    + exact Hadded.
    + intros [H|[]]. discriminate.
  - unfold grp, set_group. cbn [group String.eqb Ascii.eqb Bool.eqb].
    rewrite (@group_skips "player" ["4"%string] added).
    + reflexivity.
    + exact Hadded.
    + intros [H|[]]. discriminate.
  - reflexivity.
Qed.

(** * The line grammar and the records *)

Lemma strip_ends_unspaced :
  forall s, strip s <> [] -> ends_unspaced (strip s) = true.
Proof.
  intros s H. unfold strip in *.
  destruct (has_unspaced (lstrip s)) eqn:E.
  - apply rstrip_ends_unspaced. exact E.
  - exfalso. apply H.
    pose proof (lstrip_starts_unspaced s) as Hs.
    destruct (lstrip s) as [|c t]; [reflexivity|].
    cbn [has_unspaced existsb] in E. rewrite Hs in E. discriminate.
Qed.

Lemma ends_unspaced_last :
  forall s c, ends_unspaced (s ++ [c]) = negb (isspace c).
Proof. intros s c. unfold ends_unspaced. rewrite rev_app_distr. reflexivity. Qed.

Lemma matched_line_in_parts :
  forall line m,
    re_match LOG_PATTERN (strip line) = Some m ->
    exists p,
      matched_parts p = true
      /\ strip line = assemble p
      /\ grp "timestamp" m = timestamp_of p
      /\ grp "player" m = player_name p
      /\ grp "action" m = action_of p.
Proof.
  intros line m H.
  apply log_pattern_captures in H as (p & s2 & Hs & Hend & Hp & Hts & Hpl & Hact).
  exists p. repeat split; try assumption.
  destruct Hend as [->| ->]; [rewrite app_nil_r in Hs; exact Hs|].
  exfalso.
  assert (Hne : strip line <> []) by (rewrite Hs; destruct (assemble p); discriminate).
  pose proof (@strip_ends_unspaced line Hne) as Hu.
  rewrite Hs, ends_unspaced_last in Hu. discriminate.
Qed.

Lemma parts_in_language :
  forall p, matched_parts p = true -> matches LOG_PATTERN 0 (assemble p) [].
Proof.
  intros p H. unfold matched_parts in H.
  repeat (apply andb_prop in H as [H ?]).
  assert (Hord : some_of isdigit (ordinal p) = true)
    by (unfold some_of; apply andb_true_intro; split; assumption).
  pose proof (@log_pattern_segments (ordinal p) (gap_after_ordinal p)
                (day_digits p ++ [" "%char] ++ month_abbr p ++ [" "%char]
                   ++ ["'"%char] ++ year_digits p ++ [" "%char]
                   ++ hour_digits p ++ [":"%char] ++ minute_digits p
                   ++ [ampm_letter p] ++ ["m"%char])
                (gap_before_colon p) (gap_after_colon p) (player_name p)
                (gap_after_player p)
                (lead_word p ++ [lead_gap p] ++ event_text p)) as L.
  replace (assemble p)
    with (ordinal p ++ [")"%char] ++ gap_after_ordinal p
            ++ (day_digits p ++ [" "%char] ++ month_abbr p ++ [" "%char]
                  ++ ["'"%char] ++ year_digits p ++ [" "%char]
                  ++ hour_digits p ++ [":"%char] ++ minute_digits p
                  ++ [ampm_letter p] ++ ["m"%char])
            ++ gap_before_colon p ++ [":"%char] ++ gap_after_colon p
            ++ player_name p ++ gap_after_player p
            ++ lead_word p ++ [lead_gap p] ++ event_text p).
  - apply L; try assumption.
    + intros pos s2. apply timestamp_token_in_language; assumption.
    + intros pos s2. apply action_in_language; assumption.
  - unfold assemble, before_event, T. cbn [list_ascii_of_string List.app].
    repeat (first [rewrite <- app_assoc | progress cbn [List.app]]).
    reflexivity.
Qed.

(** X21.  The line grammar, exactly.  A line gives a record if and only
    if, once trimmed, it reads in parts as follows: digits, a closing
    parenthesis, white space; one or two digits, a blank, three word
    characters, a blank, an apostrophe and two digits, a blank, two
    digits, a colon, two digits, [am] or [pm]; white space, a colon,
    white space; a name of one character or more; white space; one of
    the nine lead words, one white-space character and one character or
    more, none of them a line feed. *)
Theorem line_grammar :
  forall line,
    line_matches line = true
    <-> exists p, matched_parts p = true /\ strip line = assemble p.
Proof.
  intro line. unfold line_matches. split.
  - intro H. destruct (re_match LOG_PATTERN (strip line)) as [m|] eqn:E;
      [|discriminate].
    apply matched_line_in_parts in E as (p & Hp & Hs & _).
    exists p. auto.
  - intros (p & Hp & Hs). rewrite Hs.
    pose proof (@re_match_complete _ _ _ (@parts_in_language p Hp)) as H.
    rewrite app_nil_r in H.
    destruct (re_match LOG_PATTERN (assemble p)); [reflexivity | congruence].
Qed.

Lemma parse_line_of_parts :
  forall utcoffset line m,
    re_match LOG_PATTERN (strip line) = Some m ->
    exists p,
      matched_parts p = true
      /\ strip line = assemble p
      /\ fst (parse_line utcoffset ([], []) line) = [record_of_parts utcoffset p].
Proof.
  intros utcoffset line m H.
  destruct (@matched_line_in_parts line m H) as (p & Hp & Hs & Hts & Hpl & Hact).
  exists p. split; [exact Hp|]. split; [exact Hs|].
  unfold parse_line. rewrite H, Hts, Hpl, Hact.
  unfold record_of_parts, cut_action.
  destruct (if has_char ";" (action_of p)
            then split_once ";" (action_of p)
            else (action_of p, [])) as [event_type details].
  cbn [fst snd List.app].
  destruct (strptime (timestamp_of p)); reflexivity.
Qed.

(** X22.  Every record is the record of one line read in parts.  For
    each record that [parse_log] makes there is a line of the text that,
    trimmed, reads in parts as the grammar asks, such that the player of
    the record is the name trimmed, its event and its details are what
    precedes and what follows the first semicolon of the action, each
    trimmed, and its timestamp is the timestamp token converted, or is
    empty when [strptime] rejects the token. *)
Theorem records_come_from_lines :
  forall utcoffset file_content,
    Forall (fun e =>
              exists line p,
                In line (splitlines (strip file_content))
                /\ matched_parts p = true
                /\ strip line = assemble p
                /\ e = record_of_parts utcoffset p)
           (fst (parse_log utcoffset file_content)).
Proof.
  intros utcoffset file_content. rewrite parse_log_records.
  apply Forall_forall. intros e He.
  apply in_flat_map in He as (line & Hline & He).
  destruct (re_match LOG_PATTERN (strip line)) as [m|] eqn:E.
  - destruct (@parse_line_of_parts utcoffset line m E) as (p & Hp & Hs & Hrec).
    rewrite Hrec in He. destruct He as [<-|[]].
    exists line, p. auto.
  - assert (Hno : line_matches line = false)
      by (unfold line_matches; rewrite E; reflexivity).
    rewrite (parse_line_not_matching utcoffset _ Hno) in He. destruct He.
Qed.

Lemma lead_word_shape :
  forall w,
    existsb (text_eqb w) lead_words = true ->
    has_char ";" w = false
    /\ ends_unspaced w = true
    /\ exists c r, w = c :: r /\ isspace c = false.
Proof.
  intros w H. apply existsb_exists in H as (w' & Hin & Heq).
  apply text_eqb_eq in Heq. subst w'.
  unfold lead_words in Hin. cbn [In map] in Hin.
  repeat (destruct Hin as [<-|Hin];
          [split; [reflexivity|]; split; [reflexivity|];
           eexists; eexists; split; reflexivity|]).
  contradiction.
Qed.

Lemma split_once_passes :
  forall sep w s,
    has_char sep w = false ->
    fst (split_once sep (w ++ s)) = w ++ fst (split_once sep s).
Proof.
  intros sep. induction w as [|c w IH]; intros s H; [reflexivity|].
  unfold has_char in H. cbn [existsb] in H.
  apply orb_false_elim in H as [Hc Hw].
  cbn [List.app split_once]. rewrite Ascii.eqb_sym, Hc.
  specialize (IH s Hw). destruct (split_once sep (w ++ s)) as [a b].
  cbn [fst] in *. rewrite IH. reflexivity.
Qed.

Lemma lstrip_app_start :
  forall x c y, isspace c = false -> lstrip (x ++ c :: y) = lstrip x ++ c :: y.
Proof.
  intros x c y Hc. induction x as [|d x IH]; cbn [List.app lstrip].
  - rewrite Hc. reflexivity.
  - destruct (isspace d); [exact IH | reflexivity].
Qed.

Lemma rstrip_app_ends_unspaced :
  forall a b, ends_unspaced a = true -> rstrip (a ++ b) = a ++ rstrip b.
Proof.
  intros a b H. unfold rstrip, ends_unspaced in *.
  rewrite rev_app_distr.
  destruct (rev a) as [|c a'] eqn:E; [discriminate|].
  apply negb_true_iff in H.
  rewrite lstrip_app_start by exact H.
  rewrite rev_app_distr, <- E, rev_involutive. reflexivity.
Qed.

Lemma event_starts_with_lead_word :
  forall lead rest,
    existsb (text_eqb lead) lead_words = true ->
    exists tail, strip (fst (cut_action (lead ++ rest))) = lead ++ tail.
Proof.
  intros lead rest H.
  destruct (@lead_word_shape lead H) as (Hsemi & Hend & c & r & Hlead & Hc).
  assert (Hcut : exists y, fst (cut_action (lead ++ rest)) = lead ++ y).
  { unfold cut_action. destruct (has_char ";" (lead ++ rest)).
    - rewrite split_once_passes by exact Hsemi. eauto.
    - cbn [fst]. eauto. }
  destruct Hcut as [y ->]. exists (rstrip y). unfold strip.
  assert (Hl : lstrip (lead ++ y) = lead ++ y)
    by (rewrite Hlead; cbn [List.app]; apply lstrip_unspaced; exact Hc).
  rewrite Hl. apply rstrip_app_ends_unspaced. exact Hend.
Qed.

(** X23.  The event of every record begins with one of the nine lead
    words of the grammar, so that no record has an empty event. *)
Theorem events_begin_with_a_lead_word :
  forall utcoffset file_content,
    Forall (fun e =>
              Event e <> []
              /\ existsb (fun w => starts_with w (Event e)) lead_words = true)
           (fst (parse_log utcoffset file_content)).
Proof.
  intros utcoffset file_content. rewrite parse_log_records.
  apply Forall_forall. intros e He.
  apply in_flat_map in He as (line & Hline & He).
  destruct (re_match LOG_PATTERN (strip line)) as [m|] eqn:E.
  - destruct (@parse_line_of_parts utcoffset line m E) as (p & Hp & Hs & Hrec).
    rewrite Hrec in He. destruct He as [<-|[]].
    unfold matched_parts in Hp.
    repeat (apply andb_prop in Hp as [Hp ?]).
    match goal with
    | Hl : existsb (text_eqb (lead_word p)) lead_words = true |- _ =>
        destruct (@event_starts_with_lead_word
                    (lead_word p) ([lead_gap p] ++ event_text p) Hl)
          as [tail Htail];
        destruct (@lead_word_shape (lead_word p) Hl)
          as (_ & _ & c & r & Hshape & _);
        apply existsb_exists in Hl as (w & Hin & Heq)
    end.
    apply text_eqb_eq in Heq.
    unfold record_of_parts. cbn [Event]. unfold action_of. rewrite Htail.
    split.
    + rewrite Hshape. discriminate.
    + apply existsb_exists. exists w. split; [exact Hin|].
      rewrite Heq. apply starts_with_prefix.
  - assert (Hno : line_matches line = false)
      by (unfold line_matches; rewrite E; reflexivity).
    rewrite (parse_line_not_matching utcoffset _ Hno) in He. destruct He.
Qed.

(** ** The diagnostics *)

Lemma parse_line_result :
  forall utcoffset line,
    line_result line (parse_line utcoffset ([], []) line).
Proof.
  intros utcoffset line. unfold parse_line.
  destruct (re_match LOG_PATTERN (strip line)) as [m|]; [|apply line_dropped].
  destruct (if has_char ";" (grp "action" m)
            then split_once ";" (grp "action" m)
            else (grp "action" m, [])) as [event_type details].
  cbn [List.app].
  destruct (strptime (grp "timestamp" m)) as [t|].
  - apply line_kept. unfold no_timestamp. cbn [Timestamp].
    pose proof (@nonempty_display (astimezone utcoffset t)) as Hne.
    destruct (strftime_display (astimezone utcoffset t)); [congruence | reflexivity].
  - apply line_kept_without_timestamp. reflexivity.
Qed.

Lemma parse_log_messages :
  forall utcoffset file_content,
    snd (parse_log utcoffset file_content)
    = flat_map (fun l => snd (parse_line utcoffset ([], []) l))
               (splitlines (strip file_content)).
Proof. intros. unfold parse_log. rewrite parse_log_fold. reflexivity. Qed.

Lemma filter_of_app :
  forall (A : Type) (f : A -> bool) a b, filter f (a ++ b) = filter f a ++ filter f b.
Proof.
  intros A f. induction a as [|x a IH]; intro b; [reflexivity|].
  cbn [List.app filter]. rewrite IH. destruct (f x); reflexivity.
Qed.

(** X24.  The diagnostics account for the lines.  Each line of the text
    gives a record or one message that it was skipped, so that records
    and such messages together are as many as the lines; the records
    without a timestamp are as many as the messages that a timestamp
    failed to parse; and nothing else is logged. *)
Theorem diagnostics_account_for_the_lines :
  forall utcoffset file_content,
    let records := fst (parse_log utcoffset file_content) in
    let log := snd (parse_log utcoffset file_content) in
    List.length records + List.length (filter is_line_skipped log)
    = List.length (splitlines (strip file_content))
    /\ List.length (filter no_timestamp records)
       = List.length (filter is_timestamp_failed log)
    /\ List.length log
       = List.length (filter is_line_skipped log)
         + List.length (filter is_timestamp_failed log).
Proof.
  intros utcoffset file_content records log. subst records log.
  rewrite parse_log_records, parse_log_messages.
  induction (splitlines (strip file_content)) as [|line lines IH];
    [repeat split|].
  destruct IH as (IH1 & IH2 & IH3).
  cbn [flat_map List.length].
  rewrite !filter_of_app, !length_app.
  destruct (parse_line_result utcoffset line) as [e He|e He|];
    cbn [fst snd filter List.length is_line_skipped is_timestamp_failed];
    rewrite ?He; cbn [List.length]; repeat split; lia.
Qed.
